(** * Batch-allocation orchestrator: a shallow embedding

    Source: [ABS B&A/ppg_b_and_a_helpers/thread_b_and_a.py] (FIFO worker pool,
    per-order create/assign loop, deferred tail passes, shard reconciliation)
    and [ABS B&A/ppg_b_and_a_helpers/newOrderValidation.py] (order creation,
    batch assignment).

    Modelling conventions.
    - Python [str] is [string]; a character is a code point below 256.
    - Python [int] counters that start at 0 and are only incremented are [nat];
      HTTP status codes and the configured thread count are [Z].
    - pandas frames are lists of records; the snapshot queries of
      [sqlQueries.py] are total reads of a remote that may answer differently
      at every call.
    - Every external call advances a logical clock; the remote's answers are
      functions of that clock (record [remote]).  Telemetry ([log_event]) and
      HTTP exchanges are collected as a list of [event]s.
    - Loops bounded by wall-clock time run for a number of iterations chosen by
      the remote ([*_polls] fields); counting loops ([while count <= 60]) are
      structural recursions on their bound. *)

From Stdlib Require Import ZArith String Ascii List Lia Bool Permutation Sorted.
From stdpp Require Import gmap strings list sorting.

Local Open Scope string_scope.
Local Open Scope list_scope.

(** ** Python string primitives *)

Module PyStr.

(** [str.isspace] on one character (code points below 256). *)
Definition isspace (c : ascii) : bool :=
  let n := nat_of_ascii c in
  (Nat.leb 9 n && Nat.leb n 13) || (Nat.leb 28 n && Nat.leb n 32)
  || Nat.eqb n 133 || Nat.eqb n 160.

Definition comma : ascii := ","%char.

Fixpoint lstrip (s : string) : string :=
  match s with
  | EmptyString => EmptyString
  | String c s' => if isspace c then lstrip s' else s
  end.

Fixpoint rstrip (s : string) : string :=
  match s with
  | EmptyString => EmptyString
  | String c s' =>
      match rstrip s' with
      | EmptyString => if isspace c then EmptyString else String c EmptyString
      | r => String c r
      end
  end.

(** [s.strip()] *)
Definition strip (s : string) : string := rstrip (lstrip s).

(** [s.split(",")]: always at least one segment. *)
Fixpoint split_comma (s : string) : list string :=
  match s with
  | EmptyString => [EmptyString]
  | String c s' =>
      if Ascii.eqb c comma then EmptyString :: split_comma s'
      else match split_comma s' with
           | h :: t => String c h :: t
           | [] => [String c EmptyString]
           end
  end.

(** [sep.join(l)] *)
Fixpoint join (sep : string) (l : list string) : string :=
  match l with
  | [] => EmptyString
  | [x] => x
  | x :: rest => x +:+ sep +:+ join sep rest
  end.

(** [s.replace(c, '')] for a one-character pattern. *)
Fixpoint remove_char (c : ascii) (s : string) : string :=
  match s with
  | EmptyString => EmptyString
  | String a s' => if Ascii.eqb a c then remove_char c s' else String a (remove_char c s')
  end.

(** A string is truthy when it is not empty. *)
Definition nonempty (s : string) : bool :=
  match s with EmptyString => false | _ => true end.

Fixpoint has_comma (s : string) : bool :=
  match s with
  | EmptyString => false
  | String c s' => Ascii.eqb c comma || has_comma s'
  end.

End PyStr.

(** [[s.strip() for s in csv.split(",") if s.strip()]] *)
Definition csv_items (csv : string) : list string :=
  List.filter PyStr.nonempty (List.map PyStr.strip (PyStr.split_comma csv)).

(** The [str] branch of [_safe_split_docnums] (the lines after the
    [isinstance] test).  [_process_single_batch_row] calls the function on
    the [DocNums] cell that [prepare_batches_for_ppg] has rewritten as one
    string, so the run takes this branch only; the whole function, with the
    branch for a list or array, is [_safe_split_docnums_val]. *)
Definition _safe_split_docnums (val : string) : list string :=
  let s := PyStr.remove_char "]"%char (PyStr.remove_char "["%char val) in
  if PyStr.nonempty (PyStr.strip s) then csv_items s else [].

(** A value passed to [_safe_split_docnums], as a [DocNums] cell of
    [abs_batches.parquet] can be: a list (or array) of sales-order numbers,
    each given by its [str(x)], or one string. *)
Inductive docnums_val :=
| DocList (l : list string)
| DocStr (s : string).

(** [_safe_split_docnums]: a list or array is returned element by element
    as it is, [[str(x) for x in val]], without stripping or filtering; a
    string is cleaned and split. *)
Definition _safe_split_docnums_val (val : docnums_val) : list string :=
  match val with
  | DocList l => l
  | DocStr s => _safe_split_docnums s
  end.

(** The loop of [_append_unique]: [existing] and [existing_set] are updated
    together. *)
Fixpoint append_loop (new_items : list string)
    (existing : list string) (existing_set : gset string) : list string :=
  match new_items with
  | [] => existing
  | x :: rest =>
      if decide (x ∈ existing_set)
      then append_loop rest existing existing_set
      else append_loop rest (existing ++ [x]) ({[x]} ∪ existing_set)
  end.

Definition _append_unique (csv_str : string) (new_items : list string) : string :=
  let existing := csv_items csv_str in
  PyStr.join ", " (append_loop new_items existing (list_to_set existing)).



(** ** Tables *)

(** One row of the input batch table ([abs_toBatchInPPG.parquet]).  The due
    date is a timestamp; [None] is a missing value (NaT). *)
Record batch_in := mk_batch_in {
  PPG_BatchName : string;
  DocNums : string;
  minDocDueDate : option Z;
}.

(** The batch table with the fact whether it has a [minDocDueDate] column. *)
Record batch_frame := mk_batch_frame {
  has_minDocDueDate : bool;
  batch_rows : list batch_in;
}.

(** One row of a per-thread result shard ([abs_toPrintInSAP_<i>.parquet]). *)
Record shard_row := mk_shard_row {
  shard_src : batch_in;
  ordersBatched : string;
  soCount : nat;
}.

(** One row of a per-thread error table. *)
Record error_row := mk_error_row {
  err_src : batch_in;
  soNum : string;
  reason : string;
}.

Record order_row := mk_order_row {
  MasterorderId : string;
  MasterorderName : string;
  OrderstatusType : Z;
}.

Record workorder_row := mk_workorder_row {
  WorkorderId : string;
  WorkorderName : string;
}.

Record wol_row := mk_wol_row {
  WorkorderlineId : string;
  wol_MasterorderId : string;
}.

Record bom_row := mk_bom_row {
  DocNum : string;
  LineNum : Z;
  U_PLS_PPG_ITEM : string;
}.

(** [df.empty] *)
Definition df_empty {A} (df : list A) : bool :=
  match df with [] => true | _ :: _ => false end.

(** ** Shard reconciliation *)

(** A Python [dict] of lists filled by [d[k].append(v)] on a
    [defaultdict(list)], in insertion order. *)
Fixpoint dict_append (d : list (string * list string)) (k v : string)
  : list (string * list string) :=
  match d with
  | [] => [(k, [v])]
  | (k', l) :: rest =>
      if String.eqb k' k then (k', l ++ [v]) :: rest
      else (k', l) :: dict_append rest k v
  end.

(** The count written to [soCount] from the new csv. *)
Definition csv_count (new_csv : string) : nat :=
  if PyStr.nonempty (PyStr.strip new_csv)
  then length (List.filter (fun s => PyStr.nonempty (PyStr.strip s)) (PyStr.split_comma new_csv))
  else 0.

(** Body of the innermost loop of [_apply_deferred_successes_to_parquets]
    for one row index [i]. *)
Definition merge_into_row (added_sos : list string) (r : shard_row) : shard_row :=
  let existing_csv := ordersBatched r in
  let new_csv := _append_unique existing_csv added_sos in
  if decide (new_csv = existing_csv) then r
  else mk_shard_row (shard_src r) new_csv (csv_count new_csv).

(** One [(batch_name, added_sos)] item applied to a frame: the rows selected
    by [mask]. *)
Definition merge_item (df : list shard_row) (item : string * list string) : list shard_row :=
  List.map (fun r => if String.eqb (PPG_BatchName (shard_src r)) (fst item)
                     then merge_into_row (snd item) r else r) df.

(** One shard file. *)
Definition merge_frame (deferred_success_map : list (string * list string))
    (df : list shard_row) : list shard_row :=
  if df_empty df then df else fold_left merge_item deferred_success_map df.

(** [_apply_deferred_successes_to_parquets]: every shard file of the run
    directory is rewritten in place. *)
Definition _apply_deferred_successes_to_parquets
    (ok_files : gmap nat (list shard_row))
    (deferred_success_map : list (string * list string)) : gmap nat (list shard_row) :=
  if df_empty deferred_success_map then ok_files
  else merge_frame deferred_success_map <$> ok_files.

(** ** Deterministic queue order *)

Section StableSort.
Context {A : Type} (leb : A -> A -> bool).

Fixpoint insert_sorted (x : A) (l : list A) : list A :=
  match l with
  | [] => [x]
  | y :: l' => if leb x y then x :: l else y :: insert_sorted x l'
  end.

(** A stable sort: an element is placed before the first one it is not
    greater than, so equal keys keep their input order. *)
Definition stable_sort (l : list A) : list A := foldr insert_sorted [] l.
End StableSort.

(** Ascending order of the due-date column, missing values last. *)
Definition due_leb (a b : option Z) : bool :=
  match a, b with
  | Some x, Some y => (x <=? y)%Z
  | Some _, None => true
  | None, Some _ => false
  | None, None => true
  end.

Definition due_eqb (a b : option Z) : bool := due_leb a b && due_leb b a.

(** [by=['minDocDueDate', 'PPG_BatchName'], ascending=[True, True]] *)
Definition due_name_leb (a b : batch_in) : bool :=
  if due_eqb (minDocDueDate a) (minDocDueDate b)
  then String.leb (PPG_BatchName a) (PPG_BatchName b)
  else due_leb (minDocDueDate a) (minDocDueDate b).

(** [by=['PPG_BatchName']] *)
Definition name_leb (a b : batch_in) : bool :=
  String.leb (PPG_BatchName a) (PPG_BatchName b).

(** The rows put on the shared queue, first put first out. *)
Definition df_batches_sorted (df_batches : batch_frame) : list batch_in :=
  if has_minDocDueDate df_batches
  then stable_sort due_name_leb (batch_rows df_batches)
  else stable_sort name_leb (batch_rows df_batches).

(** [n_workers = min(num_threads, total_batches)] *)
Definition n_workers (num_threads : Z) (total_batches : nat) : Z :=
  Z.min num_threads (Z.of_nat total_batches).

(** Worker ids submitted to the executor: [i + 1 for i in range(n_workers)]. *)
Definition worker_ids (num_threads : Z) (total_batches : nat) : list nat :=
  List.map S (seq 0 (Z.to_nat (n_workers num_threads total_batches))).

(** ** Python values returned by the create helpers *)

#[warnings="-register-all"]
Inductive pyval :=
| PyNone
| PyBool (b : bool)
| PyInt (z : Z)
| PyStr (s : string)
| PyList (l : list pyval)
| PyDict (items : list (string * pyval)).

(** Truth value of a Python object. *)
Definition truthy (v : pyval) : bool :=
  match v with
  | PyNone => false
  | PyBool b => b
  | PyInt z => negb (z =? 0)%Z
  | PyStr s => PyStr.nonempty s
  | PyList l => negb (df_empty l)
  | PyDict items => negb (df_empty items)
  end.

(** [d.get(k)] *)
Fixpoint dict_get (items : list (string * pyval)) (k : string) : pyval :=
  match items with
  | [] => PyNone
  | (k', v) :: rest => if String.eqb k' k then v else dict_get rest k
  end.

Definition DEFER_CREATE_SENTINEL : pyval := PyDict [("defer_create", PyBool true)].

(** [isinstance(created, dict) and created.get("defer_create")] *)
Definition is_defer_create (created : pyval) : bool :=
  match created with
  | PyDict items => truthy (dict_get items "defer_create")
  | _ => false
  end.

(** ** The remote service *)

(** What an HTTP call produces: a response with its status code and its JSON
    body ([None] when [response.json()] raises), or a network-level
    exception. *)
Inductive http_reply :=
| Reply (status_code : Z) (json : option pyval)
| NoReply.

(** [response.raise_for_status()] raises for 4xx and 5xx. *)
Definition raises_for_status (status : Z) : bool :=
  ((400 <=? status) && (status <? 600))%Z.

(** [hasattr(x, 'status_code') and x.status_code == 200] *)
Definition is_200 (x : http_reply) : bool :=
  match x with
  | Reply status _ => (status =? 200)%Z
  | NoReply => false
  end.

(** The remote at logical time [t]: snapshot reads, HTTP replies, how many
    iterations each wall-clock window lasts, and the configured number of
    work-order-line polls. *)
Record remote := mk_remote {
  run_getOpenPPGPickOrders_specific : nat -> string -> list order_row;
  run_getOpenPPGBatches_specific : nat -> string -> list workorder_row;
  run_getOpenPPGWOLines_specific : nat -> string -> list wol_row;
  post_orders : nat -> string -> http_reply;
  put_orders : nat -> string -> http_reply;
  delete_orders : nat -> string -> http_reply;
  post_batches : nat -> string -> http_reply;
  put_work_order_lines : nat -> string -> string -> nat -> http_reply;
  CREATE_GRACE_polls : nat -> nat;
  ADD_PREWAIT_polls : nat -> nat;
  DEFER_CREATE_FINAL_WAIT_polls : nat -> nat;
  WOL_POLL_ATTEMPTS : Z;
}.

(** Telemetry and HTTP exchanges, in the order they happen. *)
Inductive event :=
| EvOrderCreate (order : string) (reply : http_reply)
| EvOrderDealloc (order_id : string) (reply : http_reply)
| EvOrderDelete (order_id : string) (reply : http_reply)
| EvBatchCreate (batch : string) (reply : http_reply)
| EvAddOrderToBatch (order batch : string) (rank : nat)
| EvWolAssign (order batch : string) (line : nat) (wol_id batch_id : string)
    (rank : nat) (reply : http_reply).

(** ** Effects: a clock that every external call advances, and the events
    emitted. *)

Definition M (A : Type) : Type := nat -> A * list event * nat.

Definition ret {A} (a : A) : M A := fun t => (a, [], t).

Definition bind {A B} (m : M A) (k : A -> M B) : M B :=
  fun t =>
    let '(a, ev1, t1) := m t in
    let '(b, ev2, t2) := k a t1 in
    (b, ev1 ++ ev2, t2).

Declare Scope m_scope.
Delimit Scope m_scope with M.
Notation "'let*' x := m 'in' k" := (bind m (fun x => k))
  (at level 10, x name, m at level 100, k at level 200) : m_scope.
Notation "'do*' m 'in' k" := (bind m (fun _ => k))
  (at level 10, m at level 100, k at level 200) : m_scope.
Local Open Scope m_scope.

(** A snapshot read. *)
Definition query {A} (f : nat -> A) : M A := fun t => (f t, [], S t).

(** An HTTP call, recorded with its reply. *)
Definition exchange (f : nat -> http_reply) (ev : http_reply -> event) : M http_reply :=
  fun t => (f t, [ev (f t)], S t).

Definition log_event (ev : event) : M unit := fun t => (tt, [ev], t).

(** How many iterations the wall-clock window starting now allows. *)
Definition window (polls : nat -> nat) : M nat := fun t => (polls t, [], t).

Definition result_of {A} (x : A * list event * nat) : A := fst (fst x).
Definition events_of {A} (x : A * list event * nat) : list event := snd (fst x).
Definition clock_of {A} (x : A * list event * nat) : nat := snd x.


(** ** newOrderValidation.py *)

Section OrderValidation.
Context (R : remote).

(** The polling loop shared by [_wait_for_order_visible_in_ppg] and
    [_final_visibility_wait_for_order]: [n] iterations fit the window. *)
Fixpoint poll_order_visible (n : nat) (orderName : string) : M bool :=
  match n with
  | 0 => ret false
  | S n' =>
      let* dfPPG := query (fun t => run_getOpenPPGPickOrders_specific R t orderName) in
      if df_empty dfPPG then poll_order_visible n' orderName else ret true
  end.

Definition _wait_for_order_visible_in_ppg (orderName : string) : M bool :=
  let* n := window (CREATE_GRACE_polls R) in
  poll_order_visible n orderName.

(** The [for _ in range(max_attempts - 1)] loop of [_wait_for_wolines]. *)
Fixpoint wolines_retry (n : nat) (order_id : string) (df : list wol_row)
  : M (list wol_row) :=
  match n with
  | 0 => ret df
  | S n' =>
      let* df' := query (fun t => run_getOpenPPGWOLines_specific R t order_id) in
      if df_empty df' then wolines_retry n' order_id df' else ret df'
  end.

Definition _wait_for_wolines (order_id : string) (max_attempts : Z) : M (list wol_row) :=
  let* df := query (fun t => run_getOpenPPGWOLines_specific R t order_id) in
  if df_empty df then wolines_retry (Z.to_nat (max_attempts - 1)) order_id df
  else ret df.

Definition checkAllocation (dfPPG_order : list order_row) : bool :=
  match dfPPG_order with
  | row :: _ => ((OrderstatusType row =? 10) || (OrderstatusType row =? 11))%Z
  | [] => false
  end.

(** [deAllocateOrder]: [while refreshCount <= 60], 61 rounds at most. *)
Fixpoint deAllocateOrder_loop (rounds : nat) (orderName : string) : M bool :=
  match rounds with
  | 0 => ret false
  | S rounds' =>
      let* dfPPG := query (fun t => run_getOpenPPGPickOrders_specific R t orderName) in
      match dfPPG with
      | [] => ret true
      | row :: _ =>
          if negb (checkAllocation dfPPG) then ret true
          else
            do* exchange (fun t => put_orders R t (MasterorderId row))
                         (EvOrderDealloc (MasterorderId row)) in
            deAllocateOrder_loop rounds' orderName
      end
  end.

Definition deAllocateOrder (orderName : string) : M bool :=
  deAllocateOrder_loop 61 orderName.

(** [deleteOrder]: same shape, [False] after the last round. *)
Fixpoint deleteOrder_loop (rounds : nat) (orderName : string) : M bool :=
  match rounds with
  | 0 => ret false
  | S rounds' =>
      let* dfPPG := query (fun t => run_getOpenPPGPickOrders_specific R t orderName) in
      match dfPPG with
      | [] => ret true
      | row :: _ =>
          do* exchange (fun t => delete_orders R t (MasterorderId row))
                       (EvOrderDelete (MasterorderId row)) in
          deleteOrder_loop rounds' orderName
      end
  end.

Definition deleteOrder (orderName : string) : M bool :=
  deleteOrder_loop 61 orderName.

(** [createFullSOPickOrder]: one POST, never repeated here.  The order
    lines of the request body play no part in the classification of the
    reply and are left out. *)
Definition createFullSOPickOrder (orderNameStr : string) : M pyval :=
  let* response := exchange (fun t => post_orders R t orderNameStr)
                       (EvOrderCreate orderNameStr) in
  match response with
  | Reply status body =>
      if raises_for_status status then
        (* except requests.exceptions.HTTPError *)
        if (status =? 409)%Z then ret (PyBool true)
        else if (status =? 504)%Z then
          do* _wait_for_order_visible_in_ppg orderNameStr in
          ret (PyBool true)
        else if (status =? 500)%Z then ret DEFER_CREATE_SENTINEL
        else ret (PyBool false)
      else
        let data := match body with Some v => v | None => PyDict [] end in
        match data with
        | PyDict _ => ret data
        | _ =>
            (* data.keys() raises: except Exception *)
            do* _wait_for_order_visible_in_ppg orderNameStr in
            ret (PyBool true)
        end
  | NoReply =>
      (* except Exception *)
      do* _wait_for_order_visible_in_ppg orderNameStr in
      ret (PyBool true)
  end.

Definition createOrder (orderName : string) (df_sapBOM : list bom_row) : M pyval :=
  let* dfPPG := query (fun t => run_getOpenPPGPickOrders_specific R t orderName) in
  if negb (df_empty dfPPG) then ret (PyBool true)
  else
    let df_sapBOMFiltered :=
      List.filter (fun r => String.eqb (U_PLS_PPG_ITEM r) "Y") df_sapBOM in
    if df_empty df_sapBOMFiltered then ret (PyBool false)
    else
      let* created := createFullSOPickOrder orderName in
      do* query (fun t => run_getOpenPPGPickOrders_specific R t orderName) in
      ret created.

(** [createBatch]: [while count <= 60]. *)
Fixpoint createBatch_loop (rounds : nat) (batchName : string) : M bool :=
  match rounds with
  | 0 => ret false
  | S rounds' =>
      let* dfPPG_batch := query (fun t => run_getOpenPPGBatches_specific R t batchName) in
      if negb (df_empty dfPPG_batch) then ret true
      else
        do* exchange (fun t => post_batches R t batchName) (EvBatchCreate batchName) in
        createBatch_loop rounds' batchName
  end.

Definition createBatch (batchName : string) : M bool :=
  createBatch_loop 61 batchName.

(** The pre-wait loop of [addOrderToBatch]. *)
Fixpoint prewait_order (n : nat) (orderName : string) (dfPPG_order : list order_row)
  : M (list order_row) :=
  match n with
  | 0 => ret dfPPG_order
  | S n' =>
      if df_empty dfPPG_order then
        let* df := query (fun t => run_getOpenPPGPickOrders_specific R t orderName) in
        prewait_order n' orderName df
      else ret dfPPG_order
  end.

(** [while not success and retry_count < 2] for the line at [index];
    [budget] is the number of attempts left. *)
Fixpoint update_line (budget retry_count : nat) (orderName batchName : string)
    (index : nat) (order_id wol_id batch_id : string) (orderRank : nat) : M bool :=
  match budget with
  | 0 => ret false
  | S budget' =>
      let* x := exchange (fun t => put_work_order_lines R t wol_id batch_id orderRank)
                    (EvWolAssign orderName batchName index wol_id batch_id orderRank) in
      if is_200 x then ret true
      else
        let* wol_id' :=
          (if Nat.eqb index 0 && Nat.eqb retry_count 0 then
             let* dfPPG_WOLines_ref :=
               query (fun t => run_getOpenPPGWOLines_specific R t order_id) in
             ret (match dfPPG_WOLines_ref with
                  | r :: _ => WorkorderlineId r
                  | [] => wol_id
                  end)
           else ret wol_id) in
        update_line budget' (S retry_count) orderName batchName index
                    order_id wol_id' batch_id orderRank
  end.

(** [for index, row in dfPPG_WOLines.iterrows()] *)
Fixpoint assign_lines (index : nat) (rows : list wol_row)
    (orderName batchName order_id batch_id : string) (orderRank : nat) : M bool :=
  match rows with
  | [] => ret true
  | row :: rest =>
      let* success := update_line 2 0 orderName batchName index order_id
                             (WorkorderlineId row) batch_id orderRank in
      if Nat.eqb index 0 && negb success then ret false
      else assign_lines (S index) rest orderName batchName order_id batch_id orderRank
  end.

Definition addOrderToBatch (orderName batchName : string) (orderRank : nat) : M bool :=
  do* log_event (EvAddOrderToBatch orderName batchName orderRank) in
  let* df0 := query (fun t => run_getOpenPPGPickOrders_specific R t orderName) in
  let* dfPPG_order :=
    (if df_empty df0 then
       let* n := window (ADD_PREWAIT_polls R) in prewait_order n orderName df0
     else ret df0) in
  match dfPPG_order with
  | [] => ret false
  | order :: _ =>
      let order_id := MasterorderId order in
      let* dfPPG_WOLines := _wait_for_wolines order_id (WOL_POLL_ATTEMPTS R) in
      if df_empty dfPPG_WOLines then ret false
      else
        let* made := createBatch batchName in
        if negb made then ret false
        else
          let* dfPPG_batch := query (fun t => run_getOpenPPGBatches_specific R t batchName) in
          match dfPPG_batch with
          | [] => ret false
          | b :: _ =>
              assign_lines 0 dfPPG_WOLines orderName batchName order_id
                           (WorkorderId b) orderRank
          end
  end.

End OrderValidation.


(** ** thread_b_and_a.py: shared structures *)

(** What [run_specificBatches_optimized] shares between the workers and the
    tail passes, with the files of the run directory. *)
Record shared := mk_shared {
  batch_order_counts : gmap string nat;
  deferred_map : gmap string (list string);
  deferred_create_map : gmap string (list string);
  df_errors_by_thread : gmap nat (list error_row);
  ok_files : gmap nat (list shard_row);
  err_files : gmap nat (list error_row);
}.

Definition empty_shared : shared := mk_shared ∅ ∅ ∅ ∅ ∅ ∅.

(** [batch_order_counts.get(batch_name, 0)] *)
Definition count_of (sh : shared) (batch_name : string) : nat :=
  default 0 (batch_order_counts sh !! batch_name).

(** [d.setdefault(batch_name, []).append(soNum)] *)
Definition setdefault_append (d : gmap string (list string)) (batch_name soNum : string)
  : gmap string (list string) :=
  <[batch_name := default [] (d !! batch_name) ++ [soNum]]> d.

Definition set_counts (sh : shared) (c : gmap string nat) : shared :=
  mk_shared c (deferred_map sh) (deferred_create_map sh)
            (df_errors_by_thread sh) (ok_files sh) (err_files sh).

Definition set_deferred_map (sh : shared) (d : gmap string (list string)) : shared :=
  mk_shared (batch_order_counts sh) d (deferred_create_map sh)
            (df_errors_by_thread sh) (ok_files sh) (err_files sh).

Definition set_deferred_create_map (sh : shared) (d : gmap string (list string)) : shared :=
  mk_shared (batch_order_counts sh) (deferred_map sh) d
            (df_errors_by_thread sh) (ok_files sh) (err_files sh).

Definition set_df_errors_by_thread (sh : shared) (d : gmap nat (list error_row)) : shared :=
  mk_shared (batch_order_counts sh) (deferred_map sh) (deferred_create_map sh)
            d (ok_files sh) (err_files sh).

Definition set_ok_files (sh : shared) (f : gmap nat (list shard_row)) : shared :=
  mk_shared (batch_order_counts sh) (deferred_map sh) (deferred_create_map sh)
            (df_errors_by_thread sh) f (err_files sh).

Definition set_err_files (sh : shared) (f : gmap nat (list error_row)) : shared :=
  mk_shared (batch_order_counts sh) (deferred_map sh) (deferred_create_map sh)
            (df_errors_by_thread sh) (ok_files sh) f.

(** The variables of one call of [_process_single_batch_row]. *)
Record local := mk_local {
  row : batch_in;
  todo : list string;          (* the rest of [so_list] *)
  current_rank : nat;
  allocated_arr : list string;
  df_ok : list shard_row;
  df_errors : list error_row;
}.

Definition batch_name (loc : local) : string := PPG_BatchName (row loc).

(** ** thread_b_and_a.py: the per-thread worker *)

Section Orchestrator.
Context (R : remote).
(** The two frames loaded once per run.  Both come from
    [pd.DataFrame(cursor.fetchall())], which has no columns when the query
    returns no row. *)
Context (df_sapBOM_preloaded : list bom_row).
Context (df_ppgPickOrders : list order_row).

(** Entry of [_process_single_batch_row], up to the loop. *)
Definition row_begin (thread_id : nat) (r : batch_in) (sh : shared) : shared * local :=
  let df_ok0 := default [] (ok_files sh !! thread_id) in
  let df_errors0 := default [] (df_errors_by_thread sh !! thread_id) in
  let name := PPG_BatchName r in
  let counts :=
    match batch_order_counts sh !! name with
    | Some _ => batch_order_counts sh
    | None => <[name := 0]> (batch_order_counts sh)
    end in
  (set_counts sh counts,
   mk_local r (_safe_split_docnums (DocNums r)) (default 0 (counts !! name) + 1)
            [] df_ok0 df_errors0).

(** The clean-up of the loop body: an order found in the preloaded
    snapshot is deallocated and deleted first. *)
Definition cleanup_if_present (soNum : string) : M unit :=
  let df_ppgFiltered :=
    List.filter (fun r => String.eqb (MasterorderName r) soNum) df_ppgPickOrders in
  if negb (df_empty df_ppgFiltered)
  then do* deAllocateOrder R soNum in do* deleteOrder R soNum in ret tt
  else ret tt.

(** The [try] block of the loop body.  [inl msg] is an exception with
    message [msg]: the column lookups on a preloaded frame without
    columns. *)
Definition try_order (soNum : string) (sh : shared) (loc : local)
  : M (string + shared * local) :=
  match df_sapBOM_preloaded with
  | [] => ret (inl "'DocNum'")
  | _ :: _ =>
    let df_sap_filtered :=
      List.filter (fun r => String.eqb (DocNum r) soNum) df_sapBOM_preloaded in
    match df_ppgPickOrders with
    | [] => ret (inl "'MasterorderName'")
    | _ :: _ =>
      do* cleanup_if_present soNum in
      let* created := createOrder R soNum df_sap_filtered in
      if is_defer_create created then
        ret (inr (set_deferred_create_map sh
                    (setdefault_append (deferred_create_map sh) (batch_name loc) soNum),
                  loc))
      else if truthy created then
        let* success := addOrderToBatch R soNum (batch_name loc) (current_rank loc) in
        if success then
          let counts := <[batch_name loc := S (count_of sh (batch_name loc))]>
                          (batch_order_counts sh) in
          ret (inr (set_counts sh counts,
                    mk_local (row loc) (todo loc)
                             (default 0 (counts !! batch_name loc) + 1)
                             (allocated_arr loc ++ [soNum])
                             (df_ok loc) (df_errors loc)))
        else
          ret (inr (set_deferred_map sh
                      (setdefault_append (deferred_map sh) (batch_name loc) soNum),
                    loc))
      else
        ret (inr (sh, mk_local (row loc) (todo loc) (current_rank loc)
                               (allocated_arr loc) (df_ok loc)
                               (df_errors loc ++
                                  [mk_error_row (row loc) soNum "create_failed"])))
    end
  end.

(** The [except Exception as e] clause: the state is the one before the
    [try] block, with one more error row. *)
Definition except_clause (soNum : string) (sh : shared) (loc : local)
    (r : string + shared * local) : shared * local :=
  match r with
  | inr x => x
  | inl msg =>
      (sh, mk_local (row loc) (todo loc) (current_rank loc) (allocated_arr loc)
                    (df_ok loc)
                    (df_errors loc ++
                       [mk_error_row (row loc) soNum ("Exception: " +:+ msg)]))
  end.

(** Upsert of the batch's status row in the thread's frame. *)
Definition upsert_row (df : list shard_row) (row_out : shard_row) : list shard_row :=
  if df_empty df then [row_out]
  else List.filter (fun r => negb (String.eqb (PPG_BatchName (shard_src r))
                                              (PPG_BatchName (shard_src row_out)))) df
       ++ [row_out].

(** Persisting partial progress after each sales order: the batch's
    status row goes to the thread's shard, the error frame to the thread's
    error file when it is not empty. *)
Definition persist_progress (thread_id : nat) (rest : list string)
    (x : shared * local) : shared * local :=
  let '(sh1, loc1) := x in
  let row_out := mk_shard_row (row loc1)
                              (PyStr.join ", " (allocated_arr loc1))
                              (length (allocated_arr loc1)) in
  let df_ok' := upsert_row (df_ok loc1) row_out in
  let sh2 := set_ok_files sh1 (<[thread_id := df_ok']> (ok_files sh1)) in
  let sh3 := if df_empty (df_errors loc1) then sh2
             else set_err_files sh2 (<[thread_id := df_errors loc1]> (err_files sh2)) in
  (sh3, mk_local (row loc1) rest (current_rank loc1) (allocated_arr loc1)
                 df_ok' (df_errors loc1)).

(** One iteration of the loop over [so_list]. *)
Definition row_step (thread_id : nat) (soNum : string) (rest : list string)
    (sh : shared) (loc : local) : M (shared * local) :=
  let* r := try_order soNum sh loc in
  ret (persist_progress thread_id rest (except_clause soNum sh loc r)).

(** Exit of [_process_single_batch_row]. *)
Definition row_end (thread_id : nat) (sh : shared) (loc : local) : shared :=
  set_df_errors_by_thread sh (<[thread_id := df_errors loc]> (df_errors_by_thread sh)).

(** The loop over what is left of [so_list]. *)
Fixpoint row_loop (thread_id : nat) (so_list : list string) (sh : shared) (loc : local)
  : M (shared * local) :=
  match so_list with
  | [] => ret (sh, loc)
  | soNum :: rest =>
      let* x := row_step thread_id soNum rest sh loc in
      row_loop thread_id rest (fst x) (snd x)
  end.

Definition _process_single_batch_row (thread_id : nat) (r : batch_in) (sh : shared)
  : M shared :=
  let '(sh0, loc0) := row_begin thread_id r sh in
  let* x := row_loop thread_id (todo loc0) sh0 loc0 in
  ret (row_end thread_id (fst x) (snd x)).

(** ** The tail passes *)

(** [sorted(d.keys())] *)
Definition sorted_keys (d : gmap string (list string)) : list string :=
  stable_sort String.leb (map_to_list d).*1.

(** One deferred sales order of [_retry_deferred_tail]. *)
Definition retry_deferred_one (batch : string)
    (acc : shared * list (string * list string)) (soNum : string)
  : M (shared * list (string * list string)) :=
  let '(sh, deferred_success_map) := acc in
  let* df_ppg := query (fun t => run_getOpenPPGPickOrders_specific R t soNum) in
  if df_empty df_ppg then ret acc
  else
    let rank := count_of sh batch + 1 in
    let* success := addOrderToBatch R soNum batch rank in
    if success then
      ret (set_counts sh (<[batch := count_of sh batch + 1]> (batch_order_counts sh)),
           dict_append deferred_success_map batch soNum)
    else ret acc.

(** A loop whose body threads an accumulator. *)
Fixpoint for_each {A B} (body : B -> A -> M B) (l : list A) (acc : B) : M B :=
  match l with
  | [] => ret acc
  | x :: rest => let* acc' := body acc x in for_each body rest acc'
  end.

Definition _retry_deferred_tail (sh : shared) : M shared :=
  if decide (deferred_map sh = ∅) then ret sh
  else
    let* x := for_each
           (fun acc batch =>
              for_each (retry_deferred_one batch)
                       (default [] (deferred_map sh !! batch)) acc)
           (sorted_keys (deferred_map sh)) (sh, []) in
    ret (set_ok_files (fst x)
           (_apply_deferred_successes_to_parquets (ok_files (fst x)) (snd x))).

Definition _final_visibility_wait_for_order (soNum : string) : M bool :=
  let* n := window (DEFER_CREATE_FINAL_WAIT_polls R) in
  poll_order_visible R n soNum.

(** One deferred creation of [_retry_deferred_create_then_add_tail]; the
    column lookup on a preloaded frame without columns raises and the
    [except] clause only logs. *)
Definition retry_create_one (batch : string)
    (acc : shared * list (string * list string)) (soNum : string)
  : M (shared * list (string * list string)) :=
  let '(sh, late_success_map) := acc in
  let* became_visible := _final_visibility_wait_for_order soNum in
  let* created_ok :=
    (if became_visible then ret (Some true)
     else
       match df_sapBOM_preloaded with
       | [] => ret None
       | _ :: _ =>
           let df_sap_filtered :=
             List.filter (fun r => String.eqb (DocNum r) soNum) df_sapBOM_preloaded in
           let* created := createOrder R soNum df_sap_filtered in
           if is_defer_create created then ret (Some false)
           else ret (Some (truthy created))
       end) in
  match created_ok with
  | Some true =>
      let rank := count_of sh batch + 1 in
      let* success := addOrderToBatch R soNum batch rank in
      if success then
        ret (set_counts sh (<[batch := count_of sh batch + 1]> (batch_order_counts sh)),
             dict_append late_success_map batch soNum)
      else ret acc
  | _ => ret acc
  end.

Definition _retry_deferred_create_then_add_tail (sh : shared) : M shared :=
  if decide (deferred_create_map sh = ∅) then ret sh
  else
    let* x := for_each
           (fun acc batch =>
              for_each (retry_create_one batch)
                       (default [] (deferred_create_map sh !! batch)) acc)
           (sorted_keys (deferred_create_map sh)) (sh, []) in
    ret (set_ok_files (fst x)
           (_apply_deferred_successes_to_parquets (ok_files (fst x)) (snd x))).

(** [batch_and_allocate_orders_optimized]: the rows in order on one thread,
    then the two tails. *)
Definition batch_and_allocate_orders_optimized (df : list batch_in) (thread_id : nat)
  : M shared :=
  let* sh1 := for_each (fun sh r => _process_single_batch_row thread_id r sh) df empty_shared in
  let* sh2 := _retry_deferred_tail sh1 in
  _retry_deferred_create_then_add_tail sh2.

(** ** The FIFO worker pool *)

Inductive worker :=
| Waiting                (* about to call [q.get_nowait()] *)
| Busy (loc : local)     (* inside [_process_single_batch_row] *)
| Exited.                (* saw [queue.Empty] *)

Record pool := mk_pool {
  q : list batch_in;
  workers : list worker;     (* worker [i + 1] at position [i] *)
  store : shared;
}.

(** One atomic step of worker [i + 1]: take the next row, run one
    iteration of the loop over its sales orders, or leave the row. *)
Definition worker_step (i : nat) (p : pool) : M pool :=
  match workers p !! i with
  | Some Waiting =>
      match q p with
      | [] => ret (mk_pool [] (<[i := Exited]> (workers p)) (store p))
      | r :: rest =>
          let '(sh, loc) := row_begin (S i) r (store p) in
          ret (mk_pool rest (<[i := Busy loc]> (workers p)) sh)
      end
  | Some (Busy loc) =>
      match todo loc with
      | [] => ret (mk_pool (q p) (<[i := Waiting]> (workers p))
                           (row_end (S i) (store p) loc))
      | soNum :: rest =>
          let* x := row_step (S i) soNum rest (store p) loc in
          ret (mk_pool (q p) (<[i := Busy (snd x)]> (workers p)) (fst x))
      end
  | Some Exited | None => ret p
  end.

(** The workers' steps in the order the scheduler interleaves them. *)
Definition run_schedule (schedule : list nat) (p : pool) : M pool :=
  for_each (fun p i => worker_step i p) schedule p.

(** Leaving the [with ThreadPoolExecutor] block waits for every worker:
    worker [i + 1] runs alone until it exits. *)
Definition finish_worker (p : pool) (i : nat) : M pool :=
  match workers p !! i with
  | Some Waiting =>
      let* sh := for_each (fun sh r => _process_single_batch_row (S i) r sh) (q p) (store p) in
      ret (mk_pool [] (<[i := Exited]> (workers p)) sh)
  | Some (Busy loc) =>
      let* x := row_loop (S i) (todo loc) (store p) loc in
      let* sh := for_each (fun sh r => _process_single_batch_row (S i) r sh) (q p)
                     (row_end (S i) (fst x) (snd x)) in
      ret (mk_pool [] (<[i := Exited]> (workers p)) sh)
  | Some Exited | None => ret p
  end.

Definition join_pool (p : pool) : M pool :=
  for_each finish_worker (seq 0 (length (workers p))) p.

(** [combine_error_parquet_files], up to the order of the rows. *)
Definition combine_error_parquet_files (sh : shared) : list error_row :=
  concat (map_to_list (err_files sh)).*2.

(** [combine_parquet_files], up to the order of the rows. *)
Definition combine_parquet_files (sh : shared) : list shard_row :=
  concat (map_to_list (ok_files sh)).*2.

(** The pool when the executor is entered: the queue is loaded, no worker
    has taken a row yet. *)
Definition initial_pool (df_batches : batch_frame) (num_threads : Z) : pool :=
  mk_pool (df_batches_sorted df_batches)
          (List.map (fun _ => Waiting)
                    (worker_ids num_threads (length (batch_rows df_batches))))
          empty_shared.

(** [run_specificBatches_optimized] from the prepared batch table on.
    [None]: the early [return False] on an empty table, or the executor
    refusing [max_workers <= 0]. *)
Definition run_specificBatches_optimized (df_batches : batch_frame) (num_threads : Z)
    (schedule : list nat) : M (option shared) :=
  if df_empty (batch_rows df_batches) then ret None
  else
    let total_batches := length (batch_rows df_batches) in
    if (n_workers num_threads total_batches <=? 0)%Z then ret None
    else
      let p0 := initial_pool df_batches num_threads in
      let* p1 := run_schedule schedule p0 in
      let* p2 := join_pool p1 in
      let* sh1 := _retry_deferred_tail (store p2) in
      let* sh2 := _retry_deferred_create_then_add_tail sh1 in
      ret (Some sh2).

End Orchestrator.


(** ** Vocabulary of the statements *)

(** A sales-order number as [_safe_split_docnums] produces them: no comma,
    no surrounding white space, not empty. *)
Definition so_token (x : string) : Prop :=
  PyStr.has_comma x = false /\ PyStr.strip x = x /\ x <> "".

(** The entries of a shard row's [ordersBatched]. *)
Definition row_items (r : shard_row) : list string := csv_items (ordersBatched r).

(** The merge seen from one row: the items of the map in order, each applied
    when its batch name selects the row. *)
Definition merge_row (deferred_success_map : list (string * list string)) (r : shard_row)
  : shard_row :=
  fold_left (fun r item => if String.eqb (PPG_BatchName (shard_src r)) (fst item)
                           then merge_into_row (snd item) r else r)
            deferred_success_map r.

(** The csv of a row is the join of its own entries. *)
Definition canonical (r : shard_row) : Prop :=
  PyStr.join ", " (row_items r) = ordersBatched r.

(** A row is settled for a map when a further merge has nothing to add. *)
Definition settled (m : list (string * list string)) (r : shard_row) : Prop :=
  canonical r
  /\ forall it, it ∈ m -> fst it = PPG_BatchName (shard_src r) ->
                forall x, x ∈ snd it -> x ∈ row_items r.


(** *** Reading the events *)

(** The value [createFullSOPickOrder] returns for a reply to its POST. *)
Definition create_outcome (reply : http_reply) : pyval :=
  match reply with
  | Reply status body =>
      if raises_for_status status then
        if (status =? 409)%Z then PyBool true
        else if (status =? 504)%Z then PyBool true
        else if (status =? 500)%Z then DEFER_CREATE_SENTINEL
        else PyBool false
      else
        match body with
        | Some (PyDict items) => PyDict items
        | Some _ => PyBool true
        | None => PyDict []
        end
  | NoReply => PyBool true
  end.

Definition is_cleanup (ev : event) : bool :=
  match ev with
  | EvOrderDealloc _ _ | EvOrderDelete _ _ => true
  | _ => false
  end.

Definition is_create (ev : event) : bool :=
  match ev with EvOrderCreate _ _ => true | _ => false end.

Definition is_create_of (so : string) (ev : event) : bool :=
  match ev with EvOrderCreate name _ => String.eqb name so | _ => false end.

(** How many times the create request was submitted for [so]. *)
Definition create_submissions (so : string) (evs : list event) : nat :=
  length (List.filter (is_create_of so) evs).

(** Events that [addOrderToBatch] emits. *)
Definition is_assign_event (ev : event) : bool :=
  match ev with
  | EvBatchCreate _ _ | EvAddOrderToBatch _ _ _ | EvWolAssign _ _ _ _ _ _ _ => true
  | _ => false
  end.

(** The calls of [addOrderToBatch], with their arguments. *)
Definition add_attempt (ev : event) : option (string * string * nat) :=
  match ev with
  | EvAddOrderToBatch order batch rank => Some (order, batch, rank)
  | _ => None
  end.

Definition add_attempts (evs : list event) : list (string * string * nat) :=
  omap add_attempt evs.

(** The rank a successful assignment of an order's first work-order-line
    commits to [batch]. *)
Definition committed_rank (batch : string) (ev : event) : option nat :=
  match ev with
  | EvWolAssign _ b 0 _ _ rank reply =>
      if String.eqb b batch && is_200 reply then Some rank else None
  | _ => None
  end.

Definition committed_ranks (batch : string) (evs : list event) : list nat :=
  omap (committed_rank batch) evs.

(** The replies to the attempts on the first work-order-line of [order]. *)
Definition first_line_reply (order : string) (ev : event) : option http_reply :=
  match ev with
  | EvWolAssign o _ 0 _ _ _ reply => if String.eqb o order then Some reply else None
  | _ => None
  end.

Definition first_line_replies (order : string) (evs : list event) : list http_reply :=
  omap (first_line_reply order) evs.

(** An attempt on line [index] that the remote did not acknowledge with 200. *)
Definition refused_assign (order batch : string) (index rank : nat) (ev : event) : Prop :=
  exists wol_id batch_id reply,
    ev = EvWolAssign order batch index wol_id batch_id rank reply /\ is_200 reply = false.

(** An attempt on line [index] acknowledged with 200. *)
Definition accepted_assign (order batch : string) (index rank : nat) (ev : event) : Prop :=
  exists wol_id batch_id reply,
    ev = EvWolAssign order batch index wol_id batch_id rank reply /\ is_200 reply = true.

(** *** The ways through one iteration of the loop over a batch's orders *)

(** What [createOrder] emitted and returned. *)
Definition create_facts (soNum : string) (kev : list event) (created : pyval) : Prop :=
  (kev = [] /\ (created = PyBool true \/ created = PyBool false))
  \/ (exists reply, kev = [EvOrderCreate soNum reply] /\ created = create_outcome reply).

(** What [addOrderToBatch] emitted after its call event, and returned. *)
Definition add_facts (soNum batch : string) (rank : nat) (success : bool)
    (aev : list event) : Prop :=
  Forall (fun ev => add_attempt ev = None /\ is_assign_event ev = true) aev
  /\ (forall b, committed_ranks b aev
                = if success && String.eqb batch b then [rank] else [])
  /\ (Forall (fun reply => is_200 reply = false) (first_line_replies soNum aev) ->
      success = false).

Inductive order_path (df_sapBOM_preloaded : list bom_row) (df_ppgPickOrders : list order_row)
    (soNum : string) (sh : shared) (loc : local)
  : list event -> string + shared * local -> Prop :=
| path_no_bom_frame :
    df_sapBOM_preloaded = [] ->
    order_path df_sapBOM_preloaded df_ppgPickOrders soNum sh loc [] (inl "'DocNum'")
| path_no_ppg_frame :
    df_sapBOM_preloaded <> [] -> df_ppgPickOrders = [] ->
    order_path df_sapBOM_preloaded df_ppgPickOrders soNum sh loc [] (inl "'MasterorderName'")
| path_defer_create cleanup reply :
    Forall (fun ev => is_cleanup ev = true) cleanup ->
    is_defer_create (create_outcome reply) = true ->
    order_path df_sapBOM_preloaded df_ppgPickOrders soNum sh loc
      (cleanup ++ [EvOrderCreate soNum reply])
      (inr (set_deferred_create_map sh
              (setdefault_append (deferred_create_map sh) (batch_name loc) soNum),
            loc))
| path_assigned cleanup kev created aev :
    Forall (fun ev => is_cleanup ev = true) cleanup ->
    create_facts soNum kev created ->
    is_defer_create created = false -> truthy created = true ->
    add_facts soNum (batch_name loc) (current_rank loc) true aev ->
    order_path df_sapBOM_preloaded df_ppgPickOrders soNum sh loc
      (cleanup ++ kev ++ EvAddOrderToBatch soNum (batch_name loc) (current_rank loc) :: aev)
      (inr (set_counts sh (<[batch_name loc := S (count_of sh (batch_name loc))]>
                             (batch_order_counts sh)),
            mk_local (row loc) (todo loc) (S (count_of sh (batch_name loc)) + 1)
                     (allocated_arr loc ++ [soNum]) (df_ok loc) (df_errors loc)))
| path_defer_assign cleanup kev created aev :
    Forall (fun ev => is_cleanup ev = true) cleanup ->
    create_facts soNum kev created ->
    is_defer_create created = false -> truthy created = true ->
    add_facts soNum (batch_name loc) (current_rank loc) false aev ->
    order_path df_sapBOM_preloaded df_ppgPickOrders soNum sh loc
      (cleanup ++ kev ++ EvAddOrderToBatch soNum (batch_name loc) (current_rank loc) :: aev)
      (inr (set_deferred_map sh
              (setdefault_append (deferred_map sh) (batch_name loc) soNum),
            loc))
| path_create_failed cleanup kev created :
    Forall (fun ev => is_cleanup ev = true) cleanup ->
    create_facts soNum kev created ->
    is_defer_create created = false -> truthy created = false ->
    order_path df_sapBOM_preloaded df_ppgPickOrders soNum sh loc
      (cleanup ++ kev)
      (inr (sh, mk_local (row loc) (todo loc) (current_rank loc) (allocated_arr loc)
                         (df_ok loc)
                         (df_errors loc ++ [mk_error_row (row loc) soNum "create_failed"]))).

(** *** Rank density *)

(** The ranks committed for every batch are 1, 2, ... up to the batch's
    counter, in this order. *)
Definition dense (evs : list event) (sh : shared) : Prop :=
  forall b, committed_ranks b evs = seq 1 (count_of sh b).

(** Every call of [addOrderToBatch] carries the rank after the batch's
    counter: one more than the number of ranks committed for the batch
    before the call. *)
Definition attempts_next (evs : list event) : Prop :=
  forall pre so b rank post,
    evs = pre ++ EvAddOrderToBatch so b rank :: post ->
    rank = length (committed_ranks b pre) + 1.

(** The calls within the events [d] of one step that starts with the
    counters of [sh]: each comes before any commit of the step for its
    batch and carries the rank after the batch's counter. *)
Definition step_attempts_ok (sh : shared) (d : list event) : Prop :=
  forall pre so b rank post,
    d = pre ++ EvAddOrderToBatch so b rank :: post ->
    committed_ranks b pre = [] /\ rank = count_of sh b + 1.

(** The ledger over a run: density, and every attempt at the next rank. *)
Definition ledger_ok (evs : list event) (sh : shared) : Prop :=
  dense evs sh /\ attempts_next evs.

(** The pool while the workers run: density, every worker inside a row holds
    the rank after its batch's counter, and no batch name is shared between
    two rows that are in progress or still queued. *)
Definition pool_ranks_ok (evs : list event) (p : pool) : Prop :=
  dense evs (store p)
  /\ (forall i loc, workers p !! i = Some (Busy loc) ->
        current_rank loc = count_of (store p) (batch_name loc) + 1)
  /\ (forall i j li lj, i <> j ->
        workers p !! i = Some (Busy li) -> workers p !! j = Some (Busy lj) ->
        batch_name li <> batch_name lj)
  /\ (forall i loc, workers p !! i = Some (Busy loc) ->
        batch_name loc ∉ PPG_BatchName <$> q p)
  /\ NoDup (PPG_BatchName <$> q p).

(** *** Error rows *)

(** The two reasons the main pass writes: a failed create and an exception
    caught by the loop body. *)
Definition create_or_exception (r : error_row) : Prop :=
  reason r = "create_failed" \/ exists msg, reason r = "Exception: " +:+ msg.

(** Every error row held anywhere in the pool — in the error files, in the
    per-thread cache, in the frame of a worker inside a row — has one of
    these reasons. *)
Definition pool_errors_ok (p : pool) : Prop :=
  (forall tid rows, err_files (store p) !! tid = Some rows -> Forall create_or_exception rows)
  /\ (forall tid rows, df_errors_by_thread (store p) !! tid = Some rows ->
        Forall create_or_exception rows)
  /\ (forall i loc, workers p !! i = Some (Busy loc) ->
        Forall create_or_exception (df_errors loc)).

(** *** Counting create requests *)

(** How many times [so] is listed. *)
Definition listed (so : string) (l : list string) : nat :=
  length (List.filter (String.eqb so) l).

(** The sales orders of a row of the batch table: [so_list]. *)
Definition row_tasks (r : batch_in) : list string := _safe_split_docnums (DocNums r).

(** How many times the rows list [so]. *)
Definition listed_in (so : string) (rows : list batch_in) : nat :=
  sum_list_with (fun r => listed so (row_tasks r)) rows.

Definition worker_pending (so : string) (w : worker) : nat :=
  match w with Busy loc => listed so (todo loc) | _ => 0 end.

(** The iterations for [so] that the pool has still to run. *)
Definition pending (so : string) (p : pool) : nat :=
  listed_in so (q p) + sum_list_with (worker_pending so) (workers p).

(** How many times [so] is queued in the deferred-create map. *)
Definition deferred_creates (so : string) (d : gmap string (list string)) : nat :=
  sum_list_with (fun kv => listed so (snd kv)) (map_to_list d).

(** The main pass submits at most one create per iteration, and queues a
    deferred create only after one. *)
Definition pool_creates_ok (so : string) (n : nat) (evs : list event) (p : pool) : Prop :=
  create_submissions so evs + pending so p <= n
  /\ deferred_creates so (deferred_create_map (store p)) <= create_submissions so evs.


(** ** Remotes and frames for the examples *)

(** A remote that shows every order from time [visible_from] on, with two
    work-order-lines, knows every batch, answers every create with
    [post_reply] and the line update at time [t] with [put_reply t]. *)
Definition scripted_remote (visible_from : nat) (post_reply : http_reply)
    (put_reply : nat -> http_reply) : remote :=
  {| run_getOpenPPGPickOrders_specific := fun t name =>
       if Nat.leb visible_from t then [mk_order_row ("id-" +:+ name) name 1] else [];
     run_getOpenPPGBatches_specific := fun _ name => [mk_workorder_row ("wo-" +:+ name) name];
     run_getOpenPPGWOLines_specific := fun _ order_id =>
       [mk_wol_row ("l1-" +:+ order_id) order_id; mk_wol_row ("l2-" +:+ order_id) order_id];
     post_orders := fun _ _ => post_reply;
     put_orders := fun _ _ => Reply 200 None;
     delete_orders := fun _ _ => Reply 200 None;
     post_batches := fun _ _ => Reply 200 None;
     put_work_order_lines := fun t _ _ _ => put_reply t;
     CREATE_GRACE_polls := fun _ => 2;
     ADD_PREWAIT_polls := fun _ => 2;
     DEFER_CREATE_FINAL_WAIT_polls := fun _ => 3;
     WOL_POLL_ATTEMPTS := 3 |}.

Definition example_bom : list bom_row :=
  [mk_bom_row "SO1" 0 "Y"; mk_bom_row "SO2" 0 "Y"; mk_bom_row "SO3" 0 "Y";
   mk_bom_row "SO4" 0 "N"].

Definition example_ppg : list order_row := [mk_order_row "id-0" "SO0" 1].

Definition example_row : batch_in := mk_batch_in "B1" "SO1, SO2" (Some 10%Z).

Definition example_local : local :=
  snd (row_begin 1 example_row empty_shared).

Definition example_shared : shared :=
  fst (row_begin 1 example_row empty_shared).

(** Two batches of distinct names, and two rows that share one name. *)
Definition example_frame : batch_frame :=
  mk_batch_frame true [example_row; mk_batch_in "B2" "SO3" (Some 5%Z)].

Definition example_frame_same_name : batch_frame :=
  mk_batch_frame false [mk_batch_in "B" "SO1" None; mk_batch_in "B" "SO2" None].

Definition example_frame_one : batch_frame := mk_batch_frame true [example_row].

(** One row that lists the same sales order twice. *)
Definition example_frame_twice : batch_frame :=
  mk_batch_frame false [mk_batch_in "B" "SO1, SO1" None].

(** One row that lists SO1 twice and then SO2. *)
Definition example_frame_repeat : batch_frame :=
  mk_batch_frame false [mk_batch_in "B" "SO1, SO1, SO2" None].


(** ** thread_b_and_a.py: preparing the batch table *)

(** [c in s] for one character. *)
Fixpoint contains_char (c : ascii) (s : string) : bool :=
  match s with
  | EmptyString => false
  | String a s' => Ascii.eqb a c || contains_char c s'
  end.

(** One row of [abs_batches.parquet]. *)
Record batch_raw := mk_batch_raw {
  raw_PPG_BatchName : string;
  raw_DocNums : docnums_val;
  raw_minDocDueDate : option Z;
}.

(** The value written back to [DocNums] by the loop of
    [prepare_batches_for_ppg]. *)
Definition updated_docnums (docnums : docnums_val) : string :=
  match docnums with
  | DocList l => PyStr.join ", " l
  | DocStr s => PyStr.remove_char "]"%char (PyStr.remove_char "["%char s)
  end.

(** [prepare_batches_for_ppg]: the rows named in [batch_names] (all rows
    when it is [None] or empty), with [DocNums] written as one string. *)
Definition prepare_batches_for_ppg (batch_names : option (list string))
    (abs_batches : list batch_raw) : list batch_in :=
  let df_batches :=
    match batch_names with
    | Some (n :: names) =>
        List.filter (fun r => existsb (String.eqb (raw_PPG_BatchName r)) (n :: names))
                    abs_batches
    | _ => abs_batches
    end in
  List.map (fun r => mk_batch_in (raw_PPG_BatchName r) (updated_docnums (raw_DocNums r))
                                 (raw_minDocDueDate r)) df_batches.

(** A sales-order number without brackets. *)
Definition plain_token (x : string) : Prop :=
  so_token x /\ contains_char "["%char x = false /\ contains_char "]"%char x = false.

(** ** Reading the requests of [addOrderToBatch] *)

(** The position, in the loop over the work-order-lines read at the start
    of [addOrderToBatch], at which an update request was sent ([index] of
    [iterrows]); the line id of the request is another field of the
    event. *)
Definition assign_line (ev : event) : option nat :=
  match ev with
  | EvWolAssign _ _ line _ _ _ _ => Some line
  | _ => None
  end.

(** How many update requests were sent at position [i] of the loop. *)
Definition puts_on_line (i : nat) (evs : list event) : nat :=
  length (List.filter (fun ev => bool_decide (assign_line ev = Some i)) evs).

(** ** Accounting for the sales orders of a row *)

(** [d.get(batch_name, [])] *)
Definition entries (d : gmap string (list string)) (batch_name : string) : list string :=
  default [] (d !! batch_name).

(** The status row that the loop writes for a batch. *)
Definition status_row (r : batch_in) (allocated : list string) : shard_row :=
  mk_shard_row r (PyStr.join ", " allocated) (length allocated).

(** Selecting the rows of a batch in a shard, and the other rows. *)
Definition rows_of (batch_name : string) (df : list shard_row) : list shard_row :=
  List.filter (fun r => String.eqb (PPG_BatchName (shard_src r)) batch_name) df.

Definition rows_not_of (batch_name : string) (df : list shard_row) : list shard_row :=
  List.filter (fun r => negb (String.eqb (PPG_BatchName (shard_src r)) batch_name)) df.

(** ** The order of the tail passes *)

(** The entries of a deferred map in the order the tail passes visit them:
    by batch name, then in the order they were queued. *)
Definition retry_plan (d : gmap string (list string)) : list (string * string) :=
  concat ((fun batch => (fun so => (so, batch)) <$> entries d batch) <$> sorted_keys d).

(** The order and the batch of the calls of [addOrderToBatch]. *)
Definition attempted (evs : list event) : list (string * string) :=
  (fun a => (fst (fst a), snd (fst a))) <$> add_attempts evs.

(** The fields that no tail pass writes. *)
Definition tail_frame (sh : shared) :=
  (deferred_map sh, deferred_create_map sh, err_files sh, df_errors_by_thread sh).

(** ** Leaving the executor *)

(** A worker exits only on an empty queue, and the queue never grows. *)
Definition pool_exit_ok (p : pool) : Prop :=
  (exists i, workers p !! i = Some Exited) -> q p = [].

(** ** The count of a status row *)

(** [soCount] is the number of entries of [ordersBatched]. *)
Definition counted (r : shard_row) : Prop := soCount r = length (row_items r).

(** The shards hold counted rows and the deferred maps hold sales-order
    numbers as [_safe_split_docnums] produces them. *)
Definition store_counted (sh : shared) : Prop :=
  (forall tid df, ok_files sh !! tid = Some df -> Forall counted df)
  /\ (forall b, Forall so_token (entries (deferred_map sh) b))
  /\ (forall b, Forall so_token (entries (deferred_create_map sh) b)).

Definition pool_counted (p : pool) : Prop :=
  store_counted (store p)
  /\ (forall i loc, workers p !! i = Some (Busy loc) ->
        Forall so_token (todo loc) /\ Forall so_token (allocated_arr loc)
        /\ Forall counted (df_ok loc)).

(** The accumulator of a tail pass: the store and the success map. *)
Definition tail_counted (acc : shared * list (string * list string)) : Prop :=
  store_counted (fst acc) /\ Forall (fun it => Forall so_token (snd it)) (snd acc).


(** * Properties *)

(** ** Strings: [split], [strip] and [join] *)

Example append_unique_ex1 :
  _append_unique "SO1" ["SO2"; "SO1"; "SO3"; "SO2"] = "SO1, SO2, SO3".
Proof. vm_compute. reflexivity. Qed.

Example append_unique_ex2 : _append_unique "a,b ,, c" [] = "a, b, c".
Proof. vm_compute. reflexivity. Qed.

Example safe_split_ex : _safe_split_docnums "[101, 102,103 ]" = ["101"; "102"; "103"].
Proof. vm_compute. reflexivity. Qed.

Section StringFacts.
Import PyStr.

Lemma app_String a (s1 s2 : string) : String a s1 +:+ s2 = String a (s1 +:+ s2).
Proof. reflexivity. Qed.

Lemma app_empty_l (s : string) : "" +:+ s = s.
Proof. reflexivity. Qed.

Lemma app_empty_r (s : string) : s +:+ "" = s.
Proof. induction s as [|a s IH]; [reflexivity|]. rewrite app_String, IH. reflexivity. Qed.

Lemma split_comma_not_nil s : split_comma s <> [].
Proof.
  destruct s as [|c s]; simpl; [discriminate|].
  destruct (Ascii.eqb c comma); [discriminate|].
  destruct (split_comma s); discriminate.
Qed.

Lemma split_comma_String c s :
  Ascii.eqb c comma = false ->
  split_comma (String c s) = String c (hd "" (split_comma s)) :: tl (split_comma s).
Proof.
  intros Hc. simpl. rewrite Hc.
  destruct (split_comma s) eqn:E; [|reflexivity].
  exfalso. exact (split_comma_not_nil s E).
Qed.

Lemma split_comma_app x s :
  has_comma x = false ->
  split_comma (x +:+ s) = (x +:+ hd "" (split_comma s)) :: tl (split_comma s).
Proof.
  induction x as [|c x IH]; intros Hx.
  - rewrite !app_empty_l. destruct (split_comma s) eqn:E; [|reflexivity].
    exfalso. exact (split_comma_not_nil s E).
  - simpl in Hx. apply orb_false_iff in Hx as [Hc Hx].
    rewrite !app_String, split_comma_String by exact Hc.
    rewrite IH by exact Hx. reflexivity.
Qed.

Lemma split_comma_no_comma s : Forall (fun x => has_comma x = false) (split_comma s).
Proof.
  induction s as [|c s IH]; simpl.
  - constructor; [reflexivity|constructor].
  - destruct (Ascii.eqb c comma) eqn:Hc.
    + constructor; [reflexivity|exact IH].
    + destruct (split_comma s) as [|h t]; [repeat constructor; simpl; by rewrite Hc|].
      inversion IH; subst. constructor; [simpl; by rewrite Hc|assumption].
Qed.

Lemma lstrip_head s :
  lstrip s = "" \/ exists c s', lstrip s = String c s' /\ isspace c = false.
Proof.
  induction s as [|c s IH]; simpl; [by left|].
  destruct (isspace c) eqn:Hc; [exact IH|]. right. eauto.
Qed.

Lemma rstrip_String c s : isspace c = false -> rstrip (String c s) = String c (rstrip s).
Proof. intros Hc. simpl. rewrite Hc. destruct (rstrip s); reflexivity. Qed.

Lemma rstrip_idem s : rstrip (rstrip s) = rstrip s.
Proof.
  induction s as [|c s IH]; [reflexivity|].
  simpl. destruct (rstrip s) as [|d r] eqn:E.
  - destruct (isspace c) eqn:Hc; [reflexivity|]. simpl. by rewrite Hc.
  - change (rstrip (String c (String d r)) = String c (String d r)).
    simpl rstrip at 1. simpl in IH. rewrite IH. reflexivity.
Qed.

Lemma strip_idem s : strip (strip s) = strip s.
Proof.
  unfold strip. destruct (lstrip_head s) as [E|(c & s' & E & Hc)]; rewrite E.
  - reflexivity.
  - rewrite (rstrip_String c s' Hc). simpl lstrip. rewrite Hc.
    rewrite (rstrip_String c _ Hc), rstrip_idem. reflexivity.
Qed.

Lemma strip_space s : strip (String " " s) = strip s.
Proof. reflexivity. Qed.

Lemma has_comma_lstrip s : has_comma s = false -> has_comma (lstrip s) = false.
Proof.
  induction s as [|c s IH]; simpl; [done|]. intros H.
  apply orb_false_iff in H as [Hc Hs].
  destruct (isspace c); [auto|]. simpl. by rewrite Hc, Hs.
Qed.

Lemma has_comma_rstrip s : has_comma s = false -> has_comma (rstrip s) = false.
Proof.
  induction s as [|c s IH]; simpl; [done|]. intros H.
  apply orb_false_iff in H as [Hc Hs]. specialize (IH Hs).
  destruct (rstrip s) as [|d r].
  - destruct (isspace c); [done|]. simpl. by rewrite Hc.
  - simpl. rewrite Hc. exact IH.
Qed.

Lemma has_comma_strip s : has_comma s = false -> has_comma (strip s) = false.
Proof. intros H. unfold strip. by apply has_comma_rstrip, has_comma_lstrip. Qed.

Lemma nonempty_true s : nonempty s = true <-> s <> "".
Proof. destruct s; simpl; split; intros; congruence. Qed.

(** A string that strips to nothing holds no comma and is a single
    segment. *)
Lemma lstrip_empty_split s : lstrip s = "" -> split_comma s = [s].
Proof.
  induction s as [|c s IH]; [reflexivity|]. simpl lstrip.
  destruct (isspace c) eqn:Hc; [|discriminate]. intros H.
  rewrite split_comma_String, (IH H); [reflexivity|].
  destruct (Ascii.eqb_spec c comma) as [->|]; [discriminate Hc|reflexivity].
Qed.

Lemma strip_empty_lstrip s : strip s = "" -> lstrip s = "".
Proof.
  unfold strip. destruct (lstrip_head s) as [E|(c & s' & E & Hc)]; [done|].
  rewrite E, (rstrip_String c s' Hc). discriminate.
Qed.

Lemma lstrip_length s : String.length (lstrip s) <= String.length s.
Proof.
  induction s as [|a u IH]; simpl; [lia|]. destruct (isspace a); simpl; lia.
Qed.

Lemma rstrip_length s : String.length (rstrip s) <= String.length s.
Proof.
  induction s as [|a u IH]; simpl; [lia|].
  destruct (rstrip u); [destruct (isspace a)|]; simpl in *; lia.
Qed.

End StringFacts.

(** ** [csv_items] and [join] are inverse on sales-order numbers *)

Lemma join_cons_cons x y l :
  PyStr.join ", " (x :: y :: l) = x +:+ String "," (String " " (PyStr.join ", " (y :: l))).
Proof. reflexivity. Qed.

Lemma split_join (l : list string) :
  Forall so_token l -> l <> [] ->
  PyStr.split_comma (PyStr.join ", " l) = hd "" l :: List.map (String " ") (tl l).
Proof.
  induction l as [|x [|y l] IH]; intros Ht Hne; [done| |].
  - simpl. inversion Ht as [|? ? (Hc & _) _]; subst.
    rewrite <- (app_empty_r x) at 1. rewrite split_comma_app by exact Hc.
    simpl. by rewrite app_empty_r.
  - inversion Ht as [|? ? (Hc & _) Ht']; subst.
    rewrite join_cons_cons, split_comma_app by exact Hc.
    change (PyStr.split_comma (String "," ?s)) with ("" :: PyStr.split_comma s).
    cbn [hd tl]. rewrite app_empty_r. f_equal.
    rewrite split_comma_String by reflexivity.
    rewrite IH by (assumption || discriminate). reflexivity.
Qed.

Lemma csv_items_join (l : list string) :
  Forall so_token l -> csv_items (PyStr.join ", " l) = l.
Proof.
  intros Ht. destruct l as [|x l]; [reflexivity|].
  unfold csv_items. rewrite split_join by (assumption || discriminate).
  cbn [hd tl List.map List.filter]. inversion Ht as [|? ? (Hc & Hs & Hne) Ht']; subst.
  rewrite Hs. apply nonempty_true in Hne as ->. f_equal.
  clear -Ht'. induction Ht' as [|y l (Hc & Hs & Hne) _ IH]; [reflexivity|].
  cbn [List.map List.filter]. rewrite strip_space, Hs.
  apply nonempty_true in Hne as ->. by rewrite IH.
Qed.

Lemma csv_items_tokens (s : string) : Forall so_token (csv_items s).
Proof.
  unfold csv_items. pose proof (split_comma_no_comma s) as H.
  induction H as [|x l Hx _ IH]; simpl; [constructor|].
  destruct (PyStr.nonempty (PyStr.strip x)) eqn:E; [|exact IH].
  constructor; [|exact IH]. split; [by apply has_comma_strip|].
  split; [apply strip_idem|by apply nonempty_true].
Qed.

Lemma safe_split_docnums_tokens (val : string) : Forall so_token (_safe_split_docnums val).
Proof.
  unfold _safe_split_docnums.
  destruct (PyStr.nonempty _); [apply csv_items_tokens|constructor].
Qed.

Lemma csv_count_items (s : string) : csv_count s = length (csv_items s).
Proof.
  unfold csv_count, csv_items. destruct (PyStr.nonempty (PyStr.strip s)) eqn:E.
  - induction (PyStr.split_comma s) as [|x l IH]; [reflexivity|]. simpl.
    destruct (PyStr.nonempty (PyStr.strip x)); simpl; by rewrite IH.
  - assert (Hs : PyStr.strip s = "") by (destruct (PyStr.strip s); [done|discriminate]).
    rewrite (lstrip_empty_split s (strip_empty_lstrip s Hs)).
    simpl. by rewrite Hs.
Qed.


(** ** Shard reconciliation *)

Lemma append_loop_spec (new_items : list string) :
  forall (existing : list string) (existing_set : gset string),
    existing_set = list_to_set existing ->
    exists fresh,
      append_loop new_items existing existing_set = existing ++ fresh
      /\ NoDup fresh
      /\ (forall x, x ∈ fresh -> x ∈ new_items /\ x ∉ existing)
      /\ (forall x, x ∈ new_items -> x ∈ existing \/ x ∈ fresh).
Proof.
  induction new_items as [|x rest IH]; intros ex S HS; simpl.
  - exists []. rewrite app_nil_r.
    split; [done|]. split; [constructor|]. split; intros y Hy; by apply elem_of_nil in Hy.
  - destruct (decide (x ∈ S)) as [Hin|Hin].
    + destruct (IH ex S HS) as (fr & E & Hnd & Hfr & Hnew).
      exists fr. split; [done|]. split; [done|]. split.
      * intros y Hy. destruct (Hfr y Hy). split; [(apply elem_of_cons; by right)|done].
      * intros y Hy. apply elem_of_cons in Hy as [->|Hy]; [|auto].
        left. subst S. by apply elem_of_list_to_set in Hin.
    + assert (Hx : x ∉ ex) by (subst S; by rewrite elem_of_list_to_set in Hin).
      destruct (IH (ex ++ [x]) ({[x]} ∪ S)) as (fr & E & Hnd & Hfr & Hnew).
      { subst S. rewrite list_to_set_app_L. set_solver. }
      exists (x :: fr). rewrite E, <- app_assoc.
      split; [done|]. split; [|split].
      * constructor; [|done]. intros Hxf. apply Hfr in Hxf as [_ Hxf].
        apply Hxf, elem_of_app. right. by apply list_elem_of_singleton.
      * intros y Hy. apply elem_of_cons in Hy as [->|Hy].
        -- split; [(apply elem_of_cons; by left)|done].
        -- destruct (Hfr y Hy) as [H1 H2]. split; [(apply elem_of_cons; by right)|].
           intros Hy'. apply H2, elem_of_app. by left.
      * intros y Hy. apply elem_of_cons in Hy as [->|Hy].
        -- right. (apply elem_of_cons; by left).
        -- destruct (Hnew y Hy) as [H1|H1].
           ++ apply elem_of_app in H1 as [H1|H1]; [by left|].
              apply list_elem_of_singleton in H1 as ->. right. (apply elem_of_cons; by left).
           ++ right. (apply elem_of_cons; by right).
Qed.

Lemma append_unique_spec (csv : string) (new_items : list string) :
  exists fresh,
    _append_unique csv new_items = PyStr.join ", " (csv_items csv ++ fresh)
    /\ NoDup fresh
    /\ (forall x, x ∈ fresh -> x ∈ new_items /\ x ∉ csv_items csv)
    /\ (forall x, x ∈ new_items -> x ∈ csv_items csv \/ x ∈ fresh).
Proof.
  unfold _append_unique.
  destruct (append_loop_spec new_items (csv_items csv) _ eq_refl) as (fr & -> & H).
  exists fr. by split.
Qed.

Lemma merge_into_row_spec (added_sos : list string) (r : shard_row) :
  Forall so_token added_sos ->
  shard_src (merge_into_row added_sos r) = shard_src r
  /\ canonical (merge_into_row added_sos r)
  /\ (soCount r = length (row_items r) ->
      soCount (merge_into_row added_sos r) = length (row_items (merge_into_row added_sos r)))
  /\ (forall x, x ∈ added_sos -> x ∈ row_items (merge_into_row added_sos r))
  /\ exists fresh,
       row_items (merge_into_row added_sos r) = row_items r ++ fresh
       /\ NoDup fresh
       /\ (forall x, x ∈ fresh -> x ∈ added_sos /\ x ∉ row_items r).
Proof.
  intros Hadd. unfold merge_into_row.
  destruct (append_unique_spec (ordersBatched r) added_sos) as (fr & E & Hnd & Hfr & Hnew).
  assert (Htok : Forall so_token (csv_items (ordersBatched r) ++ fr)).
  { apply Forall_app. split; [apply csv_items_tokens|].
    apply Forall_forall. intros x Hx. apply Hfr in Hx as [Hx _].
    by apply (proj1 (Forall_forall _ _) Hadd). }
  pose proof (csv_items_join _ Htok) as Hitems. rewrite <- E in Hitems.
  destruct (decide (_ = _)) as [Heq|Hne].
  - (* nothing to write: the csv already is the joined list *)
    assert (Hfr0 : fr = []).
    { rewrite Heq in Hitems. apply (app_inv_head (csv_items (ordersBatched r))).
      by rewrite app_nil_r. }
    subst fr. rewrite app_nil_r in *.
    split; [done|]. split; [unfold canonical, row_items; congruence|].
    split; [done|]. split.
    + intros x Hx. destruct (Hnew x Hx) as [H|H]; [done|by apply elem_of_nil in H].
    + exists []. rewrite app_nil_r. split; [done|]. split; [constructor|set_solver].
  - split; [done|]. unfold canonical, row_items. cbn [ordersBatched soCount].
    split; [by rewrite Hitems|]. split; [intros _; by rewrite csv_count_items|]. split.
    + intros x Hx. rewrite Hitems. apply elem_of_app. by apply Hnew.
    + exists fr. by rewrite Hitems.
Qed.

Lemma merge_into_row_fix (added_sos : list string) (r : shard_row) :
  canonical r -> (forall x, x ∈ added_sos -> x ∈ row_items r) ->
  merge_into_row added_sos r = r.
Proof.
  intros Hcan Habs. unfold merge_into_row.
  destruct (append_unique_spec (ordersBatched r) added_sos) as (fr & E & Hnd & Hfr & Hnew).
  assert (fr = []) as ->.
  { destruct fr as [|x fr]; [done|]. exfalso.
    destruct (Hfr x) as [Hx1 Hx2]; [set_solver|]. apply Hx2, Habs, Hx1. }
  rewrite app_nil_r in E. rewrite E. unfold canonical, row_items in Hcan.
  rewrite Hcan. by destruct (decide _).
Qed.

Lemma merge_frame_rows (m : list (string * list string)) (df : list shard_row) :
  merge_frame m df = List.map (merge_row m) df.
Proof.
  unfold merge_frame. destruct df as [|r0 df0]; [reflexivity|].
  cbn [df_empty]. generalize (r0 :: df0). clear. unfold merge_row.
  induction m as [|it m IH]; intros df; simpl.
  - by rewrite map_id.
  - rewrite IH. unfold merge_item. rewrite List.map_map. reflexivity.
Qed.

Lemma merge_row_src (m : list (string * list string)) (r : shard_row) :
  shard_src (merge_row m r) = shard_src r.
Proof.
  unfold merge_row. revert r. induction m as [|it m IH]; intros r; simpl; [done|].
  rewrite IH. destruct (String.eqb _ _); [|done].
  unfold merge_into_row. by destruct (decide _).
Qed.

Lemma merge_row_settled (m : list (string * list string)) (r : shard_row) :
  settled m r -> merge_row m r = r.
Proof.
  unfold merge_row. induction m as [|it m IH]; intros [Hcan Habs]; simpl; [done|].
  destruct (String.eqb_spec (PPG_BatchName (shard_src r)) (fst it)) as [E|E].
  - rewrite merge_into_row_fix; [|done|apply Habs; [set_solver|done]].
    apply IH. split; [done|]. intros it' Hit'. apply Habs. set_solver.
  - apply IH. split; [done|]. intros it' Hit'. apply Habs. set_solver.
Qed.

Lemma merge_row_unselected (m : list (string * list string)) (r : shard_row) :
  (forall it, it ∈ m -> fst it <> PPG_BatchName (shard_src r)) -> merge_row m r = r.
Proof.
  unfold merge_row. induction m as [|it m IH]; intros Hno; simpl; [done|].
  destruct (String.eqb_spec (PPG_BatchName (shard_src r)) (fst it)) as [E|E].
  - exfalso. apply (Hno it); [set_solver|done].
  - apply IH. intros it' Hit'. apply Hno. set_solver.
Qed.

Lemma merge_row_spec (m : list (string * list string)) :
  Forall (fun it => Forall so_token (snd it)) m ->
  forall r,
    (soCount r = length (row_items r) ->
     soCount (merge_row m r) = length (row_items (merge_row m r)))
    /\ (NoDup (row_items r) -> NoDup (row_items (merge_row m r)))
    /\ (exists fresh,
          row_items (merge_row m r) = row_items r ++ fresh
          /\ forall x, x ∈ fresh ->
               (x ∉ row_items r)
               /\ (exists it, it ∈ m /\ fst it = PPG_BatchName (shard_src r) /\ x ∈ snd it))
    /\ (((forall it, it ∈ m -> fst it <> PPG_BatchName (shard_src r)) /\ merge_row m r = r)
        \/ settled m (merge_row m r)).
Proof.
  induction 1 as [|it m Hit _ IH]; intros r.
  - split; [done|]. split; [done|]. split.
    + exists []. rewrite app_nil_r. split; [done|]. intros x Hx. by apply elem_of_nil in Hx.
    + left. split; [|done]. intros it Hit. by apply elem_of_nil in Hit.
  - change (merge_row (it :: m) r)
      with (merge_row m (if String.eqb (PPG_BatchName (shard_src r)) (fst it)
                         then merge_into_row (snd it) r else r)).
    destruct (String.eqb_spec (PPG_BatchName (shard_src r)) (fst it)) as [E|E].
    + destruct (merge_into_row_spec (snd it) r Hit)
        as (Hsrc & Hcan & Hcnt & Habs & fr1 & Hitems1 & Hnd1 & Hfr1).
      set (r1 := merge_into_row (snd it) r) in *.
      destruct (IH r1) as (Hcnt2 & Hnd2 & (fr2 & Hitems2 & Hfr2) & Hset).
      split; [auto|]. split.
      { intros Hnd. apply Hnd2. rewrite Hitems1. apply NoDup_app.
        split; [done|]. split; [|done]. intros x Hx Hx'. by destruct (Hfr1 x Hx'). }
      split.
      { exists (fr1 ++ fr2). rewrite Hitems2, Hitems1, app_assoc. split; [done|].
        intros x Hx. apply elem_of_app in Hx as [Hx|Hx].
        - apply Hfr1 in Hx as [Hx1 Hx2]. split; [done|]. exists it. set_solver.
        - apply Hfr2 in Hx as (Hx1 & it' & Hin & Hname & Hx2).
          split; [rewrite Hitems1 in Hx1; set_solver|].
          exists it'. rewrite Hsrc in Hname. set_solver. }
      right. assert (Hsrc' : shard_src (merge_row m r1) = shard_src r).
      { by rewrite merge_row_src. }
      destruct Hset as [[Hno Heq]|[Hcan2 Habs2]].
      * rewrite Heq. split; [done|]. intros it' Hit' Hname x Hx.
        apply elem_of_cons in Hit' as [->|Hit']; [by apply Habs|].
        exfalso. by apply (Hno it' Hit').
      * split; [done|]. intros it' Hit' Hname x Hx.
        apply elem_of_cons in Hit' as [->|Hit'].
        -- rewrite Hitems2. apply elem_of_app. left. by apply Habs.
        -- by apply (Habs2 it' Hit').
    + destruct (IH r) as (Hcnt2 & Hnd2 & (fr2 & Hitems2 & Hfr2) & Hset).
      split; [done|]. split; [done|]. split.
      { exists fr2. split; [done|]. intros x Hx.
        apply Hfr2 in Hx as (Hx1 & it' & Hin & Hname & Hx2).
        split; [done|]. exists it'. set_solver. }
      destruct Hset as [[Hno Heq]|[Hcan2 Habs2]].
      * left. split; [|done]. intros it' Hit'.
        apply elem_of_cons in Hit' as [->|Hit']; [congruence|by apply Hno].
      * right. split; [done|]. intros it' Hit' Hname x Hx.
        apply elem_of_cons in Hit' as [->|Hit'].
        -- rewrite merge_row_src in Hname. congruence.
        -- by apply (Habs2 it' Hit').
Qed.

Lemma merge_row_idempotent (m : list (string * list string)) (r : shard_row) :
  Forall (fun it => Forall so_token (snd it)) m ->
  merge_row m (merge_row m r) = merge_row m r.
Proof.
  intros Hm. destruct (merge_row_spec m Hm r) as (_ & _ & _ & [[Hno Heq]|Hset]).
  - by rewrite !Heq.
  - by apply merge_row_settled.
Qed.

Lemma merge_frame_idempotent (m : list (string * list string)) (df : list shard_row) :
  Forall (fun it => Forall so_token (snd it)) m ->
  merge_frame m (merge_frame m df) = merge_frame m df.
Proof.
  intros Hm. rewrite !merge_frame_rows, List.map_map.
  apply List.map_ext. intros r. by apply merge_row_idempotent.
Qed.


(** C7 — the count after a merge.  A run of the pool on one row that lists
    SO1 twice and then SO2: both assignments of SO1 succeed in the main
    pass, the first line of SO2 is refused twice there and accepted in the
    deferred-assign tail.  The main pass writes the row with the entries
    SO1, SO1 and [soCount] 2; the merge of the tail's success map appends
    SO2 and sets [soCount] to 3, the number of entries, while the row has
    two unique entries.  The merge on that row alone computes the same. *)
Lemma merge_counts_repeated_entries :
  let R := scripted_remote 0 (Reply 201 None)
             (fun t => if Nat.leb 14 t && Nat.ltb t 22 then Reply 500 None
                       else Reply 200 None) in
  let x := run_specificBatches_optimized R example_bom example_ppg example_frame_repeat 1 [] 0 in
  let b := mk_batch_in "B" "SO1, SO1, SO2" None in
  let files : gmap nat (list shard_row) := {[ 1 := [mk_shard_row b "SO1, SO1" 2] ]} in
  (add_attempts (events_of x)
   = [("SO1", "B", 1); ("SO1", "B", 2); ("SO2", "B", 3); ("SO2", "B", 3)]
   /\ first_line_replies "SO2" (events_of x)
      = [Reply 500 None; Reply 500 None; Reply 200 None]
   /\ combine_parquet_files <$> result_of x = Some [mk_shard_row b "SO1, SO1, SO2" 3])
  /\ _apply_deferred_successes_to_parquets files [("B", ["SO2"])] !! 1
     = Some [mk_shard_row b "SO1, SO1, SO2" 3]
  /\ remove_dups (row_items (mk_shard_row b "SO1, SO1, SO2" 3)) = ["SO1"; "SO2"]
  /\ soCount (mk_shard_row b "SO1, SO1, SO2" 3)
     <> length (remove_dups (row_items (mk_shard_row b "SO1, SO1, SO2" 3))).
Proof. vm_compute. repeat split; try reflexivity. discriminate. Qed.

(** X20 — [_apply_deferred_successes_to_parquets] with a map of deferred
    successes whose sales-order numbers have the form [_safe_split_docnums]
    produces from a string.  Applying the map to the shard files twice gives
    the same files as applying it once.  Every row keeps its batch row and
    its entries in order and gains, at the end, only numbers that were
    absent and that the map lists for the row's batch; every number the map
    lists for the row's batch is among the row's entries afterwards.  A row
    whose [soCount] was its number of entries stays so, and a row whose
    entries were distinct keeps distinct entries, [soCount] then being the
    number of unique entries. *)
Theorem apply_deferred_successes_idempotent
    (deferred_success_map : list (string * list string))
    (files : gmap nat (list shard_row)) :
  Forall (fun it => Forall so_token (snd it)) deferred_success_map ->
  _apply_deferred_successes_to_parquets
    (_apply_deferred_successes_to_parquets files deferred_success_map)
    deferred_success_map
  = _apply_deferred_successes_to_parquets files deferred_success_map
  /\ forall (i : nat) (df : list shard_row) (j : nat) (r : shard_row),
       files !! i = Some df -> df !! j = Some r ->
       exists df' r',
         _apply_deferred_successes_to_parquets files deferred_success_map !! i = Some df'
         /\ df' !! j = Some r'
         /\ shard_src r' = shard_src r
         /\ (exists fresh,
               row_items r' = row_items r ++ fresh
               /\ forall x, x ∈ fresh ->
                    (x ∉ row_items r)
                    /\ (exists it, it ∈ deferred_success_map
                                   /\ fst it = PPG_BatchName (shard_src r)
                                   /\ x ∈ snd it))
         /\ (forall it x, it ∈ deferred_success_map ->
               fst it = PPG_BatchName (shard_src r) -> x ∈ snd it -> x ∈ row_items r')
         /\ (soCount r = length (row_items r) -> soCount r' = length (row_items r'))
         /\ (NoDup (row_items r) -> NoDup (row_items r'))
         /\ (NoDup (row_items r) -> soCount r = length (row_items r) ->
             NoDup (row_items r')
             /\ soCount r' = size (list_to_set (row_items r') : gset string)).
Proof.
  intros Hm. unfold _apply_deferred_successes_to_parquets.
  destruct deferred_success_map as [|it m] eqn:Em; cbn [df_empty].
  - split; [done|]. intros i df j r Hi Hj. exists df, r.
    split; [done|]. split; [done|]. split; [done|]. split; [|split; [|split; [|split]]].
    + exists []. rewrite app_nil_r. split; [done|]. intros x Hx. by apply elem_of_nil in Hx.
    + intros it x Hit. by apply elem_of_nil in Hit.
    + done.
    + done.
    + intros Hnd Hcnt. split; [done|]. by rewrite size_list_to_set.
  - rewrite <- Em in *. clear Em it m. split.
    + rewrite <- map_fmap_compose. apply map_fmap_ext. intros i df _.
      by apply merge_frame_idempotent.
    + intros i df j r Hi Hj. exists (merge_frame deferred_success_map df).
      exists (merge_row deferred_success_map r).
      split; [by rewrite lookup_fmap, Hi|].
      split; [by rewrite merge_frame_rows, list_lookup_fmap, Hj|].
      split; [apply merge_row_src|].
      destruct (merge_row_spec deferred_success_map Hm r) as (Hcnt & Hnd & Hfresh & Hset).
      split; [exact Hfresh|]. split; [|split; [exact Hcnt|split; [exact Hnd|]]].
      * intros it x Hit Hname Hx. destruct Hset as [(Hno & _)|(_ & Hall)].
        -- by destruct (Hno it Hit).
        -- apply (Hall it Hit); [|done]. by rewrite merge_row_src.
      * intros Hnd0 Hcnt0. split; [auto|].
        rewrite size_list_to_set by auto. auto.
Qed.

Lemma apply_deferred_successes_idempotent_witness :
  let m := [("B1", ["SO2"; "SO1"])] in
  let files : gmap nat (list shard_row) :=
    {[ 1 := [mk_shard_row (mk_batch_in "B1" "SO1, SO2" None) "SO1" 1] ]} in
  Forall (fun it => Forall so_token (snd it)) m
  /\ _apply_deferred_successes_to_parquets
       (_apply_deferred_successes_to_parquets files m) m
     = _apply_deferred_successes_to_parquets files m.
Proof.
  intros m files.
  assert (Hm : Forall (fun it => Forall so_token (snd it)) m).
  { repeat constructor; discriminate. }
  split; [exact Hm|].
  exact (proj1 (apply_deferred_successes_idempotent m files Hm)).
Defined.

Example apply_deferred_successes_twice :
  let m := [("B1", ["SO2"; "SO1"])] in
  let df := [mk_shard_row (mk_batch_in "B1" "SO1, SO2" None) "SO1" 1] in
  merge_frame m df = [mk_shard_row (mk_batch_in "B1" "SO1, SO2" None) "SO1, SO2" 2]
  /\ merge_frame m (merge_frame m df) = merge_frame m df.
Proof. vm_compute. split; reflexivity. Qed.


(** ** The stable sort *)

Section StableSortFacts.
Context {A : Type} (leb : A -> A -> bool).

Lemma insert_sorted_Permutation (x : A) (l : list A) :
  Permutation (insert_sorted leb x l) (x :: l).
Proof.
  induction l as [|y l IH]; simpl; [done|].
  destruct (leb x y); [done|]. rewrite IH. apply perm_swap.
Qed.

Lemma stable_sort_Permutation (l : list A) : Permutation (stable_sort leb l) l.
Proof.
  induction l as [|x l IH]; simpl; [done|].
  rewrite insert_sorted_Permutation. by constructor.
Qed.

(** Elements that the order does not separate keep their input order. *)
Lemma insert_sorted_filter (P : A -> bool) (x : A) (l : list A) :
  (forall y, P x = true -> P y = true -> leb x y = true) ->
  List.filter P (insert_sorted leb x l) = List.filter P (x :: l).
Proof.
  intros HP. induction l as [|y l IH]; simpl; [done|].
  destruct (leb x y) eqn:Hxy; [done|]. simpl in *. rewrite IH.
  destruct (P x) eqn:Px; [|done].
  destruct (P y) eqn:Py; [|done].
  rewrite (HP y eq_refl Py) in Hxy. discriminate.
Qed.

Lemma stable_sort_stable (P : A -> bool) (l : list A) :
  (forall x y, P x = true -> P y = true -> leb x y = true) ->
  List.filter P (stable_sort leb l) = List.filter P l.
Proof.
  intros HP. induction l as [|x l IH]; simpl; [done|].
  rewrite insert_sorted_filter by (intros y; apply HP).
  simpl. by rewrite IH.
Qed.

Context (leb_total : forall x y, leb x y = true \/ leb y x = true).
Context (leb_trans : forall x y z, leb x y = true -> leb y z = true -> leb x z = true).

Lemma insert_sorted_sorted (x : A) (l : list A) :
  StronglySorted (fun a b => leb a b = true) l ->
  StronglySorted (fun a b => leb a b = true) (insert_sorted leb x l).
Proof.
  induction 1 as [|y l Hs IH Hy]; simpl; [repeat constructor|].
  destruct (leb x y) eqn:Hxy.
  - constructor; [by constructor|]. constructor; [done|].
    eapply Forall_impl; [exact Hy|]. intros z Hz. by eapply leb_trans.
  - constructor; [done|].
    assert (Hyx : leb y x = true) by (destruct (leb_total x y); congruence).
    apply Forall_forall. intros z Hz.
    rewrite (insert_sorted_Permutation x l) in Hz.
    apply elem_of_cons in Hz as [->|Hz]; [done|]. by apply (proj1 (Forall_forall _ _) Hy).
Qed.

Lemma stable_sort_sorted (l : list A) :
  StronglySorted (fun a b => leb a b = true) (stable_sort leb l).
Proof.
  induction l as [|x l IH]; simpl; [constructor|]. by apply insert_sorted_sorted.
Qed.

End StableSortFacts.

(** ** The order of the queue *)

Lemma string_leb_refl (s : string) : String.leb s s = true.
Proof. apply Is_true_true. exact (reflexivity (R := String.le) s). Qed.

Lemma string_leb_total (s1 s2 : string) : String.leb s1 s2 = true \/ String.leb s2 s1 = true.
Proof. destruct (String.leb_total s1 s2); auto. Qed.

Lemma string_leb_trans (s1 s2 s3 : string) :
  String.leb s1 s2 = true -> String.leb s2 s3 = true -> String.leb s1 s3 = true.
Proof.
  intros H1 H2. apply Is_true_true.
  exact (transitivity (R := String.le) (Is_true_true_2 _ H1) (Is_true_true_2 _ H2)).
Qed.

Lemma due_eqb_eq (a b : option Z) : due_eqb a b = true <-> a = b.
Proof.
  unfold due_eqb. destruct a as [x|], b as [y|]; simpl; split; intros H;
    try discriminate; try done.
  - apply andb_true_iff in H as [H1 H2]. f_equal. lia.
  - inversion H; subst. apply andb_true_iff. split; lia.
Qed.

Lemma name_leb_total (a b : batch_in) : name_leb a b = true \/ name_leb b a = true.
Proof. apply string_leb_total. Qed.

Lemma name_leb_trans (a b c : batch_in) :
  name_leb a b = true -> name_leb b c = true -> name_leb a c = true.
Proof. apply string_leb_trans. Qed.

Lemma due_name_leb_total (a b : batch_in) :
  due_name_leb a b = true \/ due_name_leb b a = true.
Proof.
  unfold due_name_leb, due_eqb.
  destruct (string_leb_total (PPG_BatchName a) (PPG_BatchName b)) as [H|H]; rewrite H;
    destruct (minDocDueDate a) as [x|], (minDocDueDate b) as [y|]; simpl; auto;
    destruct (Z.leb_spec x y), (Z.leb_spec y x); simpl; auto; lia.
Qed.

Lemma due_name_leb_trans (a b c : batch_in) :
  due_name_leb a b = true -> due_name_leb b c = true -> due_name_leb a c = true.
Proof.
  unfold due_name_leb.
  destruct (due_eqb (minDocDueDate a) (minDocDueDate b)) eqn:Eab;
    destruct (due_eqb (minDocDueDate b) (minDocDueDate c)) eqn:Ebc.
  - apply due_eqb_eq in Eab, Ebc. rewrite Eab, Ebc.
    rewrite (proj2 (due_eqb_eq _ _) eq_refl). apply string_leb_trans.
  - apply due_eqb_eq in Eab. rewrite Eab, Ebc. auto.
  - apply due_eqb_eq in Ebc. rewrite <- Ebc, Eab. auto.
  - intros H1 H2. revert Eab Ebc H1 H2. unfold due_eqb.
    destruct (minDocDueDate a) as [x|], (minDocDueDate b) as [y|],
             (minDocDueDate c) as [z|]; simpl; try discriminate; try done;
      repeat match goal with
             | |- context [(?u <=? ?v)%Z] => destruct (Z.leb_spec u v)
             end; simpl; try discriminate; try done; lia.
Qed.

(** C8 — the queue and the pool before any worker runs.  The queue holds
    exactly the rows of the batch table; with a due-date column it is in
    ascending order of due date (missing dates last) and then batch name,
    otherwise in ascending order of batch name; rows with equal keys keep
    their input order; and, for a non-negative configured thread count,
    [min(num_threads, total_batches)] workers are submitted, numbered from 1,
    none of which has taken a row yet. *)
Theorem initial_pool_queue_order (df_batches : batch_frame) (num_threads : Z) :
  (0 <= num_threads)%Z ->
  let p0 := initial_pool df_batches num_threads in
  Permutation (q p0) (batch_rows df_batches)
  /\ (has_minDocDueDate df_batches = true ->
      StronglySorted (fun a b => due_name_leb a b = true) (q p0)
      /\ forall d n,
           List.filter (fun r => due_eqb (minDocDueDate r) d
                                 && String.eqb (PPG_BatchName r) n) (q p0)
           = List.filter (fun r => due_eqb (minDocDueDate r) d
                                   && String.eqb (PPG_BatchName r) n)
                         (batch_rows df_batches))
  /\ (has_minDocDueDate df_batches = false ->
      StronglySorted (fun a b => name_leb a b = true) (q p0)
      /\ forall n,
           List.filter (fun r => String.eqb (PPG_BatchName r) n) (q p0)
           = List.filter (fun r => String.eqb (PPG_BatchName r) n)
                         (batch_rows df_batches))
  /\ Z.of_nat (length (workers p0))
     = Z.min num_threads (Z.of_nat (length (batch_rows df_batches)))
  /\ Forall (fun w => w = Waiting) (workers p0)
  /\ worker_ids num_threads (length (batch_rows df_batches))
     = seq 1 (length (workers p0)).
Proof.
  intros Hn p0. subst p0. unfold initial_pool. cbn [q workers].
  unfold df_batches_sorted. split.
  { destruct (has_minDocDueDate df_batches); apply stable_sort_Permutation. }
  split.
  { intros ->. split.
    - apply stable_sort_sorted; [apply due_name_leb_total|apply due_name_leb_trans].
    - intros d n. apply stable_sort_stable. intros x y Hx Hy.
      apply andb_true_iff in Hx as [Hx1 Hx2]. apply andb_true_iff in Hy as [Hy1 Hy2].
      apply due_eqb_eq in Hx1, Hy1. apply String.eqb_eq in Hx2, Hy2.
      unfold due_name_leb. rewrite Hx1, Hy1, Hx2, Hy2.
      rewrite (proj2 (due_eqb_eq _ _) eq_refl). apply string_leb_refl. }
  split.
  { intros ->. split.
    - apply stable_sort_sorted; [apply name_leb_total|apply name_leb_trans].
    - intros n. apply stable_sort_stable. intros x y Hx Hy.
      apply String.eqb_eq in Hx, Hy. unfold name_leb. rewrite Hx, Hy.
      apply string_leb_refl. }
  rewrite length_map. unfold worker_ids, n_workers. rewrite length_map, length_seq.
  split; [lia|]. split.
  - induction (List.map S _) as [|i l IH]; simpl; by constructor.
  - by rewrite seq_shift.
Qed.

Lemma initial_pool_queue_order_witness :
  let df := mk_batch_frame true
              [mk_batch_in "B2" "SO3" (Some 20%Z);
               mk_batch_in "B9" "SO4" None;
               mk_batch_in "B1" "SO1, SO2" (Some 20%Z);
               mk_batch_in "B3" "SO5" (Some 10%Z)] in
  (0 <= 3)%Z
  /\ List.map PPG_BatchName (q (initial_pool df 3)) = ["B3"; "B1"; "B2"; "B9"]
  /\ Z.of_nat (length (workers (initial_pool df 3))) = Z.min 3 4.
Proof.
  intros df. split; [lia|]. split; [reflexivity|].
  exact (proj1 (proj2 (proj2 (proj2 (initial_pool_queue_order df 3 ltac:(lia)))))).
Defined.


(** ** The effect monad *)

Lemma result_bind {A B} (m : M A) (k : A -> M B) (t : nat) :
  result_of (bind m k t) = result_of (k (result_of (m t)) (clock_of (m t))).
Proof.
  unfold bind, result_of, clock_of. destruct (m t) as [[a e1] t1]. simpl.
  by destruct (k a t1) as [[b e2] t2].
Qed.

Lemma events_bind {A B} (m : M A) (k : A -> M B) (t : nat) :
  events_of (bind m k t)
  = events_of (m t) ++ events_of (k (result_of (m t)) (clock_of (m t))).
Proof.
  unfold bind, result_of, events_of, clock_of. destruct (m t) as [[a e1] t1]. simpl.
  by destruct (k a t1) as [[b e2] t2].
Qed.

Lemma clock_bind {A B} (m : M A) (k : A -> M B) (t : nat) :
  clock_of (bind m k t) = clock_of (k (result_of (m t)) (clock_of (m t))).
Proof.
  unfold bind, result_of, clock_of. destruct (m t) as [[a e1] t1]. simpl.
  by destruct (k a t1) as [[b e2] t2].
Qed.

Ltac msimpl :=
  repeat (rewrite ?result_bind, ?events_bind, ?clock_bind;
          cbn [result_of events_of clock_of ret query exchange log_event window fst snd]).

Ltac msimpl_in H :=
  repeat (rewrite ?result_bind, ?events_bind, ?clock_bind in H;
          cbn [result_of events_of clock_of ret query exchange log_event window fst snd] in H).

(** ** newOrderValidation.py: what each function emits *)

Section ValidationFacts.
Context (R : remote).

Lemma poll_order_visible_events n name t :
  events_of (poll_order_visible R n name t) = [].
Proof.
  revert t. induction n as [|n IH]; intros t; simpl; [done|].
  msimpl. destruct (df_empty _); [apply IH|done].
Qed.

Lemma wait_for_order_visible_events name t :
  events_of (_wait_for_order_visible_in_ppg R name t) = [].
Proof. unfold _wait_for_order_visible_in_ppg. msimpl. apply poll_order_visible_events. Qed.

Lemma wolines_retry_events n order_id df t :
  events_of (wolines_retry R n order_id df t) = [].
Proof.
  revert df t. induction n as [|n IH]; intros df t; simpl; [done|].
  msimpl. destruct (df_empty _); [apply IH|done].
Qed.

Lemma wait_for_wolines_events order_id k t :
  events_of (_wait_for_wolines R order_id k t) = [].
Proof.
  unfold _wait_for_wolines. msimpl.
  destruct (df_empty _); [apply wolines_retry_events|done].
Qed.

Lemma prewait_order_events n name df t :
  events_of (prewait_order R n name df t) = [].
Proof.
  revert df t. induction n as [|n IH]; intros df t; simpl; [done|].
  destruct (df_empty df); [|done]. msimpl. apply IH.
Qed.

Lemma deAllocateOrder_events name t :
  Forall (fun ev => is_cleanup ev = true) (events_of (deAllocateOrder R name t)).
Proof.
  unfold deAllocateOrder. generalize 61. intros n. revert t.
  induction n as [|n IH]; intros t; simpl; [constructor|].
  msimpl. destruct (run_getOpenPPGPickOrders_specific R t name) as [|row df]; [constructor|].
  destruct (negb _); [constructor|]. msimpl. constructor; [done|apply IH].
Qed.

Lemma deleteOrder_events name t :
  Forall (fun ev => is_cleanup ev = true) (events_of (deleteOrder R name t)).
Proof.
  unfold deleteOrder. generalize 61. intros n. revert t.
  induction n as [|n IH]; intros t; simpl; [constructor|].
  msimpl. destruct (run_getOpenPPGPickOrders_specific R t name) as [|row df]; [constructor|].
  msimpl. constructor; [done|apply IH].
Qed.

Lemma createBatch_events name t :
  Forall (fun ev => exists reply, ev = EvBatchCreate name reply)
         (events_of (createBatch R name t)).
Proof.
  unfold createBatch. generalize 61. intros n. revert t.
  induction n as [|n IH]; intros t; simpl; [constructor|].
  msimpl. destruct (negb _); [constructor|]. msimpl.
  constructor; [by eexists|apply IH].
Qed.

(** [createFullSOPickOrder] submits the request once and classifies the
    reply. *)
Lemma createFullSOPickOrder_spec name t :
  events_of (createFullSOPickOrder R name t) = [EvOrderCreate name (post_orders R t name)]
  /\ result_of (createFullSOPickOrder R name t) = create_outcome (post_orders R t name).
Proof.
  unfold createFullSOPickOrder, create_outcome. msimpl.
  destruct (post_orders R t name) as [status body|].
  - destruct (raises_for_status status).
    + destruct (status =? 409)%Z; [done|].
      destruct (status =? 504)%Z; [|by destruct (status =? 500)%Z].
      msimpl. by rewrite wait_for_order_visible_events.
    + destruct body as [[]|]; msimpl; by rewrite ?wait_for_order_visible_events.
  - msimpl. by rewrite wait_for_order_visible_events.
Qed.

(** [createOrder]: either nothing is submitted (the order is already
    visible, or its BOM has no PPG row), or one request is. *)
Lemma createOrder_spec name bom t :
  let x := createOrder R name bom t in
  let visible := negb (df_empty (run_getOpenPPGPickOrders_specific R t name)) in
  let no_lines :=
    df_empty (List.filter (fun r => String.eqb (U_PLS_PPG_ITEM r) "Y") bom) in
  (visible = true /\ events_of x = [] /\ result_of x = PyBool true)
  \/ (visible = false /\ no_lines = true /\ events_of x = [] /\ result_of x = PyBool false)
  \/ (visible = false /\ no_lines = false
      /\ events_of x = [EvOrderCreate name (post_orders R (S t) name)]
      /\ result_of x = create_outcome (post_orders R (S t) name)).
Proof.
  unfold createOrder. msimpl.
  destruct (negb (df_empty _)); [by left|]. right.
  destruct (df_empty (List.filter _ bom)); [by left|]. right.
  msimpl. destruct (createFullSOPickOrder_spec name (S t)) as [-> ->].
  by rewrite app_nil_r.
Qed.

End ValidationFacts.


(** ** [addOrderToBatch] *)

Lemma omap_all_None {A B} (f : A -> option B) (l : list A) :
  Forall (fun x => f x = None) l -> omap f l = [].
Proof. induction 1 as [|x l Hx _ IH]; simpl; [done|]. by rewrite Hx. Qed.

Lemma filter_all_false {A} (f : A -> bool) (l : list A) :
  Forall (fun x => f x = false) l -> List.filter f l = [].
Proof. induction 1 as [|x l Hx _ IH]; simpl; [done|]. by rewrite Hx. Qed.

Section AssignFacts.
Context (R : remote).

(** The attempts on one line: refused ones, then at most one accepted
    one, which ends the loop; never more than the budget. *)
Lemma update_line_shape budget retry_count order batch index order_id wol_id batch_id rank t :
  let x := update_line R budget retry_count order batch index order_id wol_id batch_id rank t in
  exists refused,
    Forall (refused_assign order batch index rank) refused
    /\ ((result_of x = false /\ events_of x = refused /\ length refused <= budget)
        \/ (result_of x = true /\ length refused < budget
            /\ exists ev, accepted_assign order batch index rank ev
                          /\ events_of x = refused ++ [ev])).
Proof.
  revert retry_count wol_id t.
  induction budget as [|budget IH]; intros retry_count wol_id t; simpl.
  - exists []. split; [constructor|]. left. simpl. auto.
  - msimpl. destruct (is_200 (put_work_order_lines R t wol_id batch_id rank)) eqn:Hok.
    + exists []. split; [constructor|]. right. msimpl.
      split; [done|]. split; [simpl; lia|]. eexists. split; [|done].
      by exists wol_id, batch_id, (put_work_order_lines R t wol_id batch_id rank).
    + msimpl.
      set (refetch := if Nat.eqb index 0 && Nat.eqb retry_count 0 then _ else _).
      assert (Hre : events_of (refetch (S t)) = []).
      { subst refetch. destruct (_ && _); by msimpl. }
      rewrite Hre. cbn [app].
      match goal with
      | |- context [update_line R budget (S retry_count) order batch index order_id ?w batch_id rank ?t'] =>
          destruct (IH (S retry_count) w t') as (refused & Href & Hcase)
      end.
      eexists (_ :: refused). split.
      { constructor; [|exact Href].
        by exists wol_id, batch_id, (put_work_order_lines R t wol_id batch_id rank). }
      destruct Hcase as [(Hr & He & Hl)|(Hr & Hl & ev & Hev & He)].
      * left. rewrite Hr, He. simpl. split; [done|]. split; [done|lia].
      * right. rewrite Hr, He. simpl. split; [done|]. split; [lia|]. by exists ev.
Qed.

Lemma refused_assign_committed order batch index rank b ev :
  refused_assign order batch index rank ev -> committed_rank b ev = None.
Proof.
  intros (w & bid & reply & -> & Hno). simpl. destruct index; [|done].
  rewrite Hno. by rewrite andb_false_r.
Qed.

Lemma later_assign_committed order batch index rank b ev :
  index <> 0 ->
  (exists wol_id batch_id reply,
     ev = EvWolAssign order batch index wol_id batch_id rank reply) ->
  committed_rank b ev = None /\ first_line_reply order ev = None
  /\ add_attempt ev = None /\ is_assign_event ev = true.
Proof. intros Hi (w & bid & reply & ->). simpl. by destruct index. Qed.

Lemma update_line_events budget retry_count order batch index order_id wol_id batch_id rank t :
  Forall (fun ev => exists w bid reply, ev = EvWolAssign order batch index w bid rank reply)
         (events_of (update_line R budget retry_count order batch index order_id
                                 wol_id batch_id rank t)).
Proof.
  destruct (update_line_shape budget retry_count order batch index order_id
                              wol_id batch_id rank t) as (refused & Href & Hcase).
  assert (Hall : Forall (fun ev => exists w bid reply,
                           ev = EvWolAssign order batch index w bid rank reply) refused).
  { eapply Forall_impl; [exact Href|]. intros ev (w & bid & reply & -> & _). eauto. }
  destruct Hcase as [(_ & -> & _)|(_ & _ & ev & (w & bid & reply & -> & _) & ->)]; [done|].
  apply Forall_app. split; [done|]. constructor; [eauto|constructor].
Qed.

(** Lines after the first: every one is tried, none decides the result. *)
Lemma assign_lines_later index rows order batch order_id batch_id rank t :
  index <> 0 ->
  let x := assign_lines R index rows order batch order_id batch_id rank t in
  result_of x = true
  /\ Forall (fun ev => committed_rank batch ev = None /\ first_line_reply order ev = None
                       /\ add_attempt ev = None /\ is_assign_event ev = true)
            (events_of x)
  /\ forall b, committed_ranks b (events_of x) = [].
Proof.
  revert index t. induction rows as [|row rows IH]; intros index t Hi; cbn [assign_lines].
  - split; [done|]. split; [constructor|done].
  - msimpl. destruct index as [|index]; [done|]. cbn [Nat.eqb andb].
    destruct (IH (S (S index)) (clock_of (update_line R 2 0 order batch (S index) order_id
                                            (WorkorderlineId row) batch_id rank t)))
      as (Hr & Hev & Hc); [done|].
    split; [done|].
    assert (Hfirst : Forall (fun ev => forall b, committed_rank b ev = None
                               /\ first_line_reply order ev = None
                               /\ add_attempt ev = None /\ is_assign_event ev = true)
              (events_of (update_line R 2 0 order batch (S index) order_id
                            (WorkorderlineId row) batch_id rank t))).
    { eapply Forall_impl; [apply update_line_events|].
      intros ev Hev' b. by apply (later_assign_committed order batch (S index) rank). }
    split.
    + apply Forall_app. split; [|done].
      eapply Forall_impl; [exact Hfirst|]. intros ev H. apply H.
    + intros b. unfold committed_ranks. rewrite omap_app.
      rewrite (omap_all_None (committed_rank b)).
      * apply Hc.
      * eapply Forall_impl; [exact Hfirst|]. intros ev H. apply H.
Qed.

(** The loop over a non-empty frame of lines: the first line decides. *)
Lemma assign_lines_first row rows order batch order_id batch_id rank t :
  let x := assign_lines R 0 (row :: rows) order batch order_id batch_id rank t in
  Forall (fun ev => add_attempt ev = None /\ is_assign_event ev = true) (events_of x)
  /\ (forall b, committed_ranks b (events_of x)
                = if result_of x && String.eqb batch b then [rank] else [])
  /\ (Forall (fun reply => is_200 reply = false) (first_line_replies order (events_of x)) ->
      result_of x = false)
  /\ (result_of x = false ->
      Forall (refused_assign order batch 0 rank) (events_of x)
      /\ length (events_of x) <= 2).
Proof.
  cbn [assign_lines]. msimpl.
  destruct (update_line_shape 2 0 order batch 0 order_id (WorkorderlineId row)
                              batch_id rank t) as (refused & Href & Hcase).
  assert (Hrefc : forall b, omap (committed_rank b) refused = []).
  { intros b. apply omap_all_None. eapply Forall_impl; [exact Href|].
    intros ev. apply refused_assign_committed. }
  assert (Hrefk : Forall (fun ev => add_attempt ev = None /\ is_assign_event ev = true) refused).
  { eapply Forall_impl; [exact Href|]. by intros ev (w & bid & reply & -> & _). }
  destruct Hcase as [(Hr & He & Hl)|(Hr & Hl & ev & Hev & He)]; rewrite Hr, He;
    cbn [Nat.eqb andb negb].
  - msimpl. rewrite app_nil_r. split; [done|]. split; [|split; [done|]].
    + intros b. unfold committed_ranks. by rewrite Hrefc.
    + intros _. split; [done|]. lia.
  - match goal with
    | |- context [assign_lines R 1 rows order batch order_id batch_id rank ?t'] =>
        destruct (assign_lines_later 1 rows order batch order_id batch_id rank t')
          as (Hr2 & Hev2 & Hc2); [done|]
    end.
    rewrite Hr2. destruct Hev as (w & bid & reply & -> & Hok).
    split; [|split; [|split]].
    + apply Forall_app. split; [apply Forall_app; split; [done|by repeat constructor]|].
      eapply Forall_impl; [exact Hev2|]. by intros ev (_ & _ & ? & ?).
    + intros b. unfold committed_ranks in *. rewrite !omap_app, Hrefc, Hc2.
      simpl. rewrite Hok. rewrite andb_true_r. by destruct (String.eqb batch b).
    + unfold first_line_replies. rewrite !omap_app. intros Hall.
      apply Forall_app in Hall as [Hall _]. apply Forall_app in Hall as [_ Hall].
      simpl in Hall. rewrite String.eqb_refl in Hall.
      inversion Hall; subst. congruence.
    + discriminate.
Qed.

(** [addOrderToBatch]: one call event, then only batch and line events;
    a rank is committed exactly when the call succeeds, and it is the rank
    passed; without a 200 on the first line the call fails. *)
Lemma addOrderToBatch_spec order batch rank t :
  let x := addOrderToBatch R order batch rank t in
  exists evs,
    events_of x = EvAddOrderToBatch order batch rank :: evs
    /\ Forall (fun ev => add_attempt ev = None /\ is_assign_event ev = true) evs
    /\ (forall b, committed_ranks b evs
                  = if result_of x && String.eqb batch b then [rank] else [])
    /\ (Forall (fun reply => is_200 reply = false) (first_line_replies order evs) ->
        result_of x = false).
Proof.
  unfold addOrderToBatch. msimpl. eexists. split; [reflexivity|].
  set (t1 := S t).
  set (pre := if df_empty (run_getOpenPPGPickOrders_specific R t order) then _ else _).
  assert (Hpre : events_of (pre t1) = []).
  { subst pre. destruct (df_empty _); [|done]. msimpl. apply prewait_order_events. }
  rewrite Hpre. cbn [app].
  destruct (result_of (pre t1)) as [|o orders]; [by msimpl|].
  msimpl. rewrite wait_for_wolines_events. cbn [app].
  destruct (result_of (_wait_for_wolines R _ _ _)) as [|row rows] eqn:Hrows; [by msimpl|].
  cbn [df_empty]. msimpl.
  assert (Hb : Forall (fun ev => add_attempt ev = None /\ is_assign_event ev = true
                                 /\ (forall b, committed_rank b ev = None)
                                 /\ first_line_reply order ev = None)
                      (events_of (createBatch R batch
                         (clock_of (_wait_for_wolines R (MasterorderId o)
                                      (WOL_POLL_ATTEMPTS R) (clock_of (pre t1))))))).
  { eapply Forall_impl; [apply createBatch_events|]. by intros ev (reply & ->). }
  assert (Hbk : Forall (fun ev => add_attempt ev = None /\ is_assign_event ev = true)
                  (events_of (createBatch R batch
                         (clock_of (_wait_for_wolines R (MasterorderId o)
                                      (WOL_POLL_ATTEMPTS R) (clock_of (pre t1))))))).
  { eapply Forall_impl; [exact Hb|]. by intros ev (? & ? & _). }
  assert (Hbc : forall b, committed_ranks b (events_of (createBatch R batch
                         (clock_of (_wait_for_wolines R (MasterorderId o)
                                      (WOL_POLL_ATTEMPTS R) (clock_of (pre t1)))))) = []).
  { intros b. apply omap_all_None. eapply Forall_impl; [exact Hb|].
    intros ev (_ & _ & H & _). apply H. }
  assert (Hbf : first_line_replies order (events_of (createBatch R batch
                         (clock_of (_wait_for_wolines R (MasterorderId o)
                                      (WOL_POLL_ATTEMPTS R) (clock_of (pre t1)))))) = []).
  { apply omap_all_None. eapply Forall_impl; [exact Hb|]. by intros ev (_ & _ & _ & H). }
  destruct (negb (result_of (createBatch R batch _))).
  { msimpl. rewrite app_nil_r. split; [done|]. split; [|done].
    intros b. by rewrite Hbc. }
  msimpl. cbn [app].
  destruct (run_getOpenPPGBatches_specific R _ batch) as [|wo wos].
  { msimpl. rewrite app_nil_r. split; [done|]. split; [|done].
    intros b. by rewrite Hbc. }
  match goal with
  | |- context [assign_lines R 0 (row :: rows) order batch ?oid ?bid rank ?t'] =>
      destruct (assign_lines_first row rows order batch oid bid rank t')
        as (Hk & Hc & Hf & _)
  end.
  split; [by apply Forall_app|]. split.
  - intros b. unfold committed_ranks in *. rewrite omap_app, Hbc. apply Hc.
  - unfold first_line_replies in *. rewrite omap_app, Hbf. apply Hf.
Qed.

End AssignFacts.


(** ** One iteration of the loop over a batch's orders *)

Section StepFacts.
Context (R : remote).
Context (df_sapBOM_preloaded : list bom_row).
Context (df_ppgPickOrders : list order_row).

Lemma cleanup_if_present_events soNum t :
  Forall (fun ev => is_cleanup ev = true)
         (events_of (cleanup_if_present R df_ppgPickOrders soNum t)).
Proof.
  unfold cleanup_if_present. destruct (negb _); [|constructor].
  msimpl. rewrite app_nil_r. apply Forall_app.
  split; [apply deAllocateOrder_events|apply deleteOrder_events].
Qed.

Lemma createOrder_facts soNum bom t :
  create_facts soNum (events_of (createOrder R soNum bom t))
               (result_of (createOrder R soNum bom t)).
Proof.
  destruct (createOrder_spec R soNum bom t)
    as [(_ & -> & ->)|[(_ & _ & -> & ->)|(_ & _ & -> & ->)]].
  - left. auto.
  - left. auto.
  - right. eauto.
Qed.

Lemma addOrderToBatch_facts soNum batch rank t :
  exists aev,
    events_of (addOrderToBatch R soNum batch rank t)
    = EvAddOrderToBatch soNum batch rank :: aev
    /\ add_facts soNum batch rank (result_of (addOrderToBatch R soNum batch rank t)) aev.
Proof.
  destruct (addOrderToBatch_spec R soNum batch rank t) as (aev & He & Hk & Hc & Hf).
  exists aev. split; [done|]. by split.
Qed.

(** Every run of the [try] block follows one of the ways of
    [order_path]. *)
Lemma try_order_path soNum sh loc t :
  order_path df_sapBOM_preloaded df_ppgPickOrders soNum sh loc
    (events_of (try_order R df_sapBOM_preloaded df_ppgPickOrders soNum sh loc t))
    (result_of (try_order R df_sapBOM_preloaded df_ppgPickOrders soNum sh loc t)).
Proof.
  unfold try_order.
  destruct df_sapBOM_preloaded as [|b0 bom] eqn:Ebom; [by constructor|].
  destruct df_ppgPickOrders as [|p0 ppg] eqn:Eppg; [by constructor|].
  rewrite <- Ebom, <- Eppg. msimpl.
  pose proof (cleanup_if_present_events soNum t) as Hcl.
  set (t1 := clock_of (cleanup_if_present R df_ppgPickOrders soNum t)).
  set (bom_so := List.filter _ df_sapBOM_preloaded).
  pose proof (createOrder_facts soNum bom_so t1) as Hcr.
  destruct (is_defer_create (result_of (createOrder R soNum bom_so t1))) eqn:Hdefer.
  - msimpl. rewrite app_nil_r.
    destruct Hcr as [(_ & [Hv|Hv])|(reply & He & Hv)].
    + rewrite Hv in Hdefer. discriminate.
    + rewrite Hv in Hdefer. discriminate.
    + rewrite He. rewrite Hv in Hdefer. by constructor.
  - destruct (truthy (result_of (createOrder R soNum bom_so t1))) eqn:Htruthy.
    + msimpl.
      destruct (addOrderToBatch_facts soNum (batch_name loc) (current_rank loc)
                  (clock_of (createOrder R soNum bom_so t1))) as (aev & He & Hadd).
      rewrite He.
      destruct (result_of (addOrderToBatch R soNum (batch_name loc) (current_rank loc) _))
        eqn:Hsucc; msimpl; rewrite app_nil_r.
      * rewrite lookup_insert_eq. cbn [default]. by econstructor.
      * by econstructor.
    + msimpl. rewrite app_nil_r. by econstructor.
Qed.

End StepFacts.


(** ** Reading events of a given kind *)

Lemma cleanup_projections (evs : list event) :
  Forall (fun ev => is_cleanup ev = true) evs ->
  List.filter is_create evs = []
  /\ (forall so, create_submissions so evs = 0)
  /\ add_attempts evs = []
  /\ (forall b, committed_ranks b evs = [])
  /\ (forall so, first_line_replies so evs = []).
Proof.
  intros H. unfold create_submissions, add_attempts, committed_ranks, first_line_replies.
  induction H as [|ev evs Hev _ (IH1 & IH2 & IH3 & IH4 & IH5)]; [done|].
  destruct ev; try discriminate; simpl; auto.
Qed.

Lemma assign_projections (evs : list event) :
  Forall (fun ev => add_attempt ev = None /\ is_assign_event ev = true) evs ->
  List.filter is_create evs = []
  /\ (forall so, create_submissions so evs = 0)
  /\ add_attempts evs = [].
Proof.
  intros H. unfold create_submissions, add_attempts.
  induction H as [|ev evs [Hev1 Hev2] _ (IH1 & IH2 & IH3)]; [done|].
  destruct ev; try discriminate; simpl; auto.
Qed.

Lemma create_facts_projections (soNum : string) (kev : list event) (created : pyval) :
  create_facts soNum kev created ->
  add_attempts kev = []
  /\ (forall b, committed_ranks b kev = [])
  /\ (forall so, first_line_replies so kev = [])
  /\ create_submissions soNum kev <= 1
  /\ (forall so, so <> soNum -> create_submissions so kev = 0)
  /\ Forall (fun ev => is_create ev = true) kev.
Proof.
  intros [(-> & _)|(reply & -> & _)].
  - unfold create_submissions. simpl.
    split; [done|]. split; [done|]. split; [done|]. split; [lia|]. split; [done|constructor].
  - unfold create_submissions. simpl. rewrite String.eqb_refl. simpl.
    split; [done|]. split; [done|]. split; [done|]. split; [lia|]. split.
    + intros so Hso. apply String.eqb_neq in Hso. rewrite String.eqb_sym in Hso.
      by rewrite Hso.
    + by repeat constructor.
Qed.

Lemma create_submissions_app (so : string) (l1 l2 : list event) :
  create_submissions so (l1 ++ l2) = create_submissions so l1 + create_submissions so l2.
Proof. unfold create_submissions. by rewrite List.filter_app, length_app. Qed.

Lemma committed_ranks_app (b : string) (l1 l2 : list event) :
  committed_ranks b (l1 ++ l2) = committed_ranks b l1 ++ committed_ranks b l2.
Proof. apply omap_app. Qed.

Lemma add_attempts_app (l1 l2 : list event) :
  add_attempts (l1 ++ l2) = add_attempts l1 ++ add_attempts l2.
Proof. apply omap_app. Qed.

Lemma add_attempts_call (order batch : string) (rank : nat) (l : list event) :
  add_attempts (EvAddOrderToBatch order batch rank :: l)
  = (order, batch, rank) :: add_attempts l.
Proof. reflexivity. Qed.

Lemma first_line_replies_app (so : string) (l1 l2 : list event) :
  first_line_replies so (l1 ++ l2) = first_line_replies so l1 ++ first_line_replies so l2.
Proof. apply omap_app. Qed.

(** What one iteration emits, by the way it took. *)
Lemma order_path_projections bom ppg soNum sh loc evs r :
  order_path bom ppg soNum sh loc evs r ->
  (forall so, so <> soNum -> create_submissions so evs = 0)
  /\ create_submissions soNum evs <= 1
  /\ (add_attempts evs = []
      \/ add_attempts evs = [(soNum, batch_name loc, current_rank loc)]).
Proof.
  destruct 1 as [| |cleanup reply Hcl Hdef
                 |cleanup kev created aev Hcl Hcr Hdef Htr (Hk & Hc & Hf)
                 |cleanup kev created aev Hcl Hcr Hdef Htr (Hk & Hc & Hf)
                 |cleanup kev created Hcl Hcr Hdef Htr].
  - auto.
  - auto.
  - destruct (cleanup_projections _ Hcl) as (_ & Hc0 & Ha0 & _).
    split; [|split].
    + intros so Hso. rewrite create_submissions_app, Hc0. unfold create_submissions. simpl.
      apply String.eqb_neq in Hso. rewrite String.eqb_sym in Hso. by rewrite Hso.
    + rewrite create_submissions_app, Hc0. unfold create_submissions. simpl.
      destruct (String.eqb _ _); simpl; lia.
    + left. by rewrite add_attempts_app, Ha0.
  - destruct (cleanup_projections _ Hcl) as (_ & Hc0 & Ha0 & _).
    destruct (create_facts_projections _ _ _ Hcr) as (Ha1 & _ & _ & Hle & Hne & _).
    destruct (assign_projections _ Hk) as (_ & Hc2 & Ha2).
    split; [|split].
    + intros so Hso. rewrite !create_submissions_app, Hc0, (Hne so Hso).
      change (EvAddOrderToBatch ?a ?b ?c :: aev) with ([EvAddOrderToBatch a b c] ++ aev).
      by rewrite create_submissions_app, Hc2.
    + rewrite !create_submissions_app, Hc0.
      change (EvAddOrderToBatch ?a ?b ?c :: aev) with ([EvAddOrderToBatch a b c] ++ aev).
      rewrite create_submissions_app, Hc2. unfold create_submissions at 2. simpl. lia.
    + right. by rewrite !add_attempts_app, Ha0, Ha1, add_attempts_call, Ha2.
  - destruct (cleanup_projections _ Hcl) as (_ & Hc0 & Ha0 & _).
    destruct (create_facts_projections _ _ _ Hcr) as (Ha1 & _ & _ & Hle & Hne & _).
    destruct (assign_projections _ Hk) as (_ & Hc2 & Ha2).
    split; [|split].
    + intros so Hso. rewrite !create_submissions_app, Hc0, (Hne so Hso).
      change (EvAddOrderToBatch ?a ?b ?c :: aev) with ([EvAddOrderToBatch a b c] ++ aev).
      by rewrite create_submissions_app, Hc2.
    + rewrite !create_submissions_app, Hc0.
      change (EvAddOrderToBatch ?a ?b ?c :: aev) with ([EvAddOrderToBatch a b c] ++ aev).
      rewrite create_submissions_app, Hc2. unfold create_submissions at 2. simpl. lia.
    + right. by rewrite !add_attempts_app, Ha0, Ha1, add_attempts_call, Ha2.
  - destruct (cleanup_projections _ Hcl) as (_ & Hc0 & Ha0 & _).
    destruct (create_facts_projections _ _ _ Hcr) as (Ha1 & _ & _ & Hle & Hne & _).
    split; [|split].
    + intros so Hso. by rewrite !create_submissions_app, Hc0, (Hne so Hso).
    + rewrite !create_submissions_app, Hc0. lia.
    + left. by rewrite add_attempts_app, Ha0, Ha1.
Qed.

Lemma row_step_events R bom ppg thread_id soNum rest sh loc t :
  events_of (row_step R bom ppg thread_id soNum rest sh loc t)
  = events_of (try_order R bom ppg soNum sh loc t).
Proof. unfold row_step. msimpl. by rewrite app_nil_r. Qed.

Lemma row_step_result R bom ppg thread_id soNum rest sh loc t :
  result_of (row_step R bom ppg thread_id soNum rest sh loc t)
  = persist_progress thread_id rest
      (except_clause soNum sh loc (result_of (try_order R bom ppg soNum sh loc t))).
Proof. unfold row_step. by msimpl. Qed.

Lemma upsert_row_batch (df : list shard_row) (row_out : shard_row) :
  List.filter (fun r => String.eqb (PPG_BatchName (shard_src r))
                                   (PPG_BatchName (shard_src row_out)))
              (upsert_row df row_out)
  = [row_out].
Proof.
  unfold upsert_row. destruct df as [|r0 df0]; cbn [df_empty].
  - simpl. by rewrite String.eqb_refl.
  - rewrite List.filter_app.
    rewrite (filter_all_false _ (List.filter _ (r0 :: df0))).
    + simpl. by rewrite String.eqb_refl.
    + apply Forall_forall. intros r Hr.
      apply list_elem_of_In, List.filter_In in Hr as [_ Hr].
      by destruct (String.eqb _ _).
Qed.


(** ** From what was observed to the way taken *)

Lemma create_not_in_cleanup (evs : list event) name reply :
  Forall (fun ev => is_cleanup ev = true) evs -> EvOrderCreate name reply ∉ evs.
Proof.
  intros H Hin. apply (proj1 (Forall_forall _ _) H) in Hin. discriminate.
Qed.

Lemma create_not_in_assign (evs : list event) name reply :
  Forall (fun ev => add_attempt ev = None /\ is_assign_event ev = true) evs ->
  EvOrderCreate name reply ∉ evs.
Proof.
  intros H Hin. apply (proj1 (Forall_forall _ _) H) in Hin as [_ Hin]. discriminate.
Qed.

Lemma create_in_facts soNum kev created name reply :
  create_facts soNum kev created -> EvOrderCreate name reply ∈ kev ->
  name = soNum /\ kev = [EvOrderCreate soNum reply] /\ created = create_outcome reply.
Proof.
  intros [(-> & _)|(reply' & -> & ->)] Hin.
  - by apply elem_of_nil in Hin.
  - apply list_elem_of_singleton in Hin. by inversion Hin.
Qed.

(** The create request seen among the events of one iteration is the one of
    this sales order, and its reply decides the way taken. *)
Lemma order_path_create_inv bom ppg soNum sh loc evs r name reply :
  order_path bom ppg soNum sh loc evs r ->
  EvOrderCreate name reply ∈ evs ->
  name = soNum
  /\ create_submissions soNum evs = 1
  /\ ((is_defer_create (create_outcome reply) = true
       /\ add_attempts evs = [] /\ (forall b, committed_ranks b evs = [])
       /\ r = inr (set_deferred_create_map sh
                     (setdefault_append (deferred_create_map sh) (batch_name loc) soNum),
                   loc))
      \/ (is_defer_create (create_outcome reply) = false
          /\ truthy (create_outcome reply) = true
          /\ add_attempts evs = [(soNum, batch_name loc, current_rank loc)])
      \/ (is_defer_create (create_outcome reply) = false
          /\ truthy (create_outcome reply) = false
          /\ add_attempts evs = [] /\ (forall b, committed_ranks b evs = [])
          /\ r = inr (sh, mk_local (row loc) (todo loc) (current_rank loc)
                                   (allocated_arr loc) (df_ok loc)
                                   (df_errors loc
                                    ++ [mk_error_row (row loc) soNum "create_failed"])))).
Proof.
  intros Hpath Hin.
  destruct Hpath as [| |cleanup reply' Hcl Hdef
                     |cleanup kev created aev Hcl Hcr Hdef Htr (Hk & Hc & Hf)
                     |cleanup kev created aev Hcl Hcr Hdef Htr (Hk & Hc & Hf)
                     |cleanup kev created Hcl Hcr Hdef Htr].
  - by apply elem_of_nil in Hin.
  - by apply elem_of_nil in Hin.
  - destruct (cleanup_projections _ Hcl) as (_ & Hc0 & Ha0 & Hr0 & _).
    apply elem_of_app in Hin as [Hin|Hin]; [by apply create_not_in_cleanup in Hin|].
    apply list_elem_of_singleton in Hin. inversion Hin; subst name reply'.
    split; [done|]. split.
    { rewrite create_submissions_app, Hc0. unfold create_submissions. simpl.
      by rewrite String.eqb_refl. }
    left. split; [done|]. split; [by rewrite add_attempts_app, Ha0|]. split; [|done].
    intros b. by rewrite committed_ranks_app, Hr0.
  - destruct (cleanup_projections _ Hcl) as (_ & Hc0 & Ha0 & Hr0 & _).
    destruct (assign_projections _ Hk) as (_ & Hc2 & Ha2).
    apply elem_of_app in Hin as [Hin|Hin]; [by apply create_not_in_cleanup in Hin|].
    apply elem_of_app in Hin as [Hin|Hin].
    2:{ apply elem_of_cons in Hin as [Hin|Hin]; [discriminate|].
        by apply create_not_in_assign in Hin. }
    destruct (create_in_facts _ _ _ _ _ Hcr Hin) as (-> & -> & ->).
    split; [done|]. split.
    { rewrite !create_submissions_app, Hc0.
      change (EvAddOrderToBatch ?a ?b ?c :: aev) with ([EvAddOrderToBatch a b c] ++ aev).
      rewrite create_submissions_app, Hc2. unfold create_submissions. simpl.
      by rewrite String.eqb_refl. }
    right. left. split; [done|]. split; [done|].
    by rewrite !add_attempts_app, Ha0, add_attempts_call, Ha2.
  - destruct (cleanup_projections _ Hcl) as (_ & Hc0 & Ha0 & Hr0 & _).
    destruct (assign_projections _ Hk) as (_ & Hc2 & Ha2).
    apply elem_of_app in Hin as [Hin|Hin]; [by apply create_not_in_cleanup in Hin|].
    apply elem_of_app in Hin as [Hin|Hin].
    2:{ apply elem_of_cons in Hin as [Hin|Hin]; [discriminate|].
        by apply create_not_in_assign in Hin. }
    destruct (create_in_facts _ _ _ _ _ Hcr Hin) as (-> & -> & ->).
    split; [done|]. split.
    { rewrite !create_submissions_app, Hc0.
      change (EvAddOrderToBatch ?a ?b ?c :: aev) with ([EvAddOrderToBatch a b c] ++ aev).
      rewrite create_submissions_app, Hc2. unfold create_submissions. simpl.
      by rewrite String.eqb_refl. }
    right. left. split; [done|]. split; [done|].
    by rewrite !add_attempts_app, Ha0, add_attempts_call, Ha2.
  - destruct (cleanup_projections _ Hcl) as (_ & Hc0 & Ha0 & Hr0 & _).
    apply elem_of_app in Hin as [Hin|Hin]; [by apply create_not_in_cleanup in Hin|].
    destruct (create_in_facts _ _ _ _ _ Hcr Hin) as (-> & -> & ->).
    split; [done|]. split.
    { rewrite !create_submissions_app, Hc0. unfold create_submissions. simpl.
      by rewrite String.eqb_refl. }
    right. right. split; [done|]. split; [done|].
    split; [by rewrite add_attempts_app, Ha0|]. split; [|done].
    intros b. by rewrite committed_ranks_app, Hr0.
Qed.

(** ** C9 *)

(** C9 — an order that the snapshot already shows when [createOrder] is
    called is treated as created: the call returns [True], which the
    controller classifies as created (truthy, not the defer sentinel), and it
    submits no request at all, so no reply is ever classified. *)
Theorem createOrder_already_visible
    (R : remote) (orderName : string) (df_sapBOM : list bom_row) (t : nat) :
  run_getOpenPPGPickOrders_specific R t orderName <> [] ->
  result_of (createOrder R orderName df_sapBOM t) = PyBool true
  /\ truthy (result_of (createOrder R orderName df_sapBOM t)) = true
  /\ is_defer_create (result_of (createOrder R orderName df_sapBOM t)) = false
  /\ events_of (createOrder R orderName df_sapBOM t) = []
  /\ create_submissions orderName (events_of (createOrder R orderName df_sapBOM t)) = 0.
Proof.
  intros Hvis.
  destruct (createOrder_spec R orderName df_sapBOM t)
    as [(_ & He & Hr)|[(Hv & _)|(Hv & _)]].
  - rewrite He, Hr. auto.
  - destruct (run_getOpenPPGPickOrders_specific R t orderName); [done|discriminate].
  - destruct (run_getOpenPPGPickOrders_specific R t orderName); [done|discriminate].
Qed.

Lemma createOrder_already_visible_witness :
  let R := scripted_remote 0 (Reply 500 None) (fun _ => Reply 200 None) in
  run_getOpenPPGPickOrders_specific R 0 "SO1" <> []
  /\ result_of (createOrder R "SO1" example_bom 0) = PyBool true
  /\ events_of (createOrder R "SO1" example_bom 0) = [].
Proof.
  intros R.
  assert (Hvis : run_getOpenPPGPickOrders_specific R 0 "SO1" <> []) by discriminate.
  split; [exact Hvis|].
  pose proof (createOrder_already_visible R "SO1" example_bom 0 Hvis) as (H1 & _ & _ & H2 & _).
  by split.
Defined.


(** ** C6 *)


Lemma create_outcome_409 body : create_outcome (Reply 409 body) = PyBool true.
Proof. reflexivity. Qed.



(** ** C5 *)

(** A create acknowledged by a reply that the controller classifies as
    created is followed, in the same iteration, by the call of
    [addOrderToBatch] at the current rank. *)
Lemma acknowledged_create_then_assign
    (R : remote) (bom : list bom_row) (ppg : list order_row)
    (thread_id : nat) (soNum : string) (rest : list string)
    (sh : shared) (loc : local) (t : nat) (reply : http_reply) :
  EvOrderCreate soNum reply ∈ events_of (row_step R bom ppg thread_id soNum rest sh loc t) ->
  truthy (create_outcome reply) = true ->
  is_defer_create (create_outcome reply) = false ->
  add_attempts (events_of (row_step R bom ppg thread_id soNum rest sh loc t))
  = [(soNum, batch_name loc, current_rank loc)].
Proof.
  rewrite row_step_events. intros Hin Htr Hdef.
  destruct (order_path_create_inv _ _ _ _ _ _ _ _ _ (try_order_path R bom ppg soNum sh loc t) Hin)
    as (_ & _ & [(Hd & _)|[(_ & _ & Ha)|(_ & Ht & _)]]); [congruence|done|congruence].
Qed.

(** HTTP 409 is classified as created. *)
Lemma conflict_then_assign
    (R : remote) (bom : list bom_row) (ppg : list order_row)
    (thread_id : nat) (soNum : string) (rest : list string)
    (sh : shared) (loc : local) (t : nat) (body : option pyval) :
  EvOrderCreate soNum (Reply 409 body)
    ∈ events_of (row_step R bom ppg thread_id soNum rest sh loc t) ->
  add_attempts (events_of (row_step R bom ppg thread_id soNum rest sh loc t))
  = [(soNum, batch_name loc, current_rank loc)].
Proof. intros Hin. by apply (acknowledged_create_then_assign _ _ _ _ _ _ _ _ _ _ Hin). Qed.

(** A success status whose body is a JSON object with at least one key, none
    of them a truthy [defer_create], is classified as created. *)
Lemma success_with_object_then_assign
    (R : remote) (bom : list bom_row) (ppg : list order_row)
    (thread_id : nat) (soNum : string) (rest : list string)
    (sh : shared) (loc : local) (t : nat) (status : Z) (items : list (string * pyval)) :
  raises_for_status status = false -> items <> [] ->
  truthy (dict_get items "defer_create") = false ->
  EvOrderCreate soNum (Reply status (Some (PyDict items)))
    ∈ events_of (row_step R bom ppg thread_id soNum rest sh loc t) ->
  add_attempts (events_of (row_step R bom ppg thread_id soNum rest sh loc t))
  = [(soNum, batch_name loc, current_rank loc)].
Proof.
  intros Hst Hne Hd Hin. apply (acknowledged_create_then_assign _ _ _ _ _ _ _ _ _ _ Hin).
  - simpl. rewrite Hst. simpl. by destruct items.
  - simpl. rewrite Hst. simpl. exact Hd.
Qed.

(** A success status whose body is not JSON, or is the empty object, makes
    [createFullSOPickOrder] return the empty dict, which is falsy: the sales
    order is recorded as [create_failed] and [addOrderToBatch] is not
    called. *)
Lemma success_with_empty_body_fails
    (R : remote) (bom : list bom_row) (ppg : list order_row)
    (thread_id : nat) (soNum : string) (rest : list string)
    (sh : shared) (loc : local) (t : nat) (status : Z) (body : option pyval) :
  raises_for_status status = false ->
  body = None \/ body = Some (PyDict []) ->
  EvOrderCreate soNum (Reply status body)
    ∈ events_of (row_step R bom ppg thread_id soNum rest sh loc t) ->
  add_attempts (events_of (row_step R bom ppg thread_id soNum rest sh loc t)) = []
  /\ df_errors (snd (result_of (row_step R bom ppg thread_id soNum rest sh loc t)))
     = df_errors loc ++ [mk_error_row (row loc) soNum "create_failed"].
Proof.
  rewrite row_step_events, row_step_result. intros Hst Hbody Hin.
  assert (Hout : create_outcome (Reply status body) = PyDict []).
  { simpl. rewrite Hst. by destruct Hbody as [-> | ->]. }
  destruct (order_path_create_inv _ _ _ _ _ _ _ _ _ (try_order_path R bom ppg soNum sh loc t) Hin)
    as (_ & _ & [(Hd & _)|[(_ & Ht & _)|(_ & _ & Ha & _ & Hr)]]);
    try (rewrite Hout in *; discriminate).
  split; [done|]. rewrite Hr. reflexivity.
Qed.

(** C5 at the failing input: the create of SO1 is acknowledged with HTTP 201
    and a body that is not JSON; the iteration submits the create, does not
    call [addOrderToBatch], and records SO1 with reason [create_failed]. *)
Theorem create_acknowledged_with_empty_body :
  let R := scripted_remote 1000 (Reply 201 None) (fun _ => Reply 200 None) in
  let x := row_step R example_bom example_ppg 1 "SO1" ["SO2"] example_shared example_local 0 in
  events_of x = [EvOrderCreate "SO1" (Reply 201 None)]
  /\ raises_for_status 201 = false
  /\ add_attempts (events_of x) = []
  /\ df_errors (snd (result_of x)) = [mk_error_row example_row "SO1" "create_failed"]
  /\ err_files (fst (result_of x)) !! 1 = Some [mk_error_row example_row "SO1" "create_failed"]
  /\ deferred_create_map (fst (result_of x)) = ∅
  /\ deferred_map (fst (result_of x)) = ∅.
Proof. vm_compute. repeat split. Qed.


(** ** C2 *)

(** When attempts on the first line were made and none was answered with
    200, the iteration took the deferred-assign way. *)
Lemma order_path_first_line_inv bom ppg soNum sh loc evs r :
  order_path bom ppg soNum sh loc evs r ->
  first_line_replies soNum evs <> [] ->
  Forall (fun reply => is_200 reply = false) (first_line_replies soNum evs) ->
  add_attempts evs = [(soNum, batch_name loc, current_rank loc)]
  /\ (forall b, committed_ranks b evs = [])
  /\ r = inr (set_deferred_map sh
                (setdefault_append (deferred_map sh) (batch_name loc) soNum),
              loc).
Proof.
  intros Hpath Hne Hall.
  destruct Hpath as [| |cleanup reply' Hcl Hdef
                     |cleanup kev created aev Hcl Hcr Hdef Htr (Hk & Hc & Hf)
                     |cleanup kev created aev Hcl Hcr Hdef Htr (Hk & Hc & Hf)
                     |cleanup kev created Hcl Hcr Hdef Htr].
  - done.
  - done.
  - destruct (cleanup_projections _ Hcl) as (_ & _ & _ & _ & Hf0).
    exfalso. apply Hne. by rewrite first_line_replies_app, Hf0.
  - destruct (cleanup_projections _ Hcl) as (_ & _ & _ & _ & Hf0).
    destruct (create_facts_projections _ _ _ Hcr) as (_ & _ & Hf1 & _).
    rewrite !first_line_replies_app, Hf0, Hf1 in Hall. cbn [app] in Hall.
    change (first_line_replies soNum (EvAddOrderToBatch ?a ?b ?c :: aev))
      with (first_line_replies soNum aev) in Hall.
    specialize (Hf Hall). discriminate.
  - destruct (cleanup_projections _ Hcl) as (_ & _ & Ha0 & Hr0 & _).
    destruct (create_facts_projections _ _ _ Hcr) as (Ha1 & Hr1 & _).
    destruct (assign_projections _ Hk) as (_ & _ & Ha2).
    split; [by rewrite !add_attempts_app, Ha0, Ha1, add_attempts_call, Ha2|].
    split; [|done]. intros b. rewrite !committed_ranks_app, Hr0, Hr1. cbn [app].
    change (committed_ranks b (EvAddOrderToBatch ?a ?c ?d :: aev))
      with (committed_ranks b aev). by rewrite Hc.
  - destruct (cleanup_projections _ Hcl) as (_ & _ & _ & _ & Hf0).
    destruct (create_facts_projections _ _ _ Hcr) as (_ & _ & Hf1 & _).
    exfalso. apply Hne. by rewrite first_line_replies_app, Hf0, Hf1.
Qed.




(** ** C10 *)

(** C10 as stated fails: SO4 has no BOM row flagged as PPG item, but the
    snapshot already shows it, so [createOrder] returns [True]; the main pass
    goes on to [addOrderToBatch], records the order as batched and writes no
    error row. *)
Lemma no_ppg_rows_but_visible :
  let R := scripted_remote 0 (Reply 201 None) (fun _ => Reply 200 None) in
  let bom_so := List.filter (fun r => String.eqb (DocNum r) "SO4") example_bom in
  let x := row_step R example_bom example_ppg 1 "SO4" [] example_shared example_local 0 in
  List.filter (fun r => String.eqb (U_PLS_PPG_ITEM r) "Y") bom_so = []
  /\ result_of (createOrder R "SO4" bom_so 0) = PyBool true
  /\ add_attempts (events_of x) = [("SO4", "B1", 1)]
  /\ allocated_arr (snd (result_of x)) = ["SO4"]
  /\ df_errors (snd (result_of x)) = []
  /\ err_files (fst (result_of x)) = ∅.
Proof. vm_compute. repeat split. Qed.

(** C10, amended — a sales order with no BOM row flagged as PPG item that the
    snapshot does not show when [createOrder] is called (the preloaded frames
    having rows): [createOrder] returns [False] and submits nothing; the main
    pass calls no [addOrderToBatch], appends a row with reason
    [create_failed] to the thread's error table and writes it to the error
    file, and queues the order in neither deferred map, so no tail pass sees
    it. *)
Theorem no_ppg_rows_create_failed
    (R : remote) (bom : list bom_row) (ppg : list order_row)
    (thread_id : nat) (soNum : string) (rest : list string)
    (sh : shared) (loc : local) (t : nat) :
  bom <> [] -> ppg <> [] ->
  run_getOpenPPGPickOrders_specific R (clock_of (cleanup_if_present R ppg soNum t)) soNum = [] ->
  List.filter (fun r => String.eqb (U_PLS_PPG_ITEM r) "Y")
              (List.filter (fun r => String.eqb (DocNum r) soNum) bom) = [] ->
  let c := createOrder R soNum (List.filter (fun r => String.eqb (DocNum r) soNum) bom)
                       (clock_of (cleanup_if_present R ppg soNum t)) in
  let x := row_step R bom ppg thread_id soNum rest sh loc t in
  result_of c = PyBool false
  /\ events_of c = []
  /\ create_submissions soNum (events_of x) = 0
  /\ add_attempts (events_of x) = []
  /\ df_errors (snd (result_of x))
     = df_errors loc ++ [mk_error_row (row loc) soNum "create_failed"]
  /\ err_files (fst (result_of x)) !! thread_id
     = Some (df_errors loc ++ [mk_error_row (row loc) soNum "create_failed"])
  /\ deferred_create_map (fst (result_of x)) = deferred_create_map sh
  /\ deferred_map (fst (result_of x)) = deferred_map sh
  /\ batch_order_counts (fst (result_of x)) = batch_order_counts sh
  /\ allocated_arr (snd (result_of x)) = allocated_arr loc.
Proof.
  intros Hbom Hppg Hvis Hlines c x.
  assert (Hc : result_of c = PyBool false /\ events_of c = []).
  { subst c.
    destruct (createOrder_spec R soNum (List.filter (fun r => String.eqb (DocNum r) soNum) bom)
                (clock_of (cleanup_if_present R ppg soNum t)))
      as [(Hv & _)|[(_ & _ & He & Hr)|(_ & Hn & _)]].
    - rewrite Hvis in Hv. discriminate.
    - by rewrite He, Hr.
    - rewrite Hlines in Hn. discriminate. }
  destruct Hc as [Hcr Hce]. split; [done|]. split; [done|].
  subst x. rewrite row_step_events, row_step_result. unfold try_order.
  destruct bom as [|b0 bom']; [done|]. destruct ppg as [|p0 ppg']; [done|].
  msimpl. fold c. rewrite Hcr, Hce. cbn [is_defer_create truthy]. msimpl.
  rewrite !app_nil_r.
  destruct (cleanup_projections _ (cleanup_if_present_events R (p0 :: ppg') soNum t))
    as (_ & Hc0 & Ha0 & _).
  split; [apply Hc0|]. split; [apply Ha0|].
  cbn [except_clause persist_progress df_errors].
  destruct (df_empty (df_errors loc ++ _)) eqn:Hemp.
  { destruct (df_errors loc); discriminate. }
  cbn. split; [done|]. split; [apply lookup_insert_eq|]. done.
Qed.

Lemma no_ppg_rows_create_failed_witness :
  let R := scripted_remote 1000 (Reply 201 None) (fun _ => Reply 200 None) in
  let x := row_step R example_bom example_ppg 1 "SO4" [] example_shared example_local 0 in
  example_bom <> [] /\ example_ppg <> []
  /\ create_submissions "SO4" (events_of x) = 0
  /\ err_files (fst (result_of x)) !! 1
     = Some [mk_error_row example_row "SO4" "create_failed"].
Proof.
  intros R x.
  assert (H1 : example_bom <> []) by discriminate.
  assert (H2 : example_ppg <> []) by discriminate.
  split; [exact H1|]. split; [exact H2|].
  pose proof (no_ppg_rows_create_failed R example_bom example_ppg 1 "SO4" []
                example_shared example_local 0 H1 H2 eq_refl eq_refl)
    as (_ & _ & Hc & _ & _ & He & _).
  split; [exact Hc|exact He].
Defined.


(** ** Laws of the effect monad and of loops *)

Lemma run_eta {A} (x : A * list event * nat) : x = (result_of x, events_of x, clock_of x).
Proof. by destruct x as [[a e] t]. Qed.

Lemma bind_unfold {A B} (m : M A) (k : A -> M B) (t : nat) :
  bind m k t
  = (result_of (k (result_of (m t)) (clock_of (m t))),
     events_of (m t) ++ events_of (k (result_of (m t)) (clock_of (m t))),
     clock_of (k (result_of (m t)) (clock_of (m t)))).
Proof. rewrite (run_eta (bind m k t)). by rewrite result_bind, events_bind, clock_bind. Qed.

Lemma bind_ret_l {A B} (a : A) (k : A -> M B) (t : nat) : bind (ret a) k t = k a t.
Proof. rewrite bind_unfold. cbn. by rewrite <- run_eta. Qed.

Lemma bind_ret_r {A} (m : M A) (t : nat) : bind m ret t = m t.
Proof. rewrite bind_unfold. cbn. by rewrite app_nil_r, <- run_eta. Qed.

Lemma bind_assoc {A B C} (m : M A) (k : A -> M B) (h : B -> M C) (t : nat) :
  bind (bind m k) h t = bind m (fun a => bind (k a) h) t.
Proof.
  rewrite (run_eta (bind (bind m k) h t)), (run_eta (bind m _ t)).
  msimpl. by rewrite app_assoc.
Qed.

(** Two continuations that agree where the first computation ends. *)
Lemma bind_ext {A B} (m : M A) (k1 k2 : A -> M B) (t : nat) :
  k1 (result_of (m t)) (clock_of (m t)) = k2 (result_of (m t)) (clock_of (m t)) ->
  bind m k1 t = bind m k2 t.
Proof. intros H. rewrite !bind_unfold. by rewrite H. Qed.

Lemma for_each_app {A B} (body : B -> A -> M B) (l1 l2 : list A) (acc : B) (t : nat) :
  for_each body (l1 ++ l2) acc t
  = bind (for_each body l1 acc) (fun acc' => for_each body l2 acc') t.
Proof.
  revert acc t. induction l1 as [|x l1 IH]; intros acc t; simpl.
  - by rewrite bind_ret_l.
  - rewrite bind_assoc. apply bind_ext. apply IH.
Qed.

(** An invariant over the events emitted so far and the loop's accumulator
    that every iteration keeps is kept by the loop. *)
Lemma for_each_invariant {A B} (I : list event -> B -> Prop) (body : B -> A -> M B)
    (l : list A) :
  (forall evs acc x t, x ∈ l -> I evs acc ->
     I (evs ++ events_of (body acc x t)) (result_of (body acc x t))) ->
  forall evs acc t, I evs acc ->
    I (evs ++ events_of (for_each body l acc t)) (result_of (for_each body l acc t)).
Proof.
  induction l as [|x l IH]; intros Hbody evs acc t HI; simpl.
  - by rewrite app_nil_r.
  - msimpl. rewrite app_assoc. apply IH.
    + intros evs' acc' y t' Hy. apply Hbody. by apply elem_of_cons; right.
    + apply Hbody; [by apply elem_of_cons; left|done].
Qed.


(** ** Rank density: one iteration, one row, the tails *)

Lemma dense_same (evs d : list event) (sh sh' : shared) :
  (forall b, count_of sh' b = count_of sh b) ->
  (forall b, committed_ranks b d = []) ->
  dense evs sh -> dense (evs ++ d) sh'.
Proof.
  intros Hcnt Hd Hdense b. by rewrite committed_ranks_app, Hd, app_nil_r, Hcnt.
Qed.

Lemma dense_commit (evs d : list event) (sh sh' : shared) (batch : string) :
  (forall b, count_of sh' b = if decide (b = batch) then S (count_of sh batch)
                               else count_of sh b) ->
  (forall b, committed_ranks b d
             = if String.eqb batch b then [count_of sh batch + 1] else []) ->
  dense evs sh -> dense (evs ++ d) sh'.
Proof.
  intros Hcnt Hd Hdense b. rewrite committed_ranks_app, Hd, Hcnt, Hdense.
  destruct (String.eqb_spec batch b) as [<-|Hne].
  - rewrite decide_True by done. rewrite seq_S. f_equal. f_equal. lia.
  - rewrite decide_False by done. apply app_nil_r.
Qed.

Lemma count_of_set_counts_insert (sh : shared) (batch : string) (n : nat) (b : string) :
  count_of (set_counts sh (<[batch := n]> (batch_order_counts sh))) b
  = if decide (b = batch) then n else count_of sh b.
Proof.
  unfold count_of. cbn [batch_order_counts set_counts].
  destruct (decide (b = batch)) as [->|Hne].
  - by rewrite lookup_insert_eq.
  - by rewrite lookup_insert_ne.
Qed.

Lemma committed_ranks_call b order batch rank l :
  committed_ranks b (EvAddOrderToBatch order batch rank :: l) = committed_ranks b l.
Proof. reflexivity. Qed.

(** What one run of the [try] block does to the counter, to the worker's
    rank and to the committed ranks: nothing, or one commit at the worker's
    rank. *)
Lemma order_path_rank_effect bom ppg soNum sh loc evs r :
  order_path bom ppg soNum sh loc evs r ->
  row (snd (except_clause soNum sh loc r)) = row loc
  /\ (((forall b, count_of (fst (except_clause soNum sh loc r)) b = count_of sh b)
       /\ current_rank (snd (except_clause soNum sh loc r)) = current_rank loc
       /\ forall b, committed_ranks b evs = [])
      \/ ((forall b, count_of (fst (except_clause soNum sh loc r)) b
                     = if decide (b = batch_name loc) then S (count_of sh (batch_name loc))
                       else count_of sh b)
          /\ current_rank (snd (except_clause soNum sh loc r))
             = S (count_of sh (batch_name loc)) + 1
          /\ forall b, committed_ranks b evs
                       = if String.eqb (batch_name loc) b then [current_rank loc] else [])).
Proof.
  destruct 1 as [| |cleanup reply Hcl Hdef
                 |cleanup kev created aev Hcl Hcr Hdef Htr (Hk & Hc & Hf)
                 |cleanup kev created aev Hcl Hcr Hdef Htr (Hk & Hc & Hf)
                 |cleanup kev created Hcl Hcr Hdef Htr];
    cbn [except_clause fst snd row current_rank]; (split; [done|]).
  - left. auto.
  - left. auto.
  - left. destruct (cleanup_projections _ Hcl) as (_ & _ & _ & Hr0 & _).
    split; [done|]. split; [done|]. intros b. by rewrite committed_ranks_app, Hr0.
  - right. destruct (cleanup_projections _ Hcl) as (_ & _ & _ & Hr0 & _).
    destruct (create_facts_projections _ _ _ Hcr) as (_ & Hr1 & _).
    split; [apply count_of_set_counts_insert|]. split; [done|].
    intros b. by rewrite !committed_ranks_app, Hr0, Hr1, committed_ranks_call, Hc.
  - left. destruct (cleanup_projections _ Hcl) as (_ & _ & _ & Hr0 & _).
    destruct (create_facts_projections _ _ _ Hcr) as (_ & Hr1 & _).
    split; [done|]. split; [done|].
    intros b. by rewrite !committed_ranks_app, Hr0, Hr1, committed_ranks_call, Hc.
  - left. destruct (cleanup_projections _ Hcl) as (_ & _ & _ & Hr0 & _).
    destruct (create_facts_projections _ _ _ Hcr) as (_ & Hr1 & _).
    split; [done|]. split; [done|].
    intros b. by rewrite !committed_ranks_app, Hr0, Hr1.
Qed.

Lemma persist_progress_keeps thread_id rest (x : shared * local) :
  (forall b, count_of (fst (persist_progress thread_id rest x)) b = count_of (fst x) b)
  /\ current_rank (snd (persist_progress thread_id rest x)) = current_rank (snd x)
  /\ row (snd (persist_progress thread_id rest x)) = row (snd x)
  /\ todo (snd (persist_progress thread_id rest x)) = rest
  /\ deferred_map (fst (persist_progress thread_id rest x)) = deferred_map (fst x)
  /\ deferred_create_map (fst (persist_progress thread_id rest x))
     = deferred_create_map (fst x)
  /\ batch_order_counts (fst (persist_progress thread_id rest x))
     = batch_order_counts (fst x).
Proof.
  destruct x as [sh loc]. cbn [persist_progress fst snd].
  by destruct (df_empty (df_errors loc)).
Qed.

Section RowFacts.
Context (R : remote) (bom : list bom_row) (ppg : list order_row).

Lemma row_step_rank_effect thread_id soNum rest sh loc t :
  let x := row_step R bom ppg thread_id soNum rest sh loc t in
  row (snd (result_of x)) = row loc
  /\ todo (snd (result_of x)) = rest
  /\ (((forall b, count_of (fst (result_of x)) b = count_of sh b)
       /\ current_rank (snd (result_of x)) = current_rank loc
       /\ forall b, committed_ranks b (events_of x) = [])
      \/ ((forall b, count_of (fst (result_of x)) b
                     = if decide (b = batch_name loc) then S (count_of sh (batch_name loc))
                       else count_of sh b)
          /\ current_rank (snd (result_of x)) = S (count_of sh (batch_name loc)) + 1
          /\ forall b, committed_ranks b (events_of x)
                       = if String.eqb (batch_name loc) b then [current_rank loc] else [])).
Proof.
  cbn zeta. rewrite row_step_events, row_step_result.
  destruct (order_path_rank_effect _ _ _ _ _ _ _ (try_order_path R bom ppg soNum sh loc t))
    as (Hrow & Hcase).
  destruct (persist_progress_keeps thread_id rest
              (except_clause soNum sh loc (result_of (try_order R bom ppg soNum sh loc t))))
    as (Hc & Hr & Hw & Ht & _).
  rewrite Hw, Hr, Ht. split; [done|]. split; [done|].
  destruct Hcase as [(H1 & H2 & H3)|(H1 & H2 & H3)]; [left|right];
    (split; [intros b; by rewrite Hc, H1|by split]).
Qed.

(** The loop over a row's sales orders keeps density and the worker's
    rank one above its batch's counter. *)
Lemma row_loop_dense thread_id so_list :
  forall sh loc evs t,
    dense evs sh -> current_rank loc = count_of sh (batch_name loc) + 1 ->
    let x := row_loop R bom ppg thread_id so_list sh loc t in
    dense (evs ++ events_of x) (fst (result_of x))
    /\ current_rank (snd (result_of x))
       = count_of (fst (result_of x)) (batch_name (snd (result_of x))) + 1
    /\ row (snd (result_of x)) = row loc.
Proof.
  induction so_list as [|soNum rest IH]; intros sh loc evs t Hd Hr; cbn zeta; simpl.
  - by rewrite app_nil_r.
  - msimpl.
    destruct (row_step_rank_effect thread_id soNum rest sh loc t) as (Hrow & _ & Hcase).
    set (x := row_step R bom ppg thread_id soNum rest sh loc t) in *.
    assert (Hname : batch_name (snd (result_of x)) = batch_name loc).
    { unfold batch_name. by rewrite Hrow. }
    rewrite app_assoc.
    destruct (IH (fst (result_of x)) (snd (result_of x)) (evs ++ events_of x) (clock_of x))
      as (Hd' & Hr' & Hrow').
    + destruct Hcase as [(H1 & H2 & H3)|(H1 & H2 & H3)].
      * by apply (dense_same _ _ sh).
      * apply (dense_commit _ _ sh _ (batch_name loc)); [done| |done].
        intros b. by rewrite H3, Hr.
    + destruct Hcase as [(H1 & H2 & H3)|(H1 & H2 & H3)].
      * by rewrite H2, Hname, H1.
      * rewrite H2, Hname, H1. by rewrite decide_True.
    + split; [done|]. split; [done|]. by rewrite Hrow'.
Qed.

Lemma row_begin_counts thread_id r sh :
  (forall b, count_of (fst (row_begin thread_id r sh)) b = count_of sh b)
  /\ current_rank (snd (row_begin thread_id r sh))
     = count_of sh (PPG_BatchName r) + 1
  /\ row (snd (row_begin thread_id r sh)) = r
  /\ todo (snd (row_begin thread_id r sh)) = _safe_split_docnums (DocNums r).
Proof.
  unfold row_begin, count_of. cbn.
  destruct (batch_order_counts sh !! PPG_BatchName r) as [n|] eqn:E.
  - rewrite E. auto.
  - rewrite lookup_insert_eq. split; [|done]. intros b.
    destruct (decide (b = PPG_BatchName r)) as [->|Hne].
    + by rewrite lookup_insert_eq, E.
    + by rewrite lookup_insert_ne.
Qed.

Lemma process_single_batch_row_dense thread_id r sh evs t :
  dense evs sh ->
  dense (evs ++ events_of (_process_single_batch_row R bom ppg thread_id r sh t))
        (result_of (_process_single_batch_row R bom ppg thread_id r sh t)).
Proof.
  intros Hd. unfold _process_single_batch_row.
  destruct (row_begin_counts thread_id r sh) as (Hc & Hr & Hw & _).
  destruct (row_begin thread_id r sh) as [sh0 loc0]. cbn [fst snd] in *.
  msimpl. rewrite app_nil_r.
  destruct (row_loop_dense thread_id (todo loc0) sh0 loc0 evs t) as (Hd' & _).
  - intros b. by rewrite Hc.
  - unfold batch_name. by rewrite Hw, Hc.
  - intros b. rewrite Hd'. reflexivity.
Qed.

(** Both tail passes keep density: the rank is read from the counter
    before every attempt. *)
Lemma tail_attempt_dense soNum batch sh evs t :
  dense evs sh ->
  let x := addOrderToBatch R soNum batch (count_of sh batch + 1) t in
  dense (evs ++ events_of x)
        (if result_of x
         then set_counts sh (<[batch := count_of sh batch + 1]> (batch_order_counts sh))
         else sh).
Proof.
  intros Hd. cbn zeta.
  destruct (addOrderToBatch_spec R soNum batch (count_of sh batch + 1) t)
    as (aev & He & _ & Hc & _).
  rewrite He. destruct (result_of (addOrderToBatch R soNum batch _ t)).
  - apply (dense_commit _ _ sh _ batch); [|by intros b; rewrite committed_ranks_call, Hc|done].
    intros b. rewrite count_of_set_counts_insert.
    destruct (decide (b = batch)); [lia|done].
  - apply (dense_same _ _ sh); [done| |done].
    intros b. by rewrite committed_ranks_call, Hc.
Qed.

Lemma retry_deferred_one_dense batch acc soNum evs t :
  dense evs (fst acc) ->
  dense (evs ++ events_of (retry_deferred_one R batch acc soNum t))
        (fst (result_of (retry_deferred_one R batch acc soNum t))).
Proof.
  destruct acc as [sh succ]. cbn [fst]. intros Hd. unfold retry_deferred_one. msimpl.
  destruct (df_empty _); [by rewrite app_nil_r|]. msimpl.
  pose proof (tail_attempt_dense soNum batch sh evs (S t) Hd) as H. cbn zeta in H.
  destruct (result_of (addOrderToBatch R soNum batch _ _)); msimpl; by rewrite app_nil_r.
Qed.

Lemma retry_create_one_dense batch acc soNum evs t :
  dense evs (fst acc) ->
  dense (evs ++ events_of (retry_create_one R bom batch acc soNum t))
        (fst (result_of (retry_create_one R bom batch acc soNum t))).
Proof.
  destruct acc as [sh succ]. cbn [fst]. intros Hd. unfold retry_create_one. msimpl.
  set (w := _final_visibility_wait_for_order R soNum t).
  assert (Hw : events_of w = []).
  { subst w. unfold _final_visibility_wait_for_order. msimpl.
    apply poll_order_visible_events. }
  rewrite Hw. cbn [app].
  set (c := if result_of w then _ else _).
  assert (Hc : forall b, committed_ranks b (events_of (c (clock_of w))) = []).
  { intros b. subst c. destruct (result_of w); [done|].
    destruct bom as [|b0 bom']; [done|]. msimpl.
    match goal with |- context [createOrder R soNum ?l ?t'] =>
      destruct (create_facts_projections _ _ _ (createOrder_facts R soNum l t'))
        as (_ & Hr & _) end.
    rewrite committed_ranks_app, Hr.
    by destruct (is_defer_create _). }
  assert (Hd1 : dense (evs ++ events_of (c (clock_of w))) sh).
  { by apply (dense_same _ _ sh). }
  destruct (result_of (c (clock_of w))) as [[|]|]; msimpl; rewrite ?app_nil_r; try done.
  rewrite app_assoc.
  pose proof (tail_attempt_dense soNum batch sh _ (clock_of (c (clock_of w))) Hd1) as H.
  cbn zeta in H.
  destruct (result_of (addOrderToBatch R soNum batch _ _)); msimpl; by rewrite app_nil_r.
Qed.

Lemma retry_deferred_tail_dense sh evs t :
  dense evs sh ->
  dense (evs ++ events_of (_retry_deferred_tail R sh t))
        (result_of (_retry_deferred_tail R sh t)).
Proof.
  intros Hd. unfold _retry_deferred_tail.
  destruct (decide (deferred_map sh = ∅)); [by rewrite app_nil_r|].
  msimpl. rewrite app_nil_r.
  apply (for_each_invariant (fun evs acc => dense evs (fst acc))); [|done].
  intros evs' acc batch t' _ Hacc.
  apply (for_each_invariant (fun evs acc => dense evs (fst acc))); [|done].
  intros evs'' acc' soNum t'' _ Hacc'. by apply retry_deferred_one_dense.
Qed.

Lemma retry_deferred_create_tail_dense sh evs t :
  dense evs sh ->
  dense (evs ++ events_of (_retry_deferred_create_then_add_tail R bom sh t))
        (result_of (_retry_deferred_create_then_add_tail R bom sh t)).
Proof.
  intros Hd. unfold _retry_deferred_create_then_add_tail.
  destruct (decide (deferred_create_map sh = ∅)); [by rewrite app_nil_r|].
  msimpl. rewrite app_nil_r.
  apply (for_each_invariant (fun evs acc => dense evs (fst acc))); [|done].
  intros evs' acc batch t' _ Hacc.
  apply (for_each_invariant (fun evs acc => dense evs (fst acc))); [|done].
  intros evs'' acc' soNum t'' _ Hacc'. by apply retry_create_one_dense.
Qed.

Lemma sequential_driver_dense df thread_id t :
  dense (events_of (batch_and_allocate_orders_optimized R bom ppg df thread_id t))
        (result_of (batch_and_allocate_orders_optimized R bom ppg df thread_id t)).
Proof.
  unfold batch_and_allocate_orders_optimized. msimpl. rewrite app_assoc.
  apply retry_deferred_create_tail_dense, retry_deferred_tail_dense.
  apply (for_each_invariant (fun evs sh => dense evs sh) _ df
           (fun evs sh r t' _ Hd => process_single_batch_row_dense thread_id r sh evs t' Hd)
           [] empty_shared t).
  intros b. reflexivity.
Qed.

End RowFacts.


(** ** The pool: waiting for the workers is one more schedule *)

Lemma bind_cong_l {A B} (m1 m2 : M A) (k : A -> M B) (t : nat) :
  m1 t = m2 t -> bind m1 k t = bind m2 k t.
Proof. intros H. rewrite !bind_unfold. by rewrite H. Qed.

Section PoolFacts.
Context (R : remote) (bom : list bom_row) (ppg : list order_row).

Lemma run_schedule_app s1 s2 p t :
  run_schedule R bom ppg (s1 ++ s2) p t
  = bind (run_schedule R bom ppg s1 p) (fun p' => run_schedule R bom ppg s2 p') t.
Proof. apply for_each_app. Qed.

Lemma row_loop_todo thread_id so_list :
  forall sh loc t, todo loc = so_list ->
    todo (snd (result_of (row_loop R bom ppg thread_id so_list sh loc t))) = [].
Proof.
  induction so_list as [|soNum rest IH]; intros sh loc t Ht; simpl; [done|].
  msimpl. apply IH.
  by destruct (row_step_rank_effect R bom ppg thread_id soNum rest sh loc t) as (_ & H & _).
Qed.

Lemma run_schedule_cons i s p t :
  run_schedule R bom ppg (i :: s) p t
  = bind (worker_step R bom ppg i p) (fun p' => run_schedule R bom ppg s p') t.
Proof. reflexivity. Qed.

Lemma run_schedule_single i p t :
  run_schedule R bom ppg [i] p t = worker_step R bom ppg i p t.
Proof. unfold run_schedule. cbn [for_each]. apply bind_ret_r. Qed.

(** The loop over a row's orders, step by step. *)
Lemma row_loop_as_schedule i so_list :
  forall sh loc qu ws t,
    ws !! i = Some (Busy loc) -> todo loc = so_list ->
    run_schedule R bom ppg (replicate (length so_list) i) (mk_pool qu ws sh) t
    = bind (row_loop R bom ppg (S i) so_list sh loc)
           (fun x => ret (mk_pool qu (<[i := Busy (snd x)]> ws) (fst x))) t.
Proof.
  induction so_list as [|soNum rest IH]; intros sh loc qu ws t Hi Ht.
  - simpl. rewrite bind_ret_l. cbn [fst snd]. by rewrite list_insert_id.
  - cbn [length replicate]. rewrite run_schedule_cons.
    unfold worker_step at 1. cbn [workers q store]. rewrite Hi, Ht.
    cbn [row_loop]. rewrite !bind_assoc. apply bind_ext. rewrite bind_ret_l.
    set (x := row_step R bom ppg (S i) soNum rest sh loc t).
    rewrite (IH (fst (result_of x)) (snd (result_of x)) qu
                (<[i := Busy (snd (result_of x))]> ws) (clock_of x)).
    + apply bind_ext. by rewrite list_insert_insert_eq.
    + apply list_lookup_insert_eq. by eapply lookup_lt_Some.
    + by destruct (row_step_rank_effect R bom ppg (S i) soNum rest sh loc t) as (_ & H & _).
Qed.

(** A waiting worker taking one row and running it to its end. *)
Lemma process_row_as_schedule i r qu ws sh t :
  ws !! i = Some Waiting ->
  exists sched,
    run_schedule R bom ppg sched (mk_pool (r :: qu) ws sh) t
    = bind (_process_single_batch_row R bom ppg (S i) r sh)
           (fun sh' => ret (mk_pool qu ws sh')) t.
Proof.
  intros Hi. unfold _process_single_batch_row.
  destruct (row_begin (S i) r sh) as [sh0 loc0] eqn:Eb.
  exists (i :: replicate (length (todo loc0)) i ++ [i]).
  rewrite run_schedule_cons.
  unfold worker_step at 1. cbn [workers q store]. rewrite Hi, Eb.
  rewrite bind_ret_l, run_schedule_app.
  assert (Hlt : i < length ws) by (by eapply lookup_lt_Some).
  erewrite bind_cong_l;
    [|apply (row_loop_as_schedule i (todo loc0) sh0 loc0 qu (<[i := Busy loc0]> ws) t);
      [by apply list_lookup_insert_eq|done]].
  rewrite !bind_assoc. apply bind_ext. rewrite !bind_ret_l.
  set (x := row_loop R bom ppg (S i) (todo loc0) sh0 loc0 t).
  rewrite run_schedule_single.
  unfold worker_step. cbn [workers q store].
  rewrite list_lookup_insert_eq by (by rewrite length_insert).
  assert (Ht : todo (snd (result_of x)) = []) by (by apply row_loop_todo).
  rewrite Ht. rewrite !list_insert_insert_eq. by rewrite (list_insert_id ws i Waiting).
Qed.

(** A waiting worker emptying the queue. *)
Lemma queue_as_schedule i qu :
  forall ws sh t,
    ws !! i = Some Waiting ->
    exists sched,
      run_schedule R bom ppg sched (mk_pool qu ws sh) t
      = bind (for_each (fun sh r => _process_single_batch_row R bom ppg (S i) r sh) qu sh)
             (fun sh' => ret (mk_pool [] ws sh')) t.
Proof.
  induction qu as [|r qu IH]; intros ws sh t Hi.
  - exists []. simpl. by rewrite bind_ret_l.
  - destruct (process_row_as_schedule i r qu ws sh t Hi) as (s1 & E1).
    set (x := _process_single_batch_row R bom ppg (S i) r sh t) in *.
    destruct (IH ws (result_of x) (clock_of x) Hi) as (s2 & E2).
    exists (s1 ++ s2). rewrite run_schedule_app.
    rewrite (bind_cong_l _ _ _ _ E1). cbn [for_each].
    rewrite !bind_assoc. apply bind_ext. rewrite bind_ret_l. exact E2.
Qed.

Lemma finish_worker_as_schedule p i t :
  exists sched, finish_worker R bom ppg p i t = run_schedule R bom ppg sched p t.
Proof.
  destruct p as [qu ws sh]. unfold finish_worker. cbn [workers q store].
  destruct (ws !! i) as [[|loc|]|] eqn:Hi.
  - destruct (queue_as_schedule i qu ws sh t Hi) as (s & E).
    exists (s ++ [i]). rewrite run_schedule_app, (bind_cong_l _ _ _ _ E).
    rewrite bind_assoc. apply bind_ext. rewrite bind_ret_l.
    rewrite run_schedule_single.
    unfold worker_step. cbn [workers q store]. by rewrite Hi.
  - set (x := row_loop R bom ppg (S i) (todo loc) sh loc t).
    assert (Hlt : i < length ws) by (by eapply lookup_lt_Some).
    assert (Hw : <[i := Waiting]> ws !! i = Some Waiting)
      by (by apply list_lookup_insert_eq).
    destruct (queue_as_schedule i qu (<[i := Waiting]> ws)
                (row_end (S i) (fst (result_of x)) (snd (result_of x))) (clock_of x) Hw)
      as (s & E).
    exists (replicate (length (todo loc)) i ++ [i] ++ s ++ [i]).
    rewrite run_schedule_app.
    rewrite (bind_cong_l _ _ _ _ (row_loop_as_schedule i (todo loc) sh loc qu ws t Hi eq_refl)).
    rewrite !bind_assoc. apply bind_ext. fold x. rewrite bind_ret_l.
    cbn [app]. rewrite run_schedule_cons.
    unfold worker_step at 1. cbn [workers q store].
    rewrite list_lookup_insert_eq by done.
    assert (Ht : todo (snd (result_of x)) = []) by (by apply row_loop_todo).
    rewrite Ht, bind_ret_l, list_insert_insert_eq.
    rewrite run_schedule_app.
    rewrite (bind_cong_l _ _ _ _ E).
    rewrite !bind_assoc. apply bind_ext. rewrite bind_ret_l.
    rewrite run_schedule_single.
    unfold worker_step. cbn [workers q store]. rewrite Hw.
    by rewrite list_insert_insert_eq.
  - by exists [].
  - by exists [].
Qed.

Lemma join_as_schedule (l : list nat) :
  forall p t,
    exists sched,
      for_each (finish_worker R bom ppg) l p t = run_schedule R bom ppg sched p t.
Proof.
  induction l as [|i l IH]; intros p t.
  - by exists [].
  - destruct (finish_worker_as_schedule p i t) as (s1 & E1).
    destruct (IH (result_of (finish_worker R bom ppg p i t))
                 (clock_of (finish_worker R bom ppg p i t))) as (s2 & E2).
    exists (s1 ++ s2). cbn [for_each]. rewrite run_schedule_app.
    rewrite <- (bind_cong_l _ _ _ _ E1). by apply bind_ext.
Qed.

(** The main pass — the workers interleaved, then the wait for all of
    them — is the run of one schedule. *)
Lemma main_pass_as_schedule schedule p t :
  exists sched,
    bind (run_schedule R bom ppg schedule p) (join_pool R bom ppg) t
    = run_schedule R bom ppg sched p t.
Proof.
  set (x := run_schedule R bom ppg schedule p t).
  destruct (join_as_schedule (seq 0 (length (workers (result_of x))))
                             (result_of x) (clock_of x)) as (s & E).
  exists (schedule ++ s). rewrite run_schedule_app. by apply bind_ext.
Qed.

(** An invariant of every step of every worker holds after the main
    pass. *)
Lemma run_schedule_invariant (I : list event -> pool -> Prop) :
  (forall i evs p t, I evs p ->
     I (evs ++ events_of (worker_step R bom ppg i p t))
       (result_of (worker_step R bom ppg i p t))) ->
  forall sched evs p t, I evs p ->
    I (evs ++ events_of (run_schedule R bom ppg sched p t))
      (result_of (run_schedule R bom ppg sched p t)).
Proof.
  intros Hstep sched. apply for_each_invariant. intros evs acc i t _. apply Hstep.
Qed.

End PoolFacts.


(** ** Rank density over the pool *)

Lemma row_end_count thread_id sh loc b : count_of (row_end thread_id sh loc) b = count_of sh b.
Proof. reflexivity. Qed.

Section PoolRanks.
Context (R : remote) (bom : list bom_row) (ppg : list order_row).

Lemma pool_ranks_ok_idle evs qu ws sh sh' i w :
  (forall loc, w <> Busy loc) ->
  (forall b, count_of sh' b = count_of sh b) ->
  pool_ranks_ok evs (mk_pool qu ws sh) ->
  pool_ranks_ok evs (mk_pool qu (<[i := w]> ws) sh').
Proof.
  intros Hw Hc (Hd & Hr & Hdist & Hq & Hnd). cbn [q workers store] in *.
  assert (Hold : forall j loc, <[i := w]> ws !! j = Some (Busy loc) ->
                   j <> i /\ ws !! j = Some (Busy loc)).
  { intros j loc Hj. apply list_lookup_insert_Some in Hj as [(-> & -> & _)|(Hne & Hj)].
    - by destruct (Hw loc).
    - split; [congruence|done]. }
  split; [intros b; by rewrite Hc|].
  split; [intros j loc Hj; rewrite Hc; apply (Hr j), (Hold j loc Hj)|].
  split; [|split; [|done]].
  - intros j k lj lk Hne Hj Hk.
    apply (Hdist j k); [done|apply (Hold j lj Hj)|apply (Hold k lk Hk)].
  - intros j loc Hj. apply (Hq j), (Hold j loc Hj).
Qed.

(** Every step of every worker keeps the pool's ranks in order. *)
Lemma worker_step_ranks i evs p t :
  pool_ranks_ok evs p ->
  pool_ranks_ok (evs ++ events_of (worker_step R bom ppg i p t))
                (result_of (worker_step R bom ppg i p t)).
Proof.
  destruct p as [qu ws sh]. intros Hok. unfold worker_step. cbn [q workers store].
  destruct (ws !! i) as [[|loc|]|] eqn:Hi; [| |by rewrite app_nil_r|by rewrite app_nil_r].
  - destruct qu as [|r rest].
    + cbn. rewrite app_nil_r. by apply (pool_ranks_ok_idle evs [] ws sh sh i Exited).
    + destruct (row_begin_counts (S i) r sh) as (Hc & Hr0 & Hw0 & _).
      destruct (row_begin (S i) r sh) as [sh0 loc0]. cbn [fst snd] in *.
      cbn. rewrite app_nil_r.
      destruct Hok as (Hd & Hr & Hdist & Hq & Hnd). cbn [q workers store] in *.
      rewrite fmap_cons in Hq, Hnd. apply NoDup_cons in Hnd as [Hnotin Hnd].
      assert (Hname0 : batch_name loc0 = PPG_BatchName r)
        by (unfold batch_name; by rewrite Hw0).
      assert (Hold : forall j loc, <[i := Busy loc0]> ws !! j = Some (Busy loc) ->
                       (j = i /\ loc = loc0) \/ (j <> i /\ ws !! j = Some (Busy loc))).
      { intros j loc Hj. apply list_lookup_insert_Some in Hj as [(-> & E & _)|(Hne & Hj)].
        - left. split; [done|congruence].
        - right. split; [congruence|done]. }
      assert (Hfresh : forall j loc, ws !! j = Some (Busy loc) ->
                         batch_name loc <> PPG_BatchName r).
      { intros j loc Hj E. apply (Hq j loc Hj). rewrite E. apply list_elem_of_here. }
      split; [intros b; by rewrite Hc|].
      split; [|split; [|split; [|done]]].
      * intros j loc Hj. rewrite Hc.
        destruct (Hold j loc Hj) as [(-> & ->)|(_ & Hj')]; [by rewrite Hname0|by apply (Hr j)].
      * intros j k lj lk Hne Hj Hk.
        destruct (Hold j lj Hj) as [(-> & ->)|(Hji & Hj')];
          destruct (Hold k lk Hk) as [(-> & ->)|(Hki & Hk')].
        -- done.
        -- rewrite Hname0. intros E. by apply (Hfresh k lk Hk').
        -- rewrite Hname0. by apply (Hfresh j lj Hj').
        -- by apply (Hdist j k).
      * intros j loc Hj.
        destruct (Hold j loc Hj) as [(-> & ->)|(_ & Hj')]; [by rewrite Hname0|].
        intros Hin. apply (Hq j loc Hj'). by apply list_elem_of_further.
  - destruct (todo loc) as [|soNum rest] eqn:Ht.
    + cbn. rewrite app_nil_r.
      by apply (pool_ranks_ok_idle evs qu ws sh (row_end (S i) sh loc) i Waiting).
    + msimpl. rewrite app_nil_r.
      destruct (row_step_rank_effect R bom ppg (S i) soNum rest sh loc t)
        as (Hrow & _ & Hcase).
      set (x := row_step R bom ppg (S i) soNum rest sh loc t) in *.
      assert (Hname : batch_name (snd (result_of x)) = batch_name loc)
        by (unfold batch_name; by rewrite Hrow).
      destruct Hok as (Hd & Hr & Hdist & Hq & Hnd). cbn [q workers store] in *.
      assert (Hold : forall j l, <[i := Busy (snd (result_of x))]> ws !! j = Some (Busy l) ->
                       (j = i /\ l = snd (result_of x))
                       \/ (j <> i /\ ws !! j = Some (Busy l))).
      { intros j l Hj. apply list_lookup_insert_Some in Hj as [(-> & E & _)|(Hne & Hj)].
        - left. split; [done|congruence].
        - right. split; [congruence|done]. }
      assert (Hcnt : forall j l, j <> i -> ws !! j = Some (Busy l) ->
                       count_of (fst (result_of x)) (batch_name l)
                       = count_of sh (batch_name l)).
      { intros j l Hne Hj.
        destruct Hcase as [(H1 & _)|(H1 & _)]; rewrite H1; [done|].
        rewrite decide_False; [done|]. by apply (Hdist j i). }
      unfold pool_ranks_ok. cbn [q workers store].
      split; [|split; [|split; [|split; [|done]]]].
      * destruct Hcase as [(H1 & H2 & H3)|(H1 & H2 & H3)].
        -- by apply (dense_same _ _ sh).
        -- apply (dense_commit _ _ sh _ (batch_name loc)); [done| |done].
           intros b. by rewrite H3, (Hr i loc Hi).
      * intros j l Hj. destruct (Hold j l Hj) as [(-> & ->)|(Hne & Hj')].
        -- rewrite Hname.
           destruct Hcase as [(H1 & H2 & _)|(H1 & H2 & _)]; rewrite H2, H1.
           ++ by apply (Hr i).
           ++ by rewrite decide_True.
        -- rewrite (Hcnt j l Hne Hj'). by apply (Hr j).
      * intros j k lj lk Hne Hj Hk.
        destruct (Hold j lj Hj) as [(-> & ->)|(Hji & Hj')];
          destruct (Hold k lk Hk) as [(-> & ->)|(Hki & Hk')].
        -- done.
        -- rewrite Hname. by apply (Hdist i k).
        -- rewrite Hname. by apply (Hdist j i).
        -- by apply (Hdist j k).
      * intros j l Hj. destruct (Hold j l Hj) as [(-> & ->)|(_ & Hj')].
        -- rewrite Hname. by apply (Hq i).
        -- by apply (Hq j).
Qed.

Lemma stable_sort_names (leb : batch_in -> batch_in -> bool) (l : list batch_in) :
  NoDup (PPG_BatchName <$> l) -> NoDup (PPG_BatchName <$> stable_sort leb l).
Proof.
  intros H. eapply NoDup_Permutation_proper; [|exact H].
  apply fmap_Permutation. apply stable_sort_Permutation.
Qed.

Lemma initial_pool_ranks df_batches num_threads :
  NoDup (PPG_BatchName <$> batch_rows df_batches) ->
  pool_ranks_ok [] (initial_pool df_batches num_threads).
Proof.
  intros Hnd. unfold initial_pool, pool_ranks_ok. cbn [q workers store].
  assert (Hw : forall i loc,
             List.map (fun _ : nat => Waiting)
                      (worker_ids num_threads (length (batch_rows df_batches))) !! i
             <> Some (Busy loc)).
  { intros i loc Hi. change (List.map ?f ?l) with (f <$> l) in Hi.
    rewrite list_lookup_fmap in Hi.
    destruct (worker_ids _ _ !! i); discriminate. }
  split; [by intros b|].
  split; [intros i loc Hi; by destruct (Hw i loc)|].
  split; [intros i j li lj _ Hi; by destruct (Hw i li)|].
  split; [intros i loc Hi; by destruct (Hw i loc)|].
  unfold df_batches_sorted. destruct (has_minDocDueDate df_batches);
    by apply stable_sort_names.
Qed.

(** Density of the whole run of the pool when no two rows of the batch
    table share a batch name. *)
Lemma pool_run_dense df_batches num_threads schedule t sh :
  NoDup (PPG_BatchName <$> batch_rows df_batches) ->
  result_of (run_specificBatches_optimized R bom ppg df_batches num_threads schedule t)
  = Some sh ->
  dense (events_of (run_specificBatches_optimized R bom ppg df_batches num_threads
                                                  schedule t)) sh.
Proof.
  intros Hnd. unfold run_specificBatches_optimized.
  destruct (df_empty (batch_rows df_batches)); [discriminate|].
  destruct (n_workers num_threads _ <=? 0)%Z; [discriminate|].
  set (p0 := initial_pool df_batches num_threads).
  destruct (main_pass_as_schedule R bom ppg schedule p0 t) as (sched & E).
  rewrite <- (bind_assoc (run_schedule R bom ppg schedule p0) (join_pool R bom ppg)
                (fun p2 => bind (_retry_deferred_tail R (store p2))
                   (fun sh1 => bind (_retry_deferred_create_then_add_tail R bom sh1)
                      (fun sh2 => ret (Some sh2)))) t).
  rewrite (bind_cong_l _ _ _ _ E).
  msimpl. intros [= <-]. rewrite app_nil_r, app_assoc.
  apply retry_deferred_create_tail_dense, retry_deferred_tail_dense.
  pose proof (run_schedule_invariant R bom ppg pool_ranks_ok
                (fun i evs p t => worker_step_ranks i evs p t) sched [] p0 t
                (initial_pool_ranks df_batches num_threads Hnd)) as (Hd & _).
  exact Hd.
Qed.

End PoolRanks.


(** ** Every attempt at the next rank *)

Lemma attempts_next_step (evs d : list event) (sh : shared) :
  dense evs sh -> attempts_next evs -> step_attempts_ok sh d -> attempts_next (evs ++ d).
Proof.
  intros Hd Hn Hs pre so b rank post E.
  apply app_eq_app in E as (l & [(E1 & E2)|(E1 & E2)]).
  - destruct l as [|ev l]; cbn [app] in E2.
    + rewrite app_nil_r in E1. subst pre.
      destruct (Hs [] so b rank post) as (_ & ->); [by rewrite <- E2|].
      by rewrite Hd, length_seq.
    + injection E2 as <- ->. by apply (Hn pre so b rank l).
  - subst pre. destruct (Hs l so b rank post E2) as (Hc & ->).
    by rewrite committed_ranks_app, Hc, app_nil_r, Hd, length_seq.
Qed.

Lemma no_attempt_step (sh : shared) (d : list event) :
  add_attempts d = [] -> step_attempts_ok sh d.
Proof.
  intros Ha pre so b rank post ->.
  rewrite add_attempts_app, add_attempts_call in Ha. by destruct (add_attempts pre).
Qed.

Lemma one_attempt_step (sh : shared) (pre0 aev : list event) (so0 b0 : string) (r0 : nat) :
  add_attempts pre0 = [] -> (forall b, committed_ranks b pre0 = []) ->
  add_attempts aev = [] -> r0 = count_of sh b0 + 1 ->
  step_attempts_ok sh (pre0 ++ EvAddOrderToBatch so0 b0 r0 :: aev).
Proof.
  intros Hp Hc Ha -> pre so b rank post E.
  assert (Hpre : forall l, pre0 = pre ++ l -> committed_ranks b pre = []).
  { intros l ->. specialize (Hc b). rewrite committed_ranks_app in Hc.
    by apply app_eq_nil in Hc as [Hc _]. }
  apply app_eq_app in E as (l & [(E1 & E2)|(E1 & E2)]).
  - destruct l as [|ev l]; cbn [app] in E2.
    + injection E2 as -> -> -> ->. split; [by apply (Hpre [])|done].
    + injection E2 as <- ->. subst pre0.
      rewrite add_attempts_app, add_attempts_call in Hp. by destruct (add_attempts pre).
  - destruct l as [|ev l]; cbn [app] in E2.
    + injection E2 as <- <- <- <-. split; [|done]. apply (Hpre []). by rewrite E1, !app_nil_r.
    + injection E2 as <- ->. rewrite add_attempts_app, add_attempts_call in Ha.
      by destruct (add_attempts l).
Qed.

Lemma ledger_step (evs d : list event) (sh sh' : shared) :
  ledger_ok evs sh -> dense (evs ++ d) sh' -> step_attempts_ok sh d ->
  ledger_ok (evs ++ d) sh'.
Proof. intros (Hd & Hn) Hd' Hs. split; [done|]. by apply (attempts_next_step _ _ sh). Qed.

(** One run of the [try] block by a worker that holds the rank after its
    batch's counter. *)
Lemma order_path_attempts bom ppg soNum sh loc evs r :
  order_path bom ppg soNum sh loc evs r ->
  current_rank loc = count_of sh (batch_name loc) + 1 ->
  step_attempts_ok sh evs.
Proof.
  intros Hpath Hr.
  destruct Hpath as [| |cleanup reply Hcl Hdef
                     |cleanup kev created aev Hcl Hcr Hdef Htr (Hk & Hc & Hf)
                     |cleanup kev created aev Hcl Hcr Hdef Htr (Hk & Hc & Hf)
                     |cleanup kev created Hcl Hcr Hdef Htr].
  - by apply no_attempt_step.
  - by apply no_attempt_step.
  - apply no_attempt_step. destruct (cleanup_projections _ Hcl) as (_ & _ & Ha0 & _).
    by rewrite add_attempts_app, Ha0.
  - destruct (cleanup_projections _ Hcl) as (_ & _ & Ha0 & Hc0 & _).
    destruct (create_facts_projections _ _ _ Hcr) as (Ha1 & Hc1 & _).
    destruct (assign_projections _ Hk) as (_ & _ & Ha2).
    rewrite app_assoc. apply one_attempt_step; [| |done|done].
    + by rewrite add_attempts_app, Ha0, Ha1.
    + intros b. by rewrite committed_ranks_app, Hc0, Hc1.
  - destruct (cleanup_projections _ Hcl) as (_ & _ & Ha0 & Hc0 & _).
    destruct (create_facts_projections _ _ _ Hcr) as (Ha1 & Hc1 & _).
    destruct (assign_projections _ Hk) as (_ & _ & Ha2).
    rewrite app_assoc. apply one_attempt_step; [| |done|done].
    + by rewrite add_attempts_app, Ha0, Ha1.
    + intros b. by rewrite committed_ranks_app, Hc0, Hc1.
  - apply no_attempt_step. destruct (cleanup_projections _ Hcl) as (_ & _ & Ha0 & _).
    destruct (create_facts_projections _ _ _ Hcr) as (Ha1 & _).
    by rewrite add_attempts_app, Ha0, Ha1.
Qed.

Section LedgerFacts.
Context (R : remote) (bom : list bom_row) (ppg : list order_row).

Lemma row_step_attempts thread_id soNum rest sh loc t :
  current_rank loc = count_of sh (batch_name loc) + 1 ->
  step_attempts_ok sh (events_of (row_step R bom ppg thread_id soNum rest sh loc t)).
Proof.
  intros Hr. rewrite row_step_events.
  by apply (order_path_attempts _ _ _ _ _ _ _ (try_order_path R bom ppg soNum sh loc t)).
Qed.

Lemma row_step_dense thread_id soNum rest sh loc evs t :
  dense evs sh -> current_rank loc = count_of sh (batch_name loc) + 1 ->
  let x := row_step R bom ppg thread_id soNum rest sh loc t in
  dense (evs ++ events_of x) (fst (result_of x))
  /\ current_rank (snd (result_of x))
     = count_of (fst (result_of x)) (batch_name (snd (result_of x))) + 1.
Proof.
  intros Hd Hr. cbn zeta.
  destruct (row_step_rank_effect R bom ppg thread_id soNum rest sh loc t) as (Hrow & _ & Hcase).
  set (x := row_step R bom ppg thread_id soNum rest sh loc t) in *.
  assert (Hname : batch_name (snd (result_of x)) = batch_name loc).
  { unfold batch_name. by rewrite Hrow. }
  split.
  - destruct Hcase as [(H1 & H2 & H3)|(H1 & H2 & H3)].
    + by apply (dense_same _ _ sh).
    + apply (dense_commit _ _ sh _ (batch_name loc)); [done| |done].
      intros b. by rewrite H3, Hr.
  - destruct Hcase as [(H1 & H2 & H3)|(H1 & H2 & H3)].
    + by rewrite H2, Hname, H1.
    + rewrite H2, Hname, H1. by rewrite decide_True.
Qed.

Lemma row_loop_ledger thread_id so_list :
  forall sh loc evs t,
    ledger_ok evs sh -> current_rank loc = count_of sh (batch_name loc) + 1 ->
    let x := row_loop R bom ppg thread_id so_list sh loc t in
    ledger_ok (evs ++ events_of x) (fst (result_of x)).
Proof.
  induction so_list as [|soNum rest IH]; intros sh loc evs t Hl Hr; cbn zeta; simpl.
  - by rewrite app_nil_r.
  - msimpl. rewrite app_assoc.
    destruct (row_step_dense thread_id soNum rest sh loc evs t (proj1 Hl) Hr) as (Hd' & Hr').
    apply IH; [|done].
    apply (ledger_step _ _ sh); [done|done|by apply row_step_attempts].
Qed.

Lemma process_single_batch_row_ledger thread_id r sh evs t :
  ledger_ok evs sh ->
  ledger_ok (evs ++ events_of (_process_single_batch_row R bom ppg thread_id r sh t))
            (result_of (_process_single_batch_row R bom ppg thread_id r sh t)).
Proof.
  intros (Hd & Hn). unfold _process_single_batch_row.
  destruct (row_begin_counts thread_id r sh) as (Hc & Hr & Hw & _).
  destruct (row_begin thread_id r sh) as [sh0 loc0]. cbn [fst snd] in *.
  msimpl. rewrite app_nil_r.
  destruct (row_loop_ledger thread_id (todo loc0) sh0 loc0 evs t) as (Hd' & Hn').
  - split; [|done]. intros b. by rewrite Hc.
  - unfold batch_name. by rewrite Hw, Hc.
  - split; [|done]. intros b. rewrite Hd'. reflexivity.
Qed.

Lemma tail_attempt_attempts soNum batch sh t :
  step_attempts_ok sh (events_of (addOrderToBatch R soNum batch (count_of sh batch + 1) t)).
Proof.
  destruct (addOrderToBatch_spec R soNum batch (count_of sh batch + 1) t)
    as (aev & He & Hk & _).
  rewrite He. destruct (assign_projections _ Hk) as (_ & _ & Ha).
  by apply (one_attempt_step sh []).
Qed.

Lemma retry_deferred_one_attempts batch acc soNum t :
  step_attempts_ok (fst acc) (events_of (retry_deferred_one R batch acc soNum t)).
Proof.
  destruct acc as [sh succ]. cbn [fst]. unfold retry_deferred_one. msimpl.
  destruct (df_empty _); [by apply no_attempt_step|]. msimpl.
  pose proof (tail_attempt_attempts soNum batch sh (S t)) as H.
  destruct (result_of (addOrderToBatch R soNum batch _ _)); msimpl; by rewrite app_nil_r.
Qed.

End LedgerFacts.


(** ** Error rows: where they come from *)

Lemma order_path_error_effect bom ppg soNum sh loc evs r :
  order_path bom ppg soNum sh loc evs r ->
  err_files (fst (except_clause soNum sh loc r)) = err_files sh
  /\ df_errors_by_thread (fst (except_clause soNum sh loc r)) = df_errors_by_thread sh
  /\ (df_errors (snd (except_clause soNum sh loc r)) = df_errors loc
      \/ (add_attempts evs = []
          /\ exists rsn,
               df_errors (snd (except_clause soNum sh loc r))
               = df_errors loc ++ [mk_error_row (row loc) soNum rsn]
               /\ (rsn = "create_failed" \/ exists msg, rsn = "Exception: " +:+ msg))).
Proof.
  destruct 1 as [| |cleanup reply Hcl Hdef
                 |cleanup kev created aev Hcl Hcr Hdef Htr Hadd
                 |cleanup kev created aev Hcl Hcr Hdef Htr Hadd
                 |cleanup kev created Hcl Hcr Hdef Htr];
    cbn [except_clause fst snd df_errors]; (split; [done|]); (split; [done|]).
  - right. split; [done|]. eexists. split; [done|]. right. by eexists.
  - right. split; [done|]. eexists. split; [done|]. right. by eexists.
  - by left.
  - by left.
  - by left.
  - right. destruct (cleanup_projections _ Hcl) as (_ & _ & Ha0 & _).
    destruct (create_facts_projections _ _ _ Hcr) as (Ha1 & _).
    split; [by rewrite add_attempts_app, Ha0, Ha1|].
    eexists. split; [done|]. by left.
Qed.

Lemma persist_progress_errors thread_id rest (x : shared * local) :
  df_errors (snd (persist_progress thread_id rest x)) = df_errors (snd x)
  /\ df_errors_by_thread (fst (persist_progress thread_id rest x))
     = df_errors_by_thread (fst x)
  /\ err_files (fst (persist_progress thread_id rest x))
     = if df_empty (df_errors (snd x)) then err_files (fst x)
       else <[thread_id := df_errors (snd x)]> (err_files (fst x)).
Proof.
  destruct x as [sh loc]. cbn [persist_progress fst snd].
  by destruct (df_empty (df_errors loc)).
Qed.

Lemma for_each_keeps {A B C} (f : B -> C) (body : B -> A -> M B) (l : list A) :
  (forall acc x t, f (result_of (body acc x t)) = f acc) ->
  forall acc t, f (result_of (for_each body l acc t)) = f acc.
Proof.
  intros Hbody. induction l as [|x l IH]; intros acc t; simpl; [done|].
  msimpl. by rewrite IH, Hbody.
Qed.

Section ErrorFacts.
Context (R : remote) (bom : list bom_row) (ppg : list order_row).

(** One iteration of the main pass: the error frame grows by at most one
    row, and only in an iteration that did not call [addOrderToBatch]. *)
Lemma row_step_error_effect thread_id soNum rest sh loc t :
  let x := row_step R bom ppg thread_id soNum rest sh loc t in
  df_errors_by_thread (fst (result_of x)) = df_errors_by_thread sh
  /\ err_files (fst (result_of x))
     = (if df_empty (df_errors (snd (result_of x))) then err_files sh
        else <[thread_id := df_errors (snd (result_of x))]> (err_files sh))
  /\ (df_errors (snd (result_of x)) = df_errors loc
      \/ (add_attempts (events_of x) = []
          /\ exists rsn,
               df_errors (snd (result_of x))
               = df_errors loc ++ [mk_error_row (row loc) soNum rsn]
               /\ (rsn = "create_failed" \/ exists msg, rsn = "Exception: " +:+ msg))).
Proof.
  cbn zeta. rewrite row_step_events, row_step_result.
  destruct (order_path_error_effect _ _ _ _ _ _ _ (try_order_path R bom ppg soNum sh loc t))
    as (He & Hb & Hcase).
  destruct (persist_progress_errors thread_id rest
              (except_clause soNum sh loc (result_of (try_order R bom ppg soNum sh loc t))))
    as (Hd & Hb' & He').
  rewrite Hd, Hb', He', He, Hb. done.
Qed.

(** The tail passes write no error row: a final failure is only logged. *)
Lemma retry_deferred_tail_errors sh t :
  err_files (result_of (_retry_deferred_tail R sh t)) = err_files sh.
Proof.
  unfold _retry_deferred_tail. destruct (decide (deferred_map sh = ∅)); [done|].
  msimpl. cbn [err_files set_ok_files].
  refine (for_each_keeps (fun acc => err_files (fst acc)) _ _ _ (sh, []) t).
  intros acc batch t'.
  apply (for_each_keeps (fun acc => err_files (fst acc))). intros acc' soNum t''.
  destruct acc' as [sh' succ]. cbn [fst] in *. unfold retry_deferred_one. msimpl.
  destruct (df_empty _); [done|]. msimpl.
  by destruct (result_of (addOrderToBatch R soNum batch _ _)).
Qed.

Lemma retry_deferred_create_tail_errors sh t :
  err_files (result_of (_retry_deferred_create_then_add_tail R bom sh t)) = err_files sh.
Proof.
  unfold _retry_deferred_create_then_add_tail.
  destruct (decide (deferred_create_map sh = ∅)); [done|].
  msimpl. cbn [err_files set_ok_files].
  refine (for_each_keeps (fun acc => err_files (fst acc)) _ _ _ (sh, []) t).
  intros acc batch t'.
  apply (for_each_keeps (fun acc => err_files (fst acc))). intros acc' soNum t''.
  destruct acc' as [sh' succ]. cbn [fst] in *. unfold retry_create_one. msimpl.
  match goal with |- context [result_of (?c ?t0)] =>
    destruct (result_of (c t0)) as [[|]|]; msimpl; try done end.
  by destruct (result_of (addOrderToBatch R soNum batch _ _)).
Qed.

End ErrorFacts.


(** ** Error rows over the pool *)

Lemma row_begin_errors thread_id r sh :
  err_files (fst (row_begin thread_id r sh)) = err_files sh
  /\ df_errors_by_thread (fst (row_begin thread_id r sh)) = df_errors_by_thread sh
  /\ df_errors (snd (row_begin thread_id r sh))
     = default [] (df_errors_by_thread sh !! thread_id).
Proof. unfold row_begin. by destruct (batch_order_counts sh !! PPG_BatchName r). Qed.

Lemma concat_Forall {A} (P : A -> Prop) (ls : list (list A)) :
  Forall (Forall P) ls -> Forall P (concat ls).
Proof.
  induction 1 as [|l ls Hl _ IH]; simpl; [constructor|]. apply Forall_app. by split.
Qed.

Section PoolErrors.
Context (R : remote) (bom : list bom_row) (ppg : list order_row).

Lemma pool_errors_ok_idle qu qu' ws sh i w :
  (forall loc, w <> Busy loc) ->
  pool_errors_ok (mk_pool qu ws sh) ->
  pool_errors_ok (mk_pool qu' (<[i := w]> ws) sh).
Proof.
  intros Hw (He & Hb & Hl). unfold pool_errors_ok. cbn [q workers store] in *.
  split; [done|]. split; [done|].
  intros j loc Hj. apply list_lookup_insert_Some in Hj as [(-> & -> & _)|(Hne & Hj)].
  - by destruct (Hw loc).
  - by apply (Hl j).
Qed.

Lemma worker_step_errors i p t :
  pool_errors_ok p -> pool_errors_ok (result_of (worker_step R bom ppg i p t)).
Proof.
  destruct p as [qu ws sh]. intros Hok. unfold worker_step. cbn [q workers store].
  destruct (ws !! i) as [[|loc|]|] eqn:Hi; [| |done|done].
  - destruct qu as [|r rest].
    + by apply (pool_errors_ok_idle [] [] ws sh i Exited).
    + destruct (row_begin_errors (S i) r sh) as (He0 & Hb0 & Hd0).
      destruct (row_begin (S i) r sh) as [sh0 loc0]. cbn [fst snd] in *.
      destruct Hok as (He & Hb & Hl). unfold pool_errors_ok. cbn [q workers store] in *.
      cbn. rewrite He0, Hb0. split; [done|]. split; [done|].
      intros j loc Hj. apply list_lookup_insert_Some in Hj as [(<- & E & _)|(Hne & Hj)].
      * injection E as <-. rewrite Hd0.
        destruct (df_errors_by_thread sh !! S i) as [rows|] eqn:E; [|constructor].
        by apply (Hb (S i)).
      * by apply (Hl j).
  - destruct Hok as (He & Hb & Hl). cbn [q workers store] in *.
    destruct (todo loc) as [|soNum rest] eqn:Ht.
    + unfold pool_errors_ok. cbn.
      split; [done|]. split.
      * intros tid rows Hrows.
        apply lookup_insert_Some in Hrows as [(<- & <-)|(_ & Hrows)];
          [by apply (Hl i)|by apply (Hb tid)].
      * intros j l Hj. apply list_lookup_insert_Some in Hj as [(_ & E & _)|(_ & Hj)];
          [discriminate|by apply (Hl j)].
    + msimpl.
      destruct (row_step_error_effect R bom ppg (S i) soNum rest sh loc t)
        as (Hb' & He' & Hcase).
      set (x := row_step R bom ppg (S i) soNum rest sh loc t) in *.
      assert (Hnew : Forall create_or_exception (df_errors (snd (result_of x)))).
      { destruct Hcase as [->|(_ & rsn & -> & Hrsn)]; [by apply (Hl i)|].
        apply Forall_app. split; [by apply (Hl i)|]. constructor; [exact Hrsn|constructor]. }
      unfold pool_errors_ok. cbn [q workers store]. rewrite Hb', He'.
      split; [|split; [done|]].
      * intros tid rows Hrows. destruct (df_empty _); [by apply (He tid)|].
        apply lookup_insert_Some in Hrows as [(_ & <-)|(_ & Hrows)];
          [done|by apply (He tid)].
      * intros j l Hj. apply list_lookup_insert_Some in Hj as [(_ & E & _)|(_ & Hj)].
        -- by injection E as <-.
        -- by apply (Hl j).
Qed.

Lemma initial_pool_errors df_batches num_threads :
  pool_errors_ok (initial_pool df_batches num_threads).
Proof.
  unfold initial_pool, pool_errors_ok. cbn [q workers store].
  split; [intros tid rows H; cbn in H; by rewrite lookup_empty in H|].
  split; [intros tid rows H; cbn in H; by rewrite lookup_empty in H|].
  intros i loc Hi. change (List.map ?f ?l) with (f <$> l) in Hi.
  rewrite list_lookup_fmap in Hi. destruct (worker_ids _ _ !! i); discriminate.
Qed.

(** The combined error table of a run holds rows of failed creates and of
    exceptions only. *)
Lemma pool_run_errors df_batches num_threads schedule t sh :
  result_of (run_specificBatches_optimized R bom ppg df_batches num_threads schedule t)
  = Some sh ->
  Forall create_or_exception (combine_error_parquet_files sh).
Proof.
  unfold run_specificBatches_optimized.
  destruct (df_empty (batch_rows df_batches)); [discriminate|].
  destruct (n_workers num_threads _ <=? 0)%Z; [discriminate|].
  set (p0 := initial_pool df_batches num_threads).
  destruct (main_pass_as_schedule R bom ppg schedule p0 t) as (sched & E).
  rewrite <- (bind_assoc (run_schedule R bom ppg schedule p0) (join_pool R bom ppg)
                (fun p2 => bind (_retry_deferred_tail R (store p2))
                   (fun sh1 => bind (_retry_deferred_create_then_add_tail R bom sh1)
                      (fun sh2 => ret (Some sh2)))) t).
  rewrite (bind_cong_l _ _ _ _ E).
  msimpl. intros [= <-]. unfold combine_error_parquet_files.
  rewrite retry_deferred_create_tail_errors, retry_deferred_tail_errors.
  pose proof (run_schedule_invariant R bom ppg (fun _ p => pool_errors_ok p)
                (fun i evs p t => worker_step_errors i p t) sched [] p0 t
                (initial_pool_errors df_batches num_threads)) as (He & _).
  apply concat_Forall, Forall_forall. intros rows Hrows.
  apply list_elem_of_fmap in Hrows as ([tid rows'] & -> & Hin).
  apply elem_of_map_to_list in Hin. by apply (He tid).
Qed.

End PoolErrors.


(** ** C4 *)

(** C4 as stated fails.  First run: every update of a work-order-line is
    answered with 500; SO1 and SO2 fail the two attempts on their first line
    in the main pass and again in the deferred-assign tail.  Second run:
    every create is answered with 500 and the orders never become visible;
    the deferred-create tail gets 500 again and gives up.  In both runs the
    combined error table is empty. *)
Lemma terminal_failure_not_in_error_table :
  let R1 := scripted_remote 0 (Reply 201 None) (fun _ => Reply 500 None) in
  let x1 := run_specificBatches_optimized R1 example_bom example_ppg example_frame_one 2 [] 0 in
  let R2 := scripted_remote 1000 (Reply 500 None) (fun _ => Reply 200 None) in
  let x2 := run_specificBatches_optimized R2 example_bom example_ppg example_frame_one 2 [] 0 in
  (first_line_replies "SO1" (events_of x1)
   = [Reply 500 None; Reply 500 None; Reply 500 None; Reply 500 None]
   /\ add_attempts (events_of x1)
      = [("SO1", "B1", 1); ("SO2", "B1", 1); ("SO1", "B1", 1); ("SO2", "B1", 1)]
   /\ combine_error_parquet_files <$> result_of x1 = Some [])
  /\ (List.filter is_create (events_of x2)
      = [EvOrderCreate "SO1" (Reply 500 None); EvOrderCreate "SO2" (Reply 500 None);
         EvOrderCreate "SO1" (Reply 500 None); EvOrderCreate "SO2" (Reply 500 None)]
      /\ add_attempts (events_of x2) = []
      /\ combine_error_parquet_files <$> result_of x2 = Some []).
Proof. vm_compute. auto. Qed.

(** C4, amended — a sales order that terminally fails assignment gets no
    row in the error table.  In the main pass an iteration that called
    [addOrderToBatch] leaves the error frame as it was, and one whose
    attempts on the first line were all refused queues the order in the
    deferred-assign map; the error frame grows only by a row with reason
    [create_failed] or [Exception: ...], in an iteration without a call of
    [addOrderToBatch].  Both tail passes leave the error files as they were:
    a final failure is logged only.  So every row of the combined error
    table of a run has one of these two reasons.  Every iteration goes on
    with the rest of the batch's sales orders. *)
Theorem assign_failure_is_logged_only (R : remote) (bom : list bom_row) (ppg : list order_row) :
  (forall thread_id soNum rest sh loc t,
     let x := row_step R bom ppg thread_id soNum rest sh loc t in
     todo (snd (result_of x)) = rest
     /\ (add_attempts (events_of x) <> [] -> df_errors (snd (result_of x)) = df_errors loc)
     /\ (first_line_replies soNum (events_of x) <> [] ->
         Forall (fun reply => is_200 reply = false) (first_line_replies soNum (events_of x)) ->
         deferred_map (fst (result_of x))
         = setdefault_append (deferred_map sh) (batch_name loc) soNum
         /\ df_errors (snd (result_of x)) = df_errors loc)
     /\ (df_errors (snd (result_of x)) = df_errors loc
         \/ exists rsn,
              df_errors (snd (result_of x))
              = df_errors loc ++ [mk_error_row (row loc) soNum rsn]
              /\ (rsn = "create_failed" \/ exists msg, rsn = "Exception: " +:+ msg)))
  /\ (forall sh t, err_files (result_of (_retry_deferred_tail R sh t)) = err_files sh)
  /\ (forall sh t,
        err_files (result_of (_retry_deferred_create_then_add_tail R bom sh t)) = err_files sh)
  /\ (forall df_batches num_threads schedule t sh,
        result_of (run_specificBatches_optimized R bom ppg df_batches num_threads schedule t)
        = Some sh ->
        Forall create_or_exception (combine_error_parquet_files sh)).
Proof.
  split; [|split; [|split]].
  - intros thread_id soNum rest sh loc t x.
    destruct (row_step_rank_effect R bom ppg thread_id soNum rest sh loc t) as (_ & Ht & _).
    destruct (row_step_error_effect R bom ppg thread_id soNum rest sh loc t)
      as (_ & _ & Hcase).
    fold x in Ht, Hcase. split; [exact Ht|]. split; [|split].
    + intros Hne. destruct Hcase as [H|(H & _)]; [exact H|]. by destruct Hne.
    + intros Hne Hall. subst x. rewrite row_step_events in Hne, Hall.
      destruct (order_path_first_line_inv _ _ _ _ _ _ _
                  (try_order_path R bom ppg soNum sh loc t) Hne Hall) as (_ & _ & Hr).
      rewrite row_step_result, Hr. cbn [except_clause].
      destruct (persist_progress_keeps thread_id rest
                  (set_deferred_map sh
                     (setdefault_append (deferred_map sh) (batch_name loc) soNum), loc))
        as (_ & _ & _ & _ & Hd & _).
      destruct (persist_progress_errors thread_id rest
                  (set_deferred_map sh
                     (setdefault_append (deferred_map sh) (batch_name loc) soNum), loc))
        as (He & _).
      by rewrite Hd, He.
    + destruct Hcase as [H|(_ & rsn & H & Hrsn)]; [by left|right; by exists rsn].
  - apply retry_deferred_tail_errors.
  - apply retry_deferred_create_tail_errors.
  - apply pool_run_errors.
Qed.

Lemma assign_failure_is_logged_only_witness :
  let R := scripted_remote 0 (Reply 201 None) (fun _ => Reply 500 None) in
  let x := row_step R example_bom example_ppg 1 "SO1" ["SO2"] example_shared example_local 0 in
  add_attempts (events_of x) <> []
  /\ first_line_replies "SO1" (events_of x) = [Reply 500 None; Reply 500 None]
  /\ deferred_map (fst (result_of x)) !! "B1" = Some ["SO1"]
  /\ df_errors (snd (result_of x)) = []
  /\ todo (snd (result_of x)) = ["SO2"].
Proof.
  intros R x.
  assert (Ha : add_attempts (events_of x) <> []) by (vm_compute; discriminate).
  assert (Hrep : first_line_replies "SO1" (events_of x) = [Reply 500 None; Reply 500 None])
    by (vm_compute; reflexivity).
  destruct (proj1 (assign_failure_is_logged_only R example_bom example_ppg)
              1 "SO1" ["SO2"] example_shared example_local 0) as (Ht & He & Hd & _).
  fold x in Ht, He, Hd.
  destruct Hd as (Hd & _).
  { rewrite Hrep. discriminate. }
  { rewrite Hrep. by repeat constructor. }
  split; [exact Ha|]. split; [exact Hrep|].
  split; [rewrite Hd; reflexivity|]. split; [exact (He Ha)|exact Ht].
Defined.


(** ** Counting create requests *)

Lemma listed_cons so x l :
  listed so (x :: l) = (if String.eqb so x then 1 else 0) + listed so l.
Proof. unfold listed. simpl. by destruct (String.eqb so x). Qed.

Lemma listed_nil so : listed so [] = 0.
Proof. reflexivity. Qed.

Lemma listed_app so l1 l2 : listed so (l1 ++ l2) = listed so l1 + listed so l2.
Proof. unfold listed. by rewrite List.filter_app, length_app. Qed.

Lemma sum_list_with_indicator so l :
  sum_list_with (fun x => if String.eqb so x then 1 else 0) l = listed so l.
Proof. induction l as [|x l IH]; [done|]. by rewrite listed_cons, <- IH. Qed.

Lemma sum_list_with_insert {A} (f : A -> nat) (l : list A) (i : nat) (x old : A) :
  l !! i = Some old ->
  sum_list_with f (<[i := x]> l) + f old = sum_list_with f l + f x.
Proof.
  revert i. induction l as [|y l IH]; intros [|i] Hi; try done; simpl in *.
  - injection Hi as ->. lia.
  - specialize (IH i Hi). lia.
Qed.

Lemma sum_list_with_ext_in {A} (f g : A -> nat) (l : list A) :
  (forall x, x ∈ l -> f x = g x) -> sum_list_with f l = sum_list_with g l.
Proof.
  induction l as [|y l IH]; intros H; simpl; [done|].
  rewrite (H y) by apply list_elem_of_here.
  rewrite IH; [done|]. intros x Hx. apply H. by apply list_elem_of_further.
Qed.

Lemma sum_list_with_map {A B} (f : B -> nat) (g : A -> B) (l : list A) :
  sum_list_with f (g <$> l) = sum_list_with (fun x => f (g x)) l.
Proof. induction l as [|y l IH]; csimpl; [done|]. by rewrite IH. Qed.

(** Queueing one more deferred create. *)
Lemma deferred_creates_append so d batch soNum :
  deferred_creates so (setdefault_append d batch soNum)
  = deferred_creates so d + (if String.eqb so soNum then 1 else 0).
Proof.
  unfold deferred_creates, setdefault_append.
  destruct (d !! batch) as [old|] eqn:E; cbn [default id].
  - rewrite <- insert_delete_eq.
    rewrite map_to_list_insert by apply lookup_delete_eq.
    rewrite <- (sum_list_with_Permutation_proper _ _ _ (map_to_list_delete d batch old E)).
    cbn [sum_list_with snd].
    rewrite listed_app, listed_cons, listed_nil. lia.
  - rewrite map_to_list_insert by done. cbn [sum_list_with snd app].
    rewrite listed_cons, listed_nil. lia.
Qed.

Lemma deferred_creates_sorted_keys so d :
  sum_list_with (fun batch => listed so (default [] (d !! batch))) (sorted_keys d)
  = deferred_creates so d.
Proof.
  unfold sorted_keys, deferred_creates.
  rewrite stable_sort_Permutation, sum_list_with_map.
  apply sum_list_with_ext_in. intros [k v] Hkv. cbn [fst snd].
  apply elem_of_map_to_list in Hkv. by rewrite Hkv.
Qed.

Lemma create_submissions_call so order batch rank l :
  create_submissions so (EvAddOrderToBatch order batch rank :: l) = create_submissions so l.
Proof. reflexivity. Qed.

(** What one run of the [try] block does to the deferred-create map. *)
Lemma order_path_create_effect bom ppg soNum sh loc evs r :
  order_path bom ppg soNum sh loc evs r ->
  deferred_create_map (fst (except_clause soNum sh loc r)) = deferred_create_map sh
  \/ (deferred_create_map (fst (except_clause soNum sh loc r))
      = setdefault_append (deferred_create_map sh) (batch_name loc) soNum
      /\ create_submissions soNum evs = 1
      /\ add_attempts evs = []).
Proof.
  destruct 1 as [| |cleanup reply Hcl Hdef
                 |cleanup kev created aev Hcl Hcr Hdef Htr Hadd
                 |cleanup kev created aev Hcl Hcr Hdef Htr Hadd
                 |cleanup kev created Hcl Hcr Hdef Htr];
    cbn [except_clause fst snd]; try (by left).
  right. destruct (cleanup_projections _ Hcl) as (_ & Hc0 & Ha0 & _).
  split; [done|]. split.
  - rewrite create_submissions_app, Hc0. unfold create_submissions. simpl.
    by rewrite String.eqb_refl.
  - by rewrite add_attempts_app, Ha0.
Qed.


(** ** Create requests over the main pass *)

Lemma row_begin_maps thread_id r sh :
  deferred_create_map (fst (row_begin thread_id r sh)) = deferred_create_map sh
  /\ deferred_map (fst (row_begin thread_id r sh)) = deferred_map sh.
Proof. unfold row_begin. by destruct (batch_order_counts sh !! PPG_BatchName r). Qed.

Section CreateFacts.
Context (R : remote) (bom : list bom_row) (ppg : list order_row).

(** One iteration: at most one create, for the iteration's own order, and
    one more entry in the deferred-create map only after a create. *)
Lemma row_step_create_effect so thread_id soNum rest sh loc t :
  let x := row_step R bom ppg thread_id soNum rest sh loc t in
  create_submissions so (events_of x) <= (if String.eqb so soNum then 1 else 0)
  /\ deferred_creates so (deferred_create_map (fst (result_of x)))
     <= deferred_creates so (deferred_create_map sh) + create_submissions so (events_of x).
Proof.
  cbn zeta. rewrite row_step_events, row_step_result.
  pose proof (try_order_path R bom ppg soNum sh loc t) as Hpath.
  destruct (order_path_projections _ _ _ _ _ _ _ Hpath) as (Hother & Hle & _).
  destruct (persist_progress_keeps thread_id rest
              (except_clause soNum sh loc (result_of (try_order R bom ppg soNum sh loc t))))
    as (_ & _ & _ & _ & _ & Hdc & _).
  rewrite Hdc.
  destruct (order_path_create_effect _ _ _ _ _ _ _ Hpath) as [->|(-> & Hone & _)].
  - destruct (String.eqb_spec so soNum) as [->|Hne]; [lia|].
    rewrite (Hother so Hne). lia.
  - rewrite deferred_creates_append.
    destruct (String.eqb_spec so soNum) as [->|Hne]; [lia|].
    rewrite (Hother so Hne). lia.
Qed.

Lemma worker_step_creates so n i evs p t :
  pool_creates_ok so n evs p ->
  pool_creates_ok so n (evs ++ events_of (worker_step R bom ppg i p t))
                  (result_of (worker_step R bom ppg i p t)).
Proof.
  destruct p as [qu ws sh]. unfold pool_creates_ok, pending, listed_in, worker_step.
  cbn [q workers store]. intros [Hn Hd].
  destruct (ws !! i) as [[|loc|]|] eqn:Hi;
    [| |by rewrite app_nil_r|by rewrite app_nil_r].
  - destruct qu as [|r rest].
    + cbn. rewrite app_nil_r.
      pose proof (sum_list_with_insert (worker_pending so) ws i Exited Waiting Hi) as Hs.
      cbn [worker_pending] in Hs. split; [lia|done].
    + destruct (row_begin_counts (S i) r sh) as (_ & _ & _ & Ht0).
      destruct (row_begin_maps (S i) r sh) as (Hdc0 & _).
      destruct (row_begin (S i) r sh) as [sh0 loc0]. cbn [fst snd] in *.
      cbn. rewrite app_nil_r, Hdc0.
      pose proof (sum_list_with_insert (worker_pending so) ws i (Busy loc0) Waiting Hi) as Hs.
      cbn [worker_pending] in Hs. rewrite Ht0 in Hs.
      cbn [sum_list_with] in Hn. unfold row_tasks in Hn at 1.
      split; [lia|done].
  - destruct (todo loc) as [|soNum rest] eqn:Ht.
    + cbn. rewrite app_nil_r.
      pose proof (sum_list_with_insert (worker_pending so) ws i Waiting (Busy loc) Hi) as Hs.
      cbn [worker_pending] in Hs. rewrite Ht, listed_nil in Hs. split; [lia|done].
    + msimpl. rewrite app_nil_r, create_submissions_app.
      destruct (row_step_create_effect so (S i) soNum rest sh loc t) as (Hc & Hdc).
      destruct (row_step_rank_effect R bom ppg (S i) soNum rest sh loc t) as (_ & Ht' & _).
      set (x := row_step R bom ppg (S i) soNum rest sh loc t) in *.
      pose proof (sum_list_with_insert (worker_pending so) ws i
                    (Busy (snd (result_of x))) (Busy loc) Hi) as Hs.
      cbn [worker_pending] in Hs. rewrite Ht, Ht', listed_cons in Hs.
      cbn [q workers store]. split; lia.
Qed.

Lemma initial_pool_creates so df_batches num_threads :
  pool_creates_ok so (listed_in so (batch_rows df_batches)) []
                  (initial_pool df_batches num_threads).
Proof.
  unfold pool_creates_ok, pending, initial_pool. cbn [q workers store].
  change (List.map ?f ?l) with (f <$> l). rewrite sum_list_with_map.
  cbn [worker_pending].
  assert (Hz : forall l : list nat, sum_list_with (fun _ => 0) l = 0).
  { induction l as [|y l IH]; simpl; [done|exact IH]. }
  rewrite Hz. split; [|done].
  assert (Hperm : listed_in so (df_batches_sorted df_batches)
                  = listed_in so (batch_rows df_batches)).
  { unfold listed_in, df_batches_sorted.
    destruct (has_minDocDueDate df_batches); by rewrite stable_sort_Permutation. }
  rewrite Hperm. cbn. lia.
Qed.

(** The main pass submits at most one create per listing of the order,
    and queues at most as many deferred creates as it submitted. *)
Lemma main_pass_creates so df_batches num_threads sched t :
  let x := run_schedule R bom ppg sched (initial_pool df_batches num_threads) t in
  create_submissions so (events_of x) <= listed_in so (batch_rows df_batches)
  /\ deferred_creates so (deferred_create_map (store (result_of x)))
     <= create_submissions so (events_of x).
Proof.
  cbn zeta.
  pose proof (run_schedule_invariant R bom ppg
                (pool_creates_ok so (listed_in so (batch_rows df_batches)))
                (fun i evs p t => worker_step_creates so _ i evs p t) sched []
                (initial_pool df_batches num_threads) t
                (initial_pool_creates so df_batches num_threads)) as (Hn & Hd).
  cbn [app] in *. split; [lia|done].
Qed.

End CreateFacts.


(** ** Create requests in the tail passes *)

Lemma for_each_creates_bound {A B} so (w : A -> nat) (body : B -> A -> M B) (l : list A) :
  (forall acc x t, create_submissions so (events_of (body acc x t)) <= w x) ->
  forall acc t,
    create_submissions so (events_of (for_each body l acc t)) <= sum_list_with w l.
Proof.
  intros Hbody. induction l as [|x l IH]; intros acc t; simpl; [done|].
  msimpl. rewrite create_submissions_app.
  specialize (Hbody acc x t).
  specialize (IH (result_of (body acc x t)) (clock_of (body acc x t))). lia.
Qed.

Lemma for_each_no_creates {A B} so (body : B -> A -> M B) (l : list A) :
  (forall acc x t, create_submissions so (events_of (body acc x t)) = 0) ->
  forall acc t, create_submissions so (events_of (for_each body l acc t)) = 0.
Proof.
  intros Hbody. induction l as [|x l IH]; intros acc t; simpl; [done|].
  msimpl. by rewrite create_submissions_app, Hbody, IH.
Qed.

Section TailFacts.
Context (R : remote) (bom : list bom_row).

Lemma addOrderToBatch_creates so soNum batch rank t :
  create_submissions so (events_of (addOrderToBatch R soNum batch rank t)) = 0.
Proof.
  destruct (addOrderToBatch_spec R soNum batch rank t) as (aev & He & Hk & _).
  rewrite He, create_submissions_call. by destruct (assign_projections _ Hk) as (_ & H & _).
Qed.

(** The attempt both tails make once an order is there: one call of
    [addOrderToBatch] at the rank after the counter; the deferred maps are
    left alone. *)
Lemma tail_attempt_spec soNum batch sh (succ : list (string * list string)) t :
  let y := bind (addOrderToBatch R soNum batch (count_of sh batch + 1))
             (fun success : bool =>
                if success
                then ret (set_counts sh (<[batch := count_of sh batch + 1]>
                                           (batch_order_counts sh)),
                          dict_append succ batch soNum)
                else ret (sh, succ)) t in
  (exists aev, events_of y = EvAddOrderToBatch soNum batch (count_of sh batch + 1) :: aev
               /\ Forall (fun ev => add_attempt ev = None /\ is_assign_event ev = true) aev)
  /\ deferred_create_map (fst (result_of y)) = deferred_create_map sh
  /\ deferred_map (fst (result_of y)) = deferred_map sh.
Proof.
  cbn zeta. msimpl.
  destruct (addOrderToBatch_spec R soNum batch (count_of sh batch + 1) t)
    as (aev & He & Hk & _).
  destruct (result_of (addOrderToBatch R soNum batch _ t)); msimpl;
    rewrite app_nil_r; (split; [by exists aev|done]).
Qed.

Lemma retry_deferred_one_creates so batch acc soNum t :
  create_submissions so (events_of (retry_deferred_one R batch acc soNum t)) = 0
  /\ deferred_create_map (fst (result_of (retry_deferred_one R batch acc soNum t)))
     = deferred_create_map (fst acc).
Proof.
  destruct acc as [sh succ]. unfold retry_deferred_one. msimpl.
  destruct (df_empty _); [done|].
  destruct (tail_attempt_spec soNum batch sh succ (S t)) as ((aev & -> & Hk) & -> & _).
  cbn [app]. rewrite create_submissions_call.
  by destruct (assign_projections _ Hk) as (_ & H & _).
Qed.

Lemma retry_deferred_tail_creates so sh t :
  create_submissions so (events_of (_retry_deferred_tail R sh t)) = 0
  /\ deferred_create_map (result_of (_retry_deferred_tail R sh t)) = deferred_create_map sh.
Proof.
  unfold _retry_deferred_tail. destruct (decide (deferred_map sh = ∅)); [done|].
  msimpl. rewrite app_nil_r. cbn [deferred_create_map set_ok_files]. split.
  - apply for_each_no_creates. intros acc batch t'.
    apply for_each_no_creates. intros acc' soNum t''.
    apply retry_deferred_one_creates.
  - refine (for_each_keeps (fun acc => deferred_create_map (fst acc)) _ _ _ (sh, []) t).
    intros acc batch t'.
    apply (for_each_keeps (fun acc => deferred_create_map (fst acc))).
    intros acc' soNum t''. apply (retry_deferred_one_creates "").
Qed.

End TailFacts.


Section CreateTailFacts.
Context (R : remote) (bom : list bom_row).

Lemma final_visibility_wait_events soNum t :
  events_of (_final_visibility_wait_for_order R soNum t) = [].
Proof. unfold _final_visibility_wait_for_order. msimpl. apply poll_order_visible_events. Qed.

(** One entry of the deferred-create tail: the create, if any, and then
    the call of [addOrderToBatch], if any. *)
Lemma retry_create_one_spec batch acc soNum t :
  let x := retry_create_one R bom batch acc soNum t in
  let visible := result_of (_final_visibility_wait_for_order R soNum t) in
  exists kev aev,
    events_of x = kev ++ aev
    /\ (visible = true -> kev = [])
    /\ (kev = []
        \/ exists reply,
             kev = [EvOrderCreate soNum reply] /\ visible = false
             /\ (is_defer_create (create_outcome reply) = true
                 \/ truthy (create_outcome reply) = false ->
                 aev = [] /\ result_of x = acc))
    /\ (aev = []
        \/ exists aev',
             aev = EvAddOrderToBatch soNum batch (count_of (fst acc) batch + 1) :: aev'
             /\ Forall (fun ev => add_attempt ev = None /\ is_assign_event ev = true) aev')
    /\ deferred_create_map (fst (result_of x)) = deferred_create_map (fst acc)
    /\ deferred_map (fst (result_of x)) = deferred_map (fst acc).
Proof.
  destruct acc as [sh succ]. cbn zeta. cbn [fst]. unfold retry_create_one.
  rewrite bind_unfold, final_visibility_wait_events.
  cbn [result_of events_of clock_of fst snd app].
  set (w := _final_visibility_wait_for_order R soNum t).
  destruct (result_of w) eqn:Hvis.
  - rewrite bind_ret_l.
    destruct (tail_attempt_spec R soNum batch sh succ (clock_of w))
      as ((aev & He & Hk) & Hdc & Hd).
    exists [], (EvAddOrderToBatch soNum batch (count_of sh batch + 1) :: aev).
    rewrite He, Hdc, Hd.
    split; [done|]. split; [done|]. split; [by left|]. split; [|done].
    right. by exists aev.
  - destruct bom as [|b0 bom'] eqn:Ebom.
    + rewrite bind_ret_l. exists [], [].
      split; [done|]. split; [done|]. split; [by left|]. split; [by left|done].
    + rewrite <- Ebom. rewrite bind_assoc, bind_unfold.
      cbn [result_of events_of clock_of fst snd].
      set (c := createOrder R soNum _ (clock_of w)).
      pose proof (createOrder_facts R soNum
                    (List.filter (fun r => String.eqb (DocNum r) soNum) bom) (clock_of w))
        as Hcr.
      fold c in Hcr.
      destruct (is_defer_create (result_of c)) eqn:Hdef.
      * rewrite !bind_ret_l. exists (events_of c), [].
        split; [done|]. split; [done|]. split; [|split; [by left|done]].
        destruct Hcr as [(Hk & _)|(reply & Hk & Hres)]; [by left|].
        right. exists reply. by split.
      * rewrite !bind_ret_l. destruct (truthy (result_of c)) eqn:Htr.
        -- destruct (tail_attempt_spec R soNum batch sh succ (clock_of c))
             as ((aev & He & Hk) & Hdc & Hd).
           exists (events_of c), (EvAddOrderToBatch soNum batch (count_of sh batch + 1) :: aev).
           rewrite He, Hdc, Hd.
           split; [done|]. split; [done|]. split; [|split; [|done]].
           ++ destruct Hcr as [(Hk' & _)|(reply & Hk' & Hres)]; [by left|].
              right. exists reply. split; [done|]. split; [done|].
              rewrite <- Hres, Hdef, Htr. by intros [?|?].
           ++ right. by exists aev.
        -- exists (events_of c), [].
           split; [done|]. split; [done|]. split; [|split; [by left|done]].
           destruct Hcr as [(Hk & _)|(reply & Hk & Hres)]; [by left|].
           right. exists reply. by split.
Qed.

End CreateTailFacts.


Section CreateBound.
Context (R : remote) (bom : list bom_row) (ppg : list order_row).

Lemma retry_create_one_creates so batch acc soNum t :
  create_submissions so (events_of (retry_create_one R bom batch acc soNum t))
  <= (if String.eqb so soNum then 1 else 0).
Proof.
  destruct (retry_create_one_spec R bom batch acc soNum t)
    as (kev & aev & -> & _ & Hkev & Haev & _).
  rewrite create_submissions_app.
  assert (Ha : create_submissions so aev = 0).
  { destruct Haev as [->|(aev' & -> & Hk)]; [done|].
    rewrite create_submissions_call. by destruct (assign_projections _ Hk) as (_ & H & _). }
  rewrite Ha. destruct Hkev as [->|(reply & -> & _)]; [cbn; lia|].
  unfold create_submissions. cbn. rewrite String.eqb_sym.
  destruct (String.eqb so soNum); cbn; lia.
Qed.

(** The deferred-create tail submits at most one create per queued
    entry. *)
Lemma create_tail_creates so sh t :
  create_submissions so (events_of (_retry_deferred_create_then_add_tail R bom sh t))
  <= deferred_creates so (deferred_create_map sh).
Proof.
  unfold _retry_deferred_create_then_add_tail.
  destruct (decide (deferred_create_map sh = ∅)); [cbn; lia|].
  msimpl. rewrite app_nil_r, <- deferred_creates_sorted_keys.
  apply for_each_creates_bound. intros acc batch t'.
  rewrite <- sum_list_with_indicator.
  apply for_each_creates_bound. intros acc' soNum t''.
  apply retry_create_one_creates.
Qed.

(** Over a whole run, at most two creates per listing of the order in
    the batch table. *)
Lemma pool_run_creates so df_batches num_threads schedule t :
  create_submissions so
    (events_of (run_specificBatches_optimized R bom ppg df_batches num_threads schedule t))
  <= 2 * listed_in so (batch_rows df_batches).
Proof.
  unfold run_specificBatches_optimized.
  destruct (df_empty (batch_rows df_batches)); [cbn; lia|].
  destruct (n_workers num_threads _ <=? 0)%Z; [cbn; lia|].
  set (p0 := initial_pool df_batches num_threads).
  destruct (main_pass_as_schedule R bom ppg schedule p0 t) as (sched & E).
  rewrite <- (bind_assoc (run_schedule R bom ppg schedule p0) (join_pool R bom ppg)
                (fun p2 => bind (_retry_deferred_tail R (store p2))
                   (fun sh1 => bind (_retry_deferred_create_then_add_tail R bom sh1)
                      (fun sh2 => ret (Some sh2)))) t).
  rewrite (bind_cong_l _ _ _ _ E).
  msimpl. rewrite app_nil_r, !create_submissions_app.
  destruct (main_pass_creates R bom ppg so df_batches num_threads sched t) as (Hm & Hd).
  fold p0 in Hm, Hd.
  set (x := run_schedule R bom ppg sched p0 t) in *.
  destruct (retry_deferred_tail_creates R so (store (result_of x)) (clock_of x))
    as (Hz & Hsame).
  set (y := _retry_deferred_tail R (store (result_of x)) (clock_of x)) in *.
  pose proof (create_tail_creates so (result_of y) (clock_of y)) as Ht.
  rewrite Hsame in Ht. lia.
Qed.

End CreateBound.


(** ** C3 *)

Lemma create_not_in_attempt soNum reply order batch rank aev :
  Forall (fun ev => add_attempt ev = None /\ is_assign_event ev = true) aev ->
  EvOrderCreate soNum reply ∉ EvAddOrderToBatch order batch rank :: aev.
Proof.
  intros Hk Hin. apply elem_of_cons in Hin as [Hin|Hin]; [discriminate|].
  rewrite Forall_forall in Hk. by destruct (Hk _ Hin) as [_ H].
Qed.

(** C3 as stated fails.  The row of batch B lists SO1 twice, every create
    is answered with 500 and the order never becomes visible: the main pass
    submits the create in both iterations and queues SO1 twice in the
    deferred-create map, and the tail submits it once more for each entry.
    The create for SO1 is submitted four times. *)
Lemma create_500_submitted_four_times :
  let R := scripted_remote 1000 (Reply 500 None) (fun _ => Reply 200 None) in
  let x := run_specificBatches_optimized R example_bom example_ppg example_frame_twice 1 [] 0 in
  List.filter is_create (events_of x)
  = [EvOrderCreate "SO1" (Reply 500 None); EvOrderCreate "SO1" (Reply 500 None);
     EvOrderCreate "SO1" (Reply 500 None); EvOrderCreate "SO1" (Reply 500 None)]
  /\ create_submissions "SO1" (events_of x) = 4
  /\ ~ create_submissions "SO1" (events_of x) <= 2
  /\ (fun sh => entries (deferred_create_map sh) "B") <$> result_of x = Some ["SO1"; "SO1"].
Proof. vm_compute. repeat split; try reflexivity. lia. Qed.

(** C3, amended — at most one duplicate create per listing.  Over a whole
    run of the pool, under every interleaving of the workers, the create
    request for a sales order is submitted at most twice per listing of the
    order in the batch table, so at most twice for an order listed once: at
    most once by the main-pass iteration for the order, and at most once by
    the deferred-create tail.  The tail submits it only when the final
    visibility wait did not see the order; when the answer is 500 again the
    tail gives up: it does not call [addOrderToBatch], its result is the one
    it started from, and it queues the order nowhere. *)
Theorem create_submitted_at_most_twice
    (R : remote) (bom : list bom_row) (ppg : list order_row) :
  (forall df_batches num_threads schedule t so,
     let x := run_specificBatches_optimized R bom ppg df_batches num_threads schedule t in
     create_submissions so (events_of x) <= 2 * listed_in so (batch_rows df_batches)
     /\ (listed_in so (batch_rows df_batches) = 1 -> create_submissions so (events_of x) <= 2))
  /\ (forall thread_id soNum rest sh loc t so,
        create_submissions so (events_of (row_step R bom ppg thread_id soNum rest sh loc t))
        <= (if String.eqb so soNum then 1 else 0))
  /\ (forall batch acc soNum t,
        let x := retry_create_one R bom batch acc soNum t in
        (forall so, create_submissions so (events_of x)
                    <= (if String.eqb so soNum then 1 else 0))
        /\ (result_of (_final_visibility_wait_for_order R soNum t) = true ->
            forall so, create_submissions so (events_of x) = 0)
        /\ (forall body, EvOrderCreate soNum (Reply 500 body) ∈ events_of x ->
              add_attempts (events_of x) = [] /\ result_of x = acc)
        /\ deferred_create_map (fst (result_of x)) = deferred_create_map (fst acc)
        /\ deferred_map (fst (result_of x)) = deferred_map (fst acc)).
Proof.
  split; [|split].
  - intros df_batches num_threads schedule t so x.
    pose proof (pool_run_creates R bom ppg so df_batches num_threads schedule t) as H.
    fold x in H. split; [exact H|]. intros Hone. rewrite Hone in H. exact H.
  - intros thread_id soNum rest sh loc t so.
    apply (row_step_create_effect R bom ppg so thread_id soNum rest sh loc t).
  - intros batch acc soNum t x.
    split; [intros so; apply retry_create_one_creates|].
    destruct (retry_create_one_spec R bom batch acc soNum t)
      as (kev & aev & He & Hvis & Hkev & Haev & Hdc & Hd).
    fold x in He, Hdc, Hd. rewrite He.
    assert (Ha : forall so, create_submissions so aev = 0).
    { intros so. destruct Haev as [->|(aev' & -> & Hk)]; [done|].
      rewrite create_submissions_call. by destruct (assign_projections _ Hk) as (_ & H & _). }
    split; [|split; [|by split]].
    + intros Htrue so. by rewrite create_submissions_app, Ha, (Hvis Htrue).
    + intros body Hin. apply elem_of_app in Hin as [Hin|Hin].
      * destruct Hkev as [->|(reply & -> & _ & Hgive)]; [by apply elem_of_nil in Hin|].
        apply list_elem_of_singleton in Hin. injection Hin as <-.
        destruct Hgive as [-> Hacc]; [by left|]. done.
      * exfalso. destruct Haev as [->|(aev' & -> & Hk)]; [by apply elem_of_nil in Hin|].
        by apply (create_not_in_attempt _ _ _ _ _ _ Hk) in Hin.
Qed.

Lemma create_submitted_at_most_twice_witness :
  let R := scripted_remote 1000 (Reply 500 None) (fun _ => Reply 200 None) in
  let x := run_specificBatches_optimized R example_bom example_ppg example_frame 2
             [0; 1; 1; 0] 0 in
  let y := retry_create_one R example_bom "B1" (example_shared, []) "SO1" 0 in
  listed_in "SO1" (batch_rows example_frame) = 1
  /\ create_submissions "SO1" (events_of x) = 2
  /\ create_submissions "SO1" (events_of x) <= 2
  /\ EvOrderCreate "SO1" (Reply 500 None) ∈ events_of y
  /\ add_attempts (events_of y) = []
  /\ result_of y = (example_shared, []).
Proof.
  intros R x y.
  assert (Hone : listed_in "SO1" (batch_rows example_frame) = 1) by (vm_compute; reflexivity).
  assert (Hin : EvOrderCreate "SO1" (Reply 500 None) ∈ events_of y).
  { vm_compute. apply list_elem_of_here. }
  destruct (create_submitted_at_most_twice R example_bom example_ppg) as (Hrun & _ & Htail).
  destruct (Hrun example_frame 2%Z [0; 1; 1; 0] 0 "SO1") as (_ & Hle).
  destruct (Htail "B1" (example_shared, []) "SO1" 0) as (_ & _ & Hgive & _).
  split; [exact Hone|]. split; [vm_compute; reflexivity|]. split; [exact (Hle Hone)|].
  split; [exact Hin|]. exact (Hgive None Hin).
Defined.


(** * Further properties of the code *)

(** ** Splitting and preparing [DocNums] *)

Section CharFacts.
Import PyStr.

Lemma contains_char_app c (s1 s2 : string) :
  contains_char c (s1 +:+ s2) = contains_char c s1 || contains_char c s2.
Proof.
  induction s1 as [|a s1 IH]; [done|]. rewrite app_String. simpl.
  by rewrite IH, orb_assoc.
Qed.

Lemma contains_char_remove c s : contains_char c (remove_char c s) = false.
Proof.
  induction s as [|a s IH]; [done|]. simpl.
  destruct (Ascii.eqb a c) eqn:E; [done|]. simpl. by rewrite E.
Qed.

Lemma contains_char_remove_other c d s :
  contains_char c s = false -> contains_char c (remove_char d s) = false.
Proof.
  induction s as [|a s IH]; [done|]. simpl. intros H.
  apply orb_false_iff in H as [Ha Hs].
  destruct (Ascii.eqb a d); [auto|]. simpl. by rewrite Ha, IH.
Qed.

Lemma remove_char_absent c s : contains_char c s = false -> remove_char c s = s.
Proof.
  induction s as [|a s IH]; [done|]. simpl. intros H.
  apply orb_false_iff in H as [-> Hs]. by rewrite IH.
Qed.

Lemma contains_char_lstrip c s :
  contains_char c s = false -> contains_char c (lstrip s) = false.
Proof.
  induction s as [|a s IH]; [done|]. simpl. intros H.
  destruct (isspace a); [|done]. apply orb_false_iff in H as [_ Hs]. auto.
Qed.

Lemma contains_char_rstrip c s :
  contains_char c s = false -> contains_char c (rstrip s) = false.
Proof.
  induction s as [|a s IH]; [done|]. simpl. intros H.
  apply orb_false_iff in H as [Ha Hs]. specialize (IH Hs).
  destruct (rstrip s) as [|b r].
  - destruct (isspace a); [done|]. simpl. by rewrite Ha.
  - simpl in *. by rewrite Ha, IH.
Qed.

Lemma contains_char_strip c s :
  contains_char c s = false -> contains_char c (strip s) = false.
Proof. intros H. by apply contains_char_rstrip, contains_char_lstrip. Qed.

Lemma contains_char_split c s :
  contains_char c s = false ->
  Forall (fun x => contains_char c x = false) (split_comma s).
Proof.
  induction s as [|a s IH]; simpl; intros H; [by repeat constructor|].
  apply orb_false_iff in H as [Ha Hs]. specialize (IH Hs).
  destruct (Ascii.eqb a comma); [by constructor|].
  destruct (split_comma s) as [|h t]; [repeat constructor; simpl; by rewrite Ha|].
  inversion IH; subst. constructor; [simpl; by rewrite Ha|done].
Qed.

Lemma contains_char_csv_items c s :
  contains_char c s = false ->
  Forall (fun x => contains_char c x = false) (csv_items s).
Proof.
  intros H. unfold csv_items. pose proof (contains_char_split c s H) as Hs.
  induction Hs as [|x l Hx _ IH]; simpl; [constructor|].
  destruct (nonempty (strip x)); [|done].
  constructor; [by apply contains_char_strip|done].
Qed.

Lemma contains_char_join c (l : list string) :
  contains_char c ", " = false ->
  Forall (fun x => contains_char c x = false) l ->
  contains_char c (join ", " l) = false.
Proof.
  intros Hsep. induction 1 as [|x l Hx Hl IH]; [done|].
  destruct l as [|y l]; [done|].
  change (join ", " (x :: y :: l)) with (x +:+ ", " +:+ join ", " (y :: l)).
  by rewrite !contains_char_app, Hx, Hsep, IH.
Qed.

End CharFacts.

Lemma safe_split_docnums_join (l : list string) :
  Forall plain_token l -> _safe_split_docnums (PyStr.join ", " l) = l.
Proof.
  intros Hl. unfold _safe_split_docnums.
  assert (Htok : Forall so_token l) by (eapply Forall_impl; [exact Hl|by intros x [H _]]).
  assert (Hopen : contains_char "["%char (PyStr.join ", " l) = false).
  { apply contains_char_join; [done|].
    eapply Forall_impl; [exact Hl|]. by intros x (_ & H & _). }
  assert (Hclose : contains_char "]"%char (PyStr.join ", " l) = false).
  { apply contains_char_join; [done|].
    eapply Forall_impl; [exact Hl|]. by intros x (_ & _ & H). }
  rewrite (remove_char_absent "["%char _ Hopen), (remove_char_absent "]"%char _ Hclose).
  rewrite csv_items_join by done.
  destruct l as [|x l]; [done|].
  destruct (PyStr.nonempty _) eqn:E; [done|].
  (* the join of a non-empty list of tokens does not strip to nothing *)
  exfalso.
  assert (Hs : PyStr.strip (PyStr.join ", " (x :: l)) = "")
    by (destruct (PyStr.strip _); [done|discriminate]).
  pose proof (csv_items_join (x :: l) Htok) as Hj.
  unfold csv_items in Hj.
  rewrite (lstrip_empty_split _ (strip_empty_lstrip _ Hs)) in Hj.
  cbn [List.map List.filter] in Hj. rewrite Hs in Hj. discriminate.
Qed.


Lemma safe_split_docnums_plain (val : string) : Forall plain_token (_safe_split_docnums val).
Proof.
  pose proof (safe_split_docnums_tokens val) as Htok.
  assert (Hopen : Forall (fun x => contains_char "["%char x = false) (_safe_split_docnums val)).
  { unfold _safe_split_docnums. destruct (PyStr.nonempty _); [|constructor].
    apply contains_char_csv_items, contains_char_remove_other, contains_char_remove. }
  assert (Hclose : Forall (fun x => contains_char "]"%char x = false) (_safe_split_docnums val)).
  { unfold _safe_split_docnums. destruct (PyStr.nonempty _); [|constructor].
    apply contains_char_csv_items, contains_char_remove. }
  rewrite Forall_forall in Htok, Hopen, Hclose. apply Forall_forall. intros x Hx.
  split; [by apply Htok|]. split; [by apply Hopen|by apply Hclose].
Qed.

(** X1 — [_safe_split_docnums].  On a string every sales-order number it
    returns is not empty, has no white space around it, and holds no comma
    and no bracket, and joining its result with [", "] and splitting again
    gives the same list.  On a list or array it returns the elements as
    they are: nothing is stripped, split or dropped, so an element such as
    [" a,b "] or an empty one comes back unchanged. *)
Theorem safe_split_docnums_clean :
  (forall s : string,
     (forall x, x ∈ _safe_split_docnums_val (DocStr s) ->
        x <> "" /\ PyStr.strip x = x /\ PyStr.has_comma x = false
        /\ contains_char "["%char x = false /\ contains_char "]"%char x = false)
     /\ _safe_split_docnums_val
          (DocStr (PyStr.join ", " (_safe_split_docnums_val (DocStr s))))
        = _safe_split_docnums_val (DocStr s))
  /\ (forall l : list string, _safe_split_docnums_val (DocList l) = l)
  /\ _safe_split_docnums_val (DocList [" a,b "; ""]) = [" a,b "; ""]
  /\ _safe_split_docnums_val (DocStr "[ a,b ,, ]") = ["a"; "b"].
Proof.
  split; [|split; [done|split; [done|by vm_compute]]].
  intros s. cbn [_safe_split_docnums_val].
  pose proof (safe_split_docnums_plain s) as H. split.
  - intros x Hx. rewrite Forall_forall in H.
    destruct (H x Hx) as ((Hc & Hs & Hne) & Ho & Hcl). done.
  - by apply safe_split_docnums_join.
Qed.

Lemma updated_docnums_str_fix (s : string) :
  let s' := PyStr.remove_char "]"%char (PyStr.remove_char "["%char s) in
  PyStr.remove_char "]"%char (PyStr.remove_char "["%char s') = s'.
Proof.
  cbn zeta.
  rewrite (remove_char_absent "["%char); [apply remove_char_absent, contains_char_remove|].
  apply contains_char_remove_other, contains_char_remove.
Qed.

Lemma updated_docnums_split (docnums : docnums_val) :
  match docnums with
  | DocList l => Forall plain_token l
  | DocStr _ => True
  end ->
  _safe_split_docnums (updated_docnums docnums) = _safe_split_docnums_val docnums
  /\ updated_docnums (DocStr (updated_docnums docnums)) = updated_docnums docnums.
Proof.
  destruct docnums as [l|s]; intros H; cbn [updated_docnums _safe_split_docnums_val].
  - split; [by apply safe_split_docnums_join|].
    assert (Hopen : contains_char "["%char (PyStr.join ", " l) = false).
    { apply contains_char_join; [done|]. eapply Forall_impl; [exact H|]. by intros x (_ & ? & _). }
    assert (Hclose : contains_char "]"%char (PyStr.join ", " l) = false).
    { apply contains_char_join; [done|]. eapply Forall_impl; [exact H|]. by intros x (_ & _ & ?). }
    by rewrite (remove_char_absent "["%char _ Hopen), (remove_char_absent "]"%char _ Hclose).
  - split; [|apply updated_docnums_str_fix].
    unfold _safe_split_docnums. by rewrite updated_docnums_str_fix.
Qed.

(** X2 — [prepare_batches_for_ppg] and [_safe_split_docnums]: every row of
    the prepared table comes from a row of the input table with the same
    batch name and due date, named in [batch_names] when names are given,
    and its [DocNums] string splits into the sales-order numbers of the
    original cell (a string, or a list of numbers without commas, brackets
    or white space around them); the rows keep their order, and without
    names no row is dropped. *)
Theorem prepare_batches_for_ppg_split
    (batch_names : option (list string)) (abs_batches : list batch_raw) :
  Forall (fun raw => match raw_DocNums raw with
                     | DocList l => Forall plain_token l
                     | DocStr _ => True
                     end) abs_batches ->
  let out := prepare_batches_for_ppg batch_names abs_batches in
  Forall (fun r => exists raw,
            raw ∈ abs_batches
            /\ PPG_BatchName r = raw_PPG_BatchName raw
            /\ minDocDueDate r = raw_minDocDueDate raw
            /\ _safe_split_docnums (DocNums r) = _safe_split_docnums_val (raw_DocNums raw)
            /\ match batch_names with
               | Some (n :: names) => raw_PPG_BatchName raw ∈ n :: names
               | _ => True
               end) out
  /\ sublist (PPG_BatchName <$> out) (raw_PPG_BatchName <$> abs_batches)
  /\ match batch_names with
     | Some (_ :: _) => True
     | _ => length out = length abs_batches
     end.
Proof.
  intros Hwf out. subst out. unfold prepare_batches_for_ppg.
  set (prep := fun r => mk_batch_in (raw_PPG_BatchName r) (updated_docnums (raw_DocNums r))
                                    (raw_minDocDueDate r)).
  assert (Hall : forall sel : batch_raw -> bool,
             (forall raw, sel raw = true ->
                match batch_names with
                | Some (n :: names) => raw_PPG_BatchName raw ∈ n :: names
                | _ => True
                end) ->
             Forall (fun r => exists raw,
                       raw ∈ abs_batches
                       /\ PPG_BatchName r = raw_PPG_BatchName raw
                       /\ minDocDueDate r = raw_minDocDueDate raw
                       /\ _safe_split_docnums (DocNums r)
                          = _safe_split_docnums_val (raw_DocNums raw)
                       /\ match batch_names with
                          | Some (n :: names) => raw_PPG_BatchName raw ∈ n :: names
                          | _ => True
                          end) (List.map prep (List.filter sel abs_batches))
             /\ sublist (PPG_BatchName <$> List.map prep (List.filter sel abs_batches))
                        (raw_PPG_BatchName <$> abs_batches)).
  { intros sel Hsel. split.
    - apply Forall_forall. intros r Hr. apply list_elem_of_In, in_map_iff in Hr as (raw & <- & Hraw).
      apply filter_In in Hraw as [Hin Hs]. exists raw.
      split; [by apply list_elem_of_In|]. split; [done|]. split; [done|].
      split; [|by apply Hsel].
      apply updated_docnums_split.
      rewrite Forall_forall in Hwf. apply Hwf. by apply list_elem_of_In.
    - clear Hwf Hsel. induction abs_batches as [|raw rows IH]; [done|].
      cbn [List.filter]. destruct (sel raw); csimpl.
      + by apply sublist_skip.
      + by apply sublist_cons. }
  assert (Hfull : List.filter (fun _ : batch_raw => true) abs_batches = abs_batches).
  { clear. induction abs_batches as [|raw rows IH]; [done|]. simpl. by rewrite IH. }
  destruct batch_names as [[|n names]|].
  - destruct (Hall (fun _ => true)) as [H1 H2]; [done|]. rewrite Hfull in H1, H2.
    split; [done|]. split; [done|]. apply length_map.
  - destruct (Hall (fun r => existsb (String.eqb (raw_PPG_BatchName r)) (n :: names)))
      as [H1 H2]; [|done].
    intros raw Hs. apply existsb_exists in Hs as (x & Hx & E).
    apply String.eqb_eq in E as ->. by apply list_elem_of_In.
  - destruct (Hall (fun _ => true)) as [H1 H2]; [done|]. rewrite Hfull in H1, H2.
    split; [done|]. split; [done|]. apply length_map.
Qed.

Lemma prepare_batches_for_ppg_split_witness :
  let abs_batches := [mk_batch_raw "B1" (DocList ["101"; "102"]) None;
                      mk_batch_raw "B2" (DocStr "[103, 104]") None] in
  row_tasks <$> prepare_batches_for_ppg (Some ["B2"; "B1"]) abs_batches
  = [["101"; "102"]; ["103"; "104"]]
  /\ sublist (PPG_BatchName <$> prepare_batches_for_ppg (Some ["B2"; "B1"]) abs_batches)
             ["B1"; "B2"].
Proof.
  intros abs_batches. split; [vm_compute; reflexivity|].
  refine (proj1 (proj2 (prepare_batches_for_ppg_split (Some ["B2"; "B1"]) abs_batches _))).
  repeat constructor; discriminate.
Defined.


(** ** Polling loops of newOrderValidation.py *)

Section PollFacts.
Context (R : remote).

Lemma poll_order_visible_spec n name :
  forall t,
    let x := poll_order_visible R n name t in
    if result_of x
    then exists k, k < n /\ clock_of x = t + S k
                   /\ run_getOpenPPGPickOrders_specific R (t + k) name <> []
                   /\ forall j, j < k -> run_getOpenPPGPickOrders_specific R (t + j) name = []
    else clock_of x = t + n
         /\ forall j, j < n -> run_getOpenPPGPickOrders_specific R (t + j) name = [].
Proof.
  induction n as [|n IH]; intros t; cbn zeta; simpl.
  - split; [lia|]. intros j Hj. lia.
  - msimpl. destruct (run_getOpenPPGPickOrders_specific R t name) as [|r df] eqn:E.
    + cbn [df_empty]. specialize (IH (S t)). cbn zeta in IH.
      destruct (result_of (poll_order_visible R n name (S t))).
      * destruct IH as (k & Hk & Hc & Hv & Hbefore). exists (S k).
        split; [lia|]. split; [lia|].
        replace (t + S k) with (S t + k) by lia. split; [done|].
        intros [|j] Hj; [by rewrite Nat.add_0_r|].
        replace (t + S j) with (S t + j) by lia. apply Hbefore. lia.
      * destruct IH as (Hc & Hbefore). split; [lia|].
        intros [|j] Hj; [by rewrite Nat.add_0_r|].
        replace (t + S j) with (S t + j) by lia. apply Hbefore. lia.
    + cbn [df_empty result_of clock_of ret fst snd]. exists 0.
      split; [lia|]. split; [lia|]. rewrite Nat.add_0_r, E.
      split; [done|]. intros j Hj. lia.
Qed.

Lemma wolines_retry_spec n order_id :
  forall df t,
    let x := wolines_retry R n order_id df t in
    (n = 0 /\ result_of x = df /\ clock_of x = t)
    \/ exists k, k < n /\ clock_of x = t + S k
                 /\ result_of x = run_getOpenPPGWOLines_specific R (t + k) order_id
                 /\ (forall j, j < k -> run_getOpenPPGWOLines_specific R (t + j) order_id = [])
                 /\ (result_of x = [] -> S k = n).
Proof.
  induction n as [|n IH]; intros df t; cbn zeta; simpl; [by left|]. right.
  msimpl. destruct (run_getOpenPPGWOLines_specific R t order_id) as [|r df'] eqn:E.
  - cbn [df_empty]. destruct (IH [] (S t)) as [(-> & Hr & Hc)|(k & Hk & Hc & Hr & Hb & Hl)].
    + exists 0. cbn in *. split; [lia|]. split; [lia|].
      rewrite Nat.add_0_r, E. split; [done|]. split; [|done]. intros j Hj. lia.
    + exists (S k). split; [lia|]. split; [lia|].
      replace (t + S k) with (S t + k) by lia. split; [done|]. split.
      * intros [|j] Hj; [by rewrite Nat.add_0_r|].
        replace (t + S j) with (S t + j) by lia. apply Hb. lia.
      * intros Hempty. specialize (Hl Hempty). lia.
  - cbn [df_empty result_of clock_of ret fst snd]. exists 0.
    split; [lia|]. split; [lia|]. rewrite Nat.add_0_r, E.
    split; [done|]. split; [intros j Hj; lia|discriminate].
Qed.

End PollFacts.

(** X3 — [_wait_for_order_visible_in_ppg]: it sends no request; it returns
    [True] at the first poll of the window that shows the order, all polls
    before having shown nothing, and [False] after every poll of the window
    showed nothing. *)
Theorem wait_for_order_visible_first_sighting (R : remote) (orderName : string) (t : nat) :
  let x := _wait_for_order_visible_in_ppg R orderName t in
  let n := CREATE_GRACE_polls R t in
  events_of x = []
  /\ (result_of x = true ->
      exists k, k < n /\ clock_of x = t + S k
                /\ run_getOpenPPGPickOrders_specific R (t + k) orderName <> []
                /\ forall j, j < k -> run_getOpenPPGPickOrders_specific R (t + j) orderName = [])
  /\ (result_of x = false ->
      clock_of x = t + n
      /\ forall j, j < n -> run_getOpenPPGPickOrders_specific R (t + j) orderName = []).
Proof.
  cbn zeta. split; [apply wait_for_order_visible_events|].
  unfold _wait_for_order_visible_in_ppg. msimpl.
  pose proof (poll_order_visible_spec R (CREATE_GRACE_polls R t) orderName t) as H.
  cbn zeta in H.
  destruct (result_of (poll_order_visible R (CREATE_GRACE_polls R t) orderName t));
    (split; [intros E|intros E]); try discriminate; exact H.
Qed.

Lemma wait_for_order_visible_first_sighting_witness :
  let R := scripted_remote 2 (Reply 201 None) (fun _ => Reply 200 None) in
  result_of (_wait_for_order_visible_in_ppg R "SO1" 1) = true
  /\ clock_of (_wait_for_order_visible_in_ppg R "SO1" 1) = 3.
Proof.
  intros R.
  assert (E : result_of (_wait_for_order_visible_in_ppg R "SO1" 1) = true) by reflexivity.
  split; [exact E|].
  destruct (proj1 (proj2 (wait_for_order_visible_first_sighting R "SO1" 1)) E)
    as (k & Hk & Hc & Hv & Hb).
  reflexivity.
Defined.

Lemma wait_for_wolines_spec (R : remote) (order_id : string) (max_attempts : Z) (t : nat) :
  let x := _wait_for_wolines R order_id max_attempts t in
  events_of x = []
  /\ exists k,
       (Z.of_nat (S k) <= Z.max 1 max_attempts)%Z
       /\ clock_of x = t + S k
       /\ result_of x = run_getOpenPPGWOLines_specific R (t + k) order_id
       /\ (forall j, j < k -> run_getOpenPPGWOLines_specific R (t + j) order_id = [])
       /\ (result_of x = [] -> Z.of_nat (S k) = Z.max 1 max_attempts).
Proof.
  cbn zeta. split; [apply wait_for_wolines_events|].
  unfold _wait_for_wolines. msimpl.
  destruct (run_getOpenPPGWOLines_specific R t order_id) as [|r df] eqn:E.
  - cbn [df_empty].
    destruct (wolines_retry_spec R (Z.to_nat (max_attempts - 1)) order_id [] (S t))
      as [(Hn & Hr & Hc)|(k & Hk & Hc & Hr & Hb & Hl)].
    + exists 0. split; [lia|]. split; [lia|]. rewrite Nat.add_0_r, E.
      split; [done|]. split; [intros j Hj; lia|]. intros _. lia.
    + exists (S k). split; [lia|]. split; [lia|].
      replace (t + S k) with (S t + k) by lia. split; [done|]. split.
      * intros [|j] Hj; [by rewrite Nat.add_0_r|].
        replace (t + S j) with (S t + j) by lia. apply Hb. lia.
      * intros Hempty. specialize (Hl Hempty). lia.
  - cbn [df_empty result_of clock_of ret fst snd]. exists 0.
    split; [lia|]. split; [lia|]. rewrite Nat.add_0_r, E.
    split; [done|]. split; [intros j Hj; lia|discriminate].
Qed.

(** X4 — [_wait_for_wolines]: it sends no request and reads the
    work-order-lines at least once and at most [max(1, max_attempts)]
    times; it returns what the last read showed, every read before having
    shown nothing, and returns an empty frame only after all the reads it
    is allowed. *)
Theorem wait_for_wolines_reads (R : remote) (order_id : string) (max_attempts : Z) (t : nat) :
  let x := _wait_for_wolines R order_id max_attempts t in
  events_of x = []
  /\ exists k,
       (Z.of_nat (S k) <= Z.max 1 max_attempts)%Z
       /\ clock_of x = t + S k
       /\ result_of x = run_getOpenPPGWOLines_specific R (t + k) order_id
       /\ (forall j, j < k -> run_getOpenPPGWOLines_specific R (t + j) order_id = [])
       /\ (result_of x = [] -> Z.of_nat (S k) = Z.max 1 max_attempts).
Proof. apply wait_for_wolines_spec. Qed.


(** ** The bounded request loops *)

Section LoopFacts.
Context (R : remote).

Lemma deAllocateOrder_loop_spec rounds orderName :
  forall t,
    let x := deAllocateOrder_loop R rounds orderName t in
    exists k,
      k <= rounds
      /\ length (events_of x) = k
      /\ Forall (fun ev => exists order_id reply, ev = EvOrderDealloc order_id reply)
                (events_of x)
      /\ (forall j, j < k ->
            checkAllocation (run_getOpenPPGPickOrders_specific R (t + 2 * j) orderName) = true)
      /\ (if result_of x
          then k < rounds
               /\ clock_of x = t + 2 * k + 1
               /\ checkAllocation (run_getOpenPPGPickOrders_specific R (t + 2 * k) orderName)
                  = false
          else k = rounds /\ clock_of x = t + 2 * k).
Proof.
  induction rounds as [|rounds IH]; intros t; cbn zeta;
    cbn [deAllocateOrder_loop deleteOrder_loop createBatch_loop].
  - exists 0. cbn. split; [lia|]. split; [done|]. split; [constructor|].
    split; [intros j Hj; lia|]. split; lia.
  - msimpl. destruct (run_getOpenPPGPickOrders_specific R t orderName) as [|row df] eqn:E.
    + exists 0. cbn [result_of events_of clock_of ret fst snd length].
      split; [lia|]. split; [done|]. split; [constructor|].
      split; [intros j Hj; lia|]. rewrite Nat.mul_0_r, Nat.add_0_r, E.
      split; [lia|]. split; [lia|done].
    + destruct (checkAllocation (row :: df)) eqn:Ha; cbn [negb].
      * msimpl. destruct (IH (S (S t))) as (k & Hk & Hl & Hev & Hb & Hres).
        exists (S k). split; [lia|]. split; [simpl; by rewrite Hl|].
        split; [constructor; [by eexists _, _|done]|]. split.
        -- intros [|j] Hj; [by rewrite Nat.mul_0_r, Nat.add_0_r, E|].
           replace (t + 2 * S j) with (S (S t) + 2 * j) by lia. apply Hb. lia.
        -- destruct (result_of (deAllocateOrder_loop R rounds orderName (S (S t)))).
           ++ destruct Hres as (H1 & H2 & H3). split; [lia|]. split; [lia|].
              by replace (t + 2 * S k) with (S (S t) + 2 * k) by lia.
           ++ destruct Hres as (H1 & H2). split; lia.
      * exists 0. cbn [result_of events_of clock_of ret fst snd length].
        split; [lia|]. split; [done|]. split; [constructor|].
        split; [intros j Hj; lia|]. rewrite Nat.mul_0_r, Nat.add_0_r, E.
        split; [lia|]. split; [lia|done].
Qed.

Lemma deleteOrder_loop_spec rounds orderName :
  forall t,
    let x := deleteOrder_loop R rounds orderName t in
    exists k,
      k <= rounds
      /\ length (events_of x) = k
      /\ Forall (fun ev => exists order_id reply, ev = EvOrderDelete order_id reply)
                (events_of x)
      /\ (forall j, j < k ->
            run_getOpenPPGPickOrders_specific R (t + 2 * j) orderName <> [])
      /\ (if result_of x
          then k < rounds
               /\ clock_of x = t + 2 * k + 1
               /\ run_getOpenPPGPickOrders_specific R (t + 2 * k) orderName = []
          else k = rounds /\ clock_of x = t + 2 * k).
Proof.
  induction rounds as [|rounds IH]; intros t; cbn zeta;
    cbn [deAllocateOrder_loop deleteOrder_loop createBatch_loop].
  - exists 0. cbn. split; [lia|]. split; [done|]. split; [constructor|].
    split; [intros j Hj; lia|]. split; lia.
  - msimpl. destruct (run_getOpenPPGPickOrders_specific R t orderName) as [|row df] eqn:E.
    + exists 0. cbn [result_of events_of clock_of ret fst snd length].
      split; [lia|]. split; [done|]. split; [constructor|].
      split; [intros j Hj; lia|]. rewrite Nat.mul_0_r, Nat.add_0_r, E.
      split; [lia|]. split; [lia|done].
    + msimpl. destruct (IH (S (S t))) as (k & Hk & Hl & Hev & Hb & Hres).
      exists (S k). split; [lia|]. split; [simpl; by rewrite Hl|].
      split; [constructor; [by eexists _, _|done]|]. split.
      * intros [|j] Hj; [by rewrite Nat.mul_0_r, Nat.add_0_r, E|].
        replace (t + 2 * S j) with (S (S t) + 2 * j) by lia. apply Hb. lia.
      * destruct (result_of (deleteOrder_loop R rounds orderName (S (S t)))).
        -- destruct Hres as (H1 & H2 & H3). split; [lia|]. split; [lia|].
           by replace (t + 2 * S k) with (S (S t) + 2 * k) by lia.
        -- destruct Hres as (H1 & H2). split; lia.
Qed.

Lemma createBatch_loop_spec rounds batchName :
  forall t,
    let x := createBatch_loop R rounds batchName t in
    exists k,
      k <= rounds
      /\ length (events_of x) = k
      /\ Forall (fun ev => exists reply, ev = EvBatchCreate batchName reply) (events_of x)
      /\ (forall j, j < k -> run_getOpenPPGBatches_specific R (t + 2 * j) batchName = [])
      /\ (if result_of x
          then k < rounds
               /\ clock_of x = t + 2 * k + 1
               /\ run_getOpenPPGBatches_specific R (t + 2 * k) batchName <> []
          else k = rounds /\ clock_of x = t + 2 * k).
Proof.
  induction rounds as [|rounds IH]; intros t; cbn zeta;
    cbn [deAllocateOrder_loop deleteOrder_loop createBatch_loop].
  - exists 0. cbn. split; [lia|]. split; [done|]. split; [constructor|].
    split; [intros j Hj; lia|]. split; lia.
  - msimpl. destruct (run_getOpenPPGBatches_specific R t batchName) as [|row df] eqn:E;
      cbn [df_empty negb].
    + msimpl. destruct (IH (S (S t))) as (k & Hk & Hl & Hev & Hb & Hres).
      exists (S k). split; [lia|]. split; [simpl; by rewrite Hl|].
      split; [constructor; [by eexists|done]|]. split.
      * intros [|j] Hj; [by rewrite Nat.mul_0_r, Nat.add_0_r, E|].
        replace (t + 2 * S j) with (S (S t) + 2 * j) by lia. apply Hb. lia.
      * destruct (result_of (createBatch_loop R rounds batchName (S (S t)))).
        -- destruct Hres as (H1 & H2 & H3). split; [lia|]. split; [lia|].
           by replace (t + 2 * S k) with (S (S t) + 2 * k) by lia.
        -- destruct Hres as (H1 & H2). split; lia.
    + exists 0. cbn [result_of events_of clock_of ret fst snd length].
      split; [lia|]. split; [done|]. split; [constructor|].
      split; [intros j Hj; lia|]. rewrite Nat.mul_0_r, Nat.add_0_r, E.
      split; [lia|]. split; [lia|done].
Qed.

End LoopFacts.


(** X5 — [deAllocateOrder]: it sends at most 61 deallocation requests, one
    after each snapshot that shows the order allocated (status 10 or 11);
    when the first snapshot shows no order or an order that is not
    allocated it returns [True] without any request; it returns [True] only
    on such a snapshot, and [False] only after 61 requests. *)
Theorem deAllocateOrder_bounded (R : remote) (orderName : string) (t : nat) :
  let x := deAllocateOrder R orderName t in
  let snapshot j := run_getOpenPPGPickOrders_specific R (t + 2 * j) orderName in
  length (events_of x) <= 61
  /\ Forall (fun ev => exists order_id reply, ev = EvOrderDealloc order_id reply) (events_of x)
  /\ (forall j, j < length (events_of x) -> checkAllocation (snapshot j) = true)
  /\ (checkAllocation (snapshot 0) = false -> result_of x = true /\ events_of x = [])
  /\ (result_of x = true -> checkAllocation (snapshot (length (events_of x))) = false)
  /\ (result_of x = false -> length (events_of x) = 61).
Proof.
  cbn zeta. unfold deAllocateOrder.
  destruct (deAllocateOrder_loop_spec R 61 orderName t) as (k & Hk & Hl & Hev & Hb & Hres).
  rewrite Hl. split; [done|]. split; [done|]. split; [done|]. split; [|split].
  - intros H0. destruct k as [|k].
    + apply nil_length_inv in Hl. split; [|done].
      destruct (result_of _); [done|]. destruct Hres as [Hres _]. discriminate.
    + rewrite (Hb 0) in H0 by lia. discriminate.
  - intros E. rewrite E in Hres. by destruct Hres as (_ & _ & H).
  - intros E. rewrite E in Hres. by destruct Hres as (H & _).
Qed.

Lemma deAllocateOrder_bounded_witness :
  let R := scripted_remote 0 (Reply 201 None) (fun _ => Reply 200 None) in
  result_of (deAllocateOrder R "SO1" 0) = true /\ events_of (deAllocateOrder R "SO1" 0) = [].
Proof.
  intros R.
  apply (proj1 (proj2 (proj2 (proj2 (deAllocateOrder_bounded R "SO1" 0))))).
  reflexivity.
Defined.

(** X6 — [deleteOrder]: it sends at most 61 delete requests, one after each
    snapshot that still shows the order; when the first snapshot shows no
    order it returns [True] without any request; it returns [True] only on
    a snapshot without the order, and [False] only after 61 requests. *)
Theorem deleteOrder_bounded (R : remote) (orderName : string) (t : nat) :
  let x := deleteOrder R orderName t in
  let snapshot j := run_getOpenPPGPickOrders_specific R (t + 2 * j) orderName in
  length (events_of x) <= 61
  /\ Forall (fun ev => exists order_id reply, ev = EvOrderDelete order_id reply) (events_of x)
  /\ (forall j, j < length (events_of x) -> snapshot j <> [])
  /\ (snapshot 0 = [] -> result_of x = true /\ events_of x = [])
  /\ (result_of x = true -> snapshot (length (events_of x)) = [])
  /\ (result_of x = false -> length (events_of x) = 61).
Proof.
  cbn zeta. unfold deleteOrder.
  destruct (deleteOrder_loop_spec R 61 orderName t) as (k & Hk & Hl & Hev & Hb & Hres).
  rewrite Hl. split; [done|]. split; [done|]. split; [done|]. split; [|split].
  - intros H0. destruct k as [|k].
    + apply nil_length_inv in Hl. split; [|done].
      destruct (result_of _); [done|]. destruct Hres as [Hres _]. discriminate.
    + by destruct (Hb 0 ltac:(lia)).
  - intros E. rewrite E in Hres. by destruct Hres as (_ & _ & H).
  - intros E. rewrite E in Hres. by destruct Hres as (H & _).
Qed.

Lemma deleteOrder_bounded_witness :
  let R := scripted_remote 5 (Reply 201 None) (fun _ => Reply 200 None) in
  result_of (deleteOrder R "SO1" 0) = true /\ events_of (deleteOrder R "SO1" 0) = [].
Proof.
  intros R.
  apply (proj1 (proj2 (proj2 (proj2 (deleteOrder_bounded R "SO1" 0))))).
  reflexivity.
Defined.

(** X7 — [createBatch]: it sends a create request for the batch only after
    a snapshot that does not show the batch, at most 61 of them; a batch
    that the first snapshot shows is reused without any request; it returns
    [True] only on a snapshot that shows the batch, and [False] only after
    61 requests. *)
Theorem createBatch_bounded (R : remote) (batchName : string) (t : nat) :
  let x := createBatch R batchName t in
  let snapshot j := run_getOpenPPGBatches_specific R (t + 2 * j) batchName in
  length (events_of x) <= 61
  /\ Forall (fun ev => exists reply, ev = EvBatchCreate batchName reply) (events_of x)
  /\ (forall j, j < length (events_of x) -> snapshot j = [])
  /\ (snapshot 0 <> [] -> result_of x = true /\ events_of x = [])
  /\ (result_of x = true -> snapshot (length (events_of x)) <> [])
  /\ (result_of x = false -> length (events_of x) = 61).
Proof.
  cbn zeta. unfold createBatch.
  destruct (createBatch_loop_spec R 61 batchName t) as (k & Hk & Hl & Hev & Hb & Hres).
  rewrite Hl. split; [done|]. split; [done|]. split; [done|]. split; [|split].
  - intros H0. destruct k as [|k].
    + apply nil_length_inv in Hl. split; [|done].
      destruct (result_of _); [done|]. destruct Hres as [Hres _]. discriminate.
    + destruct H0. apply (Hb 0). lia.
  - intros E. rewrite E in Hres. by destruct Hres as (_ & _ & H).
  - intros E. rewrite E in Hres. by destruct Hres as (H & _).
Qed.

Lemma createBatch_bounded_witness :
  let R := scripted_remote 0 (Reply 201 None) (fun _ => Reply 200 None) in
  result_of (createBatch R "B1" 0) = true /\ events_of (createBatch R "B1" 0) = [].
Proof.
  intros R.
  apply (proj1 (proj2 (proj2 (proj2 (createBatch_bounded R "B1" 0))))).
  discriminate.
Defined.


(** ** [createFullSOPickOrder] and [addOrderToBatch]: the requests *)

(** X8 — [createFullSOPickOrder]: whatever the reply, the create request is
    sent exactly once.  The result is [True] for a network error, for HTTP
    409 and for HTTP 504 (also when the visibility wait sees nothing), the
    defer sentinel for HTTP 500, [False] for every other 4xx or 5xx status,
    and the JSON object of the body for a status below 400. *)
Theorem createFullSOPickOrder_one_request (R : remote) (orderNameStr : string) (t : nat) :
  let x := createFullSOPickOrder R orderNameStr t in
  let reply := post_orders R t orderNameStr in
  events_of x = [EvOrderCreate orderNameStr reply]
  /\ (reply = NoReply -> result_of x = PyBool true)
  /\ (forall body, reply = Reply 409 body -> result_of x = PyBool true)
  /\ (forall body, reply = Reply 504 body -> result_of x = PyBool true)
  /\ (forall body, reply = Reply 500 body -> result_of x = DEFER_CREATE_SENTINEL)
  /\ (forall status body,
        reply = Reply status body -> raises_for_status status = true ->
        status <> 409%Z -> status <> 504%Z -> status <> 500%Z ->
        result_of x = PyBool false)
  /\ (forall status items,
        reply = Reply status (Some (PyDict items)) -> raises_for_status status = false ->
        result_of x = PyDict items).
Proof.
  cbn zeta. destruct (createFullSOPickOrder_spec R orderNameStr t) as [He Hr].
  split; [exact He|]. rewrite Hr.
  split; [by intros ->|]. split; [by intros body ->|]. split; [by intros body ->|].
  split; [by intros body ->|]. split.
  - intros status body -> Hraise H409 H504 H500. cbn [create_outcome]. rewrite Hraise.
    apply Z.eqb_neq in H409, H504, H500. by rewrite H409, H504, H500.
  - intros status items -> Hraise. cbn [create_outcome]. by rewrite Hraise.
Qed.

Lemma createFullSOPickOrder_one_request_witness :
  let R := scripted_remote 1000 (Reply 504 None) (fun _ => Reply 200 None) in
  result_of (createFullSOPickOrder R "SO1" 0) = PyBool true
  /\ result_of (_wait_for_order_visible_in_ppg R "SO1" 1) = false.
Proof.
  intros R. split; [|reflexivity].
  exact (proj1 (proj2 (proj2 (proj2 (createFullSOPickOrder_one_request R "SO1" 0))))
           None eq_refl).
Defined.

Section PutFacts.
Context (R : remote).

Lemma puts_on_line_app i l1 l2 :
  puts_on_line i (l1 ++ l2) = puts_on_line i l1 + puts_on_line i l2.
Proof. unfold puts_on_line. by rewrite List.filter_app, length_app. Qed.

Lemma puts_on_line_le i l : puts_on_line i l <= length l.
Proof. unfold puts_on_line. apply filter_length_le. Qed.

Lemma puts_on_line_other i l :
  Forall (fun ev => assign_line ev <> Some i) l -> puts_on_line i l = 0.
Proof.
  intros H. unfold puts_on_line. rewrite filter_all_false; [done|].
  eapply Forall_impl; [exact H|]. intros ev Hev. by apply bool_decide_eq_false.
Qed.

(** The attempts on one line: at most the budget, all for this line, with
    the batch id and the rank of the call. *)
Lemma update_line_puts budget order batch index order_id batch_id rank :
  forall retry_count wol_id t,
    let x := update_line R budget retry_count order batch index order_id wol_id
                         batch_id rank t in
    length (events_of x) <= budget
    /\ Forall (fun ev => exists w reply,
                 ev = EvWolAssign order batch index w batch_id rank reply) (events_of x)
    /\ (result_of x = true ->
        exists w reply, is_200 reply = true
                        /\ EvWolAssign order batch index w batch_id rank reply ∈ events_of x).
Proof.
  induction budget as [|budget IH]; intros retry_count wol_id t; cbn zeta;
    cbn [update_line].
  - cbn. split; [lia|]. split; [constructor|discriminate].
  - msimpl. destruct (is_200 (put_work_order_lines R t wol_id batch_id rank)) eqn:Hok.
    + cbn [result_of events_of clock_of ret fst snd app length].
      split; [lia|]. split; [repeat constructor; by eexists _, _|].
      intros _. eexists _, _. split; [exact Hok|]. apply list_elem_of_here.
    + msimpl.
      set (refetch := if Nat.eqb index 0 && Nat.eqb retry_count 0 then _ else _).
      assert (Href : events_of (refetch (S t)) = []).
      { subst refetch. by destruct (Nat.eqb index 0 && Nat.eqb retry_count 0). }
      rewrite Href. cbn [app].
      destruct (IH (S retry_count) (result_of (refetch (S t))) (clock_of (refetch (S t))))
        as (Hl & Hall & Hacc).
      split; [simpl; lia|]. split; [constructor; [by eexists _, _|done]|].
      intros Htrue. destruct (Hacc Htrue) as (w & reply & H200 & Hin).
      exists w, reply. split; [done|]. by apply list_elem_of_further.
Qed.

Lemma assign_lines_puts rows order batch order_id batch_id rank :
  forall index t,
    let x := assign_lines R index rows order batch order_id batch_id rank t in
    Forall (fun ev => exists i w reply,
              ev = EvWolAssign order batch i w batch_id rank reply /\ index <= i)
           (events_of x)
    /\ (forall i, puts_on_line i (events_of x) <= 2)
    /\ (result_of x = false -> forall i, index < i -> puts_on_line i (events_of x) = 0)
    /\ (index = 0 -> rows <> [] -> result_of x = true ->
        exists w reply, is_200 reply = true
                        /\ EvWolAssign order batch 0 w batch_id rank reply ∈ events_of x).
Proof.
  induction rows as [|row rows IH]; intros index t; cbn zeta; cbn [assign_lines].
  - cbn. split; [constructor|]. split; [intros i; lia|]. split; [done|]. by intros _ [].
  - msimpl.
    destruct (update_line_puts 2 order batch index order_id batch_id rank 0
                (WorkorderlineId row) t) as (Hl & Hall & Hacc).
    set (u := update_line R 2 0 order batch index order_id (WorkorderlineId row)
                          batch_id rank t) in *.
    assert (Hhere : Forall (fun ev => exists i w reply,
                              ev = EvWolAssign order batch i w batch_id rank reply
                              /\ index <= i) (events_of u)).
    { eapply Forall_impl; [exact Hall|]. intros ev (w & reply & ->). by eexists _, _, _. }
    assert (Hline : forall i, i <> index -> puts_on_line i (events_of u) = 0).
    { intros i Hi. apply puts_on_line_other. eapply Forall_impl; [exact Hall|].
      intros ev (w & reply & ->). cbn. congruence. }
    destruct (Nat.eqb index 0 && negb (result_of u)) eqn:Habort.
    + cbn [result_of events_of clock_of ret fst snd]. rewrite app_nil_r.
      split; [done|]. split; [|split].
      * intros i. pose proof (puts_on_line_le i (events_of u)). lia.
      * intros _ i Hi. apply Hline. lia.
      * discriminate.
    + destruct (IH (S index) (clock_of u)) as (Hrest & Hcount & Hfalse & _).
      set (y := assign_lines R (S index) rows order batch order_id batch_id rank
                             (clock_of u)) in *.
      assert (Hy : result_of y = true).
      { by destruct (assign_lines_later R (S index) rows order batch order_id batch_id rank
                       (clock_of u)) as [H _]. }
      split; [|split; [|split]].
      * apply Forall_app. split; [done|]. eapply Forall_impl; [exact Hrest|].
        intros ev (i & w & reply & -> & Hi). eexists _, _, _. split; [done|lia].
      * intros i. rewrite puts_on_line_app.
        destruct (decide (i = index)) as [->|Hne].
        -- rewrite (puts_on_line_other index (events_of y)).
           ++ pose proof (puts_on_line_le index (events_of u)). lia.
           ++ eapply Forall_impl; [exact Hrest|].
              intros ev (i & w & reply & -> & Hi). cbn. intros [= <-]. lia.
        -- rewrite (Hline i Hne). apply Hcount.
      * rewrite Hy. discriminate.
      * intros -> _ _. cbn [Nat.eqb andb] in Habort.
        apply negb_false_iff in Habort. destruct (Hacc Habort) as (w & reply & H200 & Hin).
        exists w, reply. split; [done|]. apply elem_of_app. by left.
Qed.

End PutFacts.


Section AddOrderFacts.
Context (R : remote).

Lemma createBatch_length name t : length (events_of (createBatch R name t)) <= 61.
Proof.
  unfold createBatch.
  destruct (createBatch_loop_spec R 61 name t) as (k & Hk & Hl & _). lia.
Qed.

(** The requests of one call: the batch creations, then the updates of
    the work-order-lines. *)
Lemma addOrderToBatch_requests order batch rank t :
  let x := addOrderToBatch R order batch rank t in
  exists bev aev batch_id,
    events_of x = EvAddOrderToBatch order batch rank :: bev ++ aev
    /\ Forall (fun ev => exists reply, ev = EvBatchCreate batch reply) bev
    /\ length bev <= 61
    /\ Forall (fun ev => exists i w reply,
                 ev = EvWolAssign order batch i w batch_id rank reply) aev
    /\ (forall i, puts_on_line i aev <= 2)
    /\ (result_of x = false -> forall i, 0 < i -> puts_on_line i aev = 0)
    /\ (result_of x = true ->
        exists w reply, is_200 reply = true
                        /\ EvWolAssign order batch 0 w batch_id rank reply ∈ aev).
Proof.
  unfold addOrderToBatch. msimpl.
  set (t1 := S t).
  set (pre := if df_empty (run_getOpenPPGPickOrders_specific R t order) then _ else _).
  assert (Hpre : events_of (pre t1) = []).
  { subst pre. destruct (df_empty _); [|done]. msimpl. apply prewait_order_events. }
  rewrite Hpre. cbn [app].
  assert (Hnone : forall r : bool * list event * nat,
             events_of r = [] -> result_of r = false ->
             exists bev aev (batch_id : string),
               EvAddOrderToBatch order batch rank :: events_of r
               = EvAddOrderToBatch order batch rank :: bev ++ aev
               /\ Forall (fun ev => exists reply, ev = EvBatchCreate batch reply) bev
               /\ length bev <= 61
               /\ Forall (fun ev => exists i w reply,
                            ev = EvWolAssign order batch i w batch_id rank reply) aev
               /\ (forall i, puts_on_line i aev <= 2)
               /\ (result_of r = false -> forall i, 0 < i -> puts_on_line i aev = 0)
               /\ (result_of r = true ->
                   exists w reply, is_200 reply = true
                                   /\ EvWolAssign order batch 0 w batch_id rank reply ∈ aev)).
  { intros r He Hr. exists [], [], "". rewrite He, Hr.
    split; [done|]. split; [constructor|]. split; [simpl; lia|]. split; [constructor|].
    split; [intros i; cbn; lia|]. split; [done|discriminate]. }
  destruct (result_of (pre t1)) as [|o orders]; [by apply Hnone|].
  msimpl. rewrite wait_for_wolines_events. cbn [app].
  destruct (result_of (_wait_for_wolines R _ _ _)) as [|row rows] eqn:Hrows;
    [by apply Hnone|].
  cbn [df_empty]. msimpl.
  set (tb := clock_of (_wait_for_wolines R (MasterorderId o) (WOL_POLL_ATTEMPTS R)
                         (clock_of (pre t1)))).
  pose proof (createBatch_events R batch tb) as Hbev.
  pose proof (createBatch_length batch tb) as Hblen.
  assert (Hfail : forall r : bool * list event * nat,
             events_of r = [] -> result_of r = false ->
             exists bev aev (batch_id : string),
               EvAddOrderToBatch order batch rank
                 :: events_of (createBatch R batch tb) ++ events_of r
               = EvAddOrderToBatch order batch rank :: bev ++ aev
               /\ Forall (fun ev => exists reply, ev = EvBatchCreate batch reply) bev
               /\ length bev <= 61
               /\ Forall (fun ev => exists i w reply,
                            ev = EvWolAssign order batch i w batch_id rank reply) aev
               /\ (forall i, puts_on_line i aev <= 2)
               /\ (result_of r = false -> forall i, 0 < i -> puts_on_line i aev = 0)
               /\ (result_of r = true ->
                   exists w reply, is_200 reply = true
                                   /\ EvWolAssign order batch 0 w batch_id rank reply ∈ aev)).
  { intros r He Hr. exists (events_of (createBatch R batch tb)), [], "". rewrite He, Hr.
    split; [done|]. split; [done|]. split; [done|]. split; [constructor|].
    split; [intros i; cbn; lia|]. split; [done|discriminate]. }
  destruct (negb (result_of (createBatch R batch tb))); [by apply Hfail|].
  msimpl. cbn [app].
  destruct (run_getOpenPPGBatches_specific R _ batch) as [|wo wos]; [by apply Hfail|].
  match goal with
  | |- context [assign_lines R 0 (row :: rows) order batch ?oid ?bid rank ?t'] =>
      destruct (assign_lines_puts R (row :: rows) order batch oid bid rank 0 t')
        as (Hall & Hcount & Hfalse & Hacc);
      exists (events_of (createBatch R batch tb)),
             (events_of (assign_lines R 0 (row :: rows) order batch oid bid rank t')), bid
  end.
  split; [done|]. split; [done|]. split; [done|]. split.
  { eapply Forall_impl; [exact Hall|]. intros ev (i & w & reply & -> & _). by eexists _, _, _. }
  split; [done|]. split; [done|]. intros Htrue. by apply Hacc.
Qed.

Lemma prewait_order_missing n name :
  forall t,
    (forall j, j < n -> run_getOpenPPGPickOrders_specific R (t + j) name = []) ->
    result_of (prewait_order R n name [] t) = [].
Proof.
  induction n as [|n IH]; intros t Hall; cbn [prewait_order]; [done|].
  cbn [df_empty]. msimpl.
  pose proof (Hall 0 ltac:(lia)) as H0. rewrite Nat.add_0_r in H0. rewrite H0.
  apply IH. intros j Hj. replace (S t + j) with (t + S j) by lia. apply Hall. lia.
Qed.

End AddOrderFacts.


Lemma puts_on_line_cons_other i ev l :
  assign_line ev = None -> puts_on_line i (ev :: l) = puts_on_line i l.
Proof. intros H. unfold puts_on_line. cbn [List.filter]. by rewrite H. Qed.

(** X9 — [addOrderToBatch]: the requests of one call, counted by the
    position [index] of the loop over the work-order-lines read at the
    start (not by line id: the second request of position 0 goes to the
    first line of a fresh read, which can be another line).  Every position
    gets at most two update requests and the batch at most 61 create
    requests; all updates carry the order, the batch name, the rank of the
    call and one batch id; when the call returns [False] no request was
    sent for a position after the first, and when it returns [True] a
    request of position 0 was answered with 200. *)
Theorem addOrderToBatch_request_budget
    (R : remote) (orderName batchName : string) (orderRank : nat) (t : nat) :
  let x := addOrderToBatch R orderName batchName orderRank t in
  (forall i, puts_on_line i (events_of x) <= 2)
  /\ length (List.filter (fun ev => match ev with EvBatchCreate _ _ => true | _ => false end)
                         (events_of x)) <= 61
  /\ (exists batch_id,
        forall ev, ev ∈ events_of x -> assign_line ev <> None ->
                   exists i w reply,
                     ev = EvWolAssign orderName batchName i w batch_id orderRank reply)
  /\ (result_of x = false -> forall i, 0 < i -> puts_on_line i (events_of x) = 0)
  /\ (result_of x = true ->
      exists w batch_id reply,
        is_200 reply = true
        /\ EvWolAssign orderName batchName 0 w batch_id orderRank reply ∈ events_of x).
Proof.
  cbn zeta.
  destruct (addOrderToBatch_requests R orderName batchName orderRank t)
    as (bev & aev & batch_id & -> & Hbev & Hblen & Haev & Hcount & Hfalse & Htrue).
  assert (Hb0 : forall i, puts_on_line i bev = 0).
  { intros i. apply puts_on_line_other. eapply Forall_impl; [exact Hbev|].
    by intros ev (reply & ->). }
  assert (Hputs : forall i, puts_on_line i (EvAddOrderToBatch orderName batchName orderRank
                                              :: bev ++ aev) = puts_on_line i aev).
  { intros i. rewrite puts_on_line_cons_other by done. by rewrite puts_on_line_app, Hb0. }
  split; [intros i; by rewrite Hputs|]. split; [|split; [|split]].
  - cbn [List.filter]. rewrite List.filter_app, length_app.
    rewrite (filter_all_false _ aev).
    + pose proof (filter_length_le
                    (fun ev => match ev with EvBatchCreate _ _ => true | _ => false end) bev).
      simpl. lia.
    + eapply Forall_impl; [exact Haev|]. by intros ev (i & w & reply & ->).
  - exists batch_id. intros ev Hin Hline.
    apply elem_of_cons in Hin as [->|Hin]; [done|].
    apply elem_of_app in Hin as [Hin|Hin].
    + rewrite Forall_forall in Hbev. by destruct (Hbev ev Hin) as (reply & ->).
    + rewrite Forall_forall in Haev. by apply Haev.
  - intros Hres i Hi. rewrite Hputs. by apply Hfalse.
  - intros Hres. destruct (Htrue Hres) as (w & reply & H200 & Hin).
    exists w, batch_id, reply. split; [done|].
    apply list_elem_of_further, elem_of_app. by right.
Qed.

Lemma addOrderToBatch_request_budget_witness :
  let R := scripted_remote 0 (Reply 201 None) (fun _ => Reply 500 None) in
  let x := addOrderToBatch R "SO1" "B1" 1 0 in
  result_of x = false /\ puts_on_line 0 (events_of x) = 2 /\ puts_on_line 1 (events_of x) = 0.
Proof.
  intros R x.
  assert (E : result_of x = false) by reflexivity.
  split; [exact E|]. split; [reflexivity|].
  apply (proj1 (proj2 (proj2 (proj2 (addOrderToBatch_request_budget R "SO1" "B1" 1 0)))) E).
  lia.
Defined.

(** X10 — [addOrderToBatch]: when the order is in no snapshot of the
    pre-wait, or when it is there and no read of its work-order-lines shows
    a line, the call returns [False] and sends no request: the batch is not
    created and no line is updated. *)
Theorem addOrderToBatch_nothing_to_assign
    (R : remote) (orderName batchName : string) (orderRank : nat) (t : nat) :
  let x := addOrderToBatch R orderName batchName orderRank t in
  ((forall j, j <= ADD_PREWAIT_polls R (S t) ->
      run_getOpenPPGPickOrders_specific R (t + j) orderName = []) ->
   result_of x = false /\ events_of x = [EvAddOrderToBatch orderName batchName orderRank])
  /\ (forall order rest,
        run_getOpenPPGPickOrders_specific R t orderName = order :: rest ->
        (forall j, (Z.of_nat (S j) <= Z.max 1 (WOL_POLL_ATTEMPTS R))%Z ->
           run_getOpenPPGWOLines_specific R (S t + j) (MasterorderId order) = []) ->
        result_of x = false
        /\ events_of x = [EvAddOrderToBatch orderName batchName orderRank]).
Proof.
  cbn zeta. split.
  - intros Hmiss. unfold addOrderToBatch. msimpl.
    pose proof (Hmiss 0 ltac:(lia)) as H0. rewrite Nat.add_0_r in H0.
    rewrite H0. cbn [df_empty]. msimpl.
    rewrite prewait_order_events.
    rewrite (prewait_order_missing R (ADD_PREWAIT_polls R (S t)) orderName (S t)).
    + done.
    + intros j Hj. replace (S t + j) with (t + S j) by lia. apply Hmiss. lia.
  - intros order rest Hvis Hlines. unfold addOrderToBatch. msimpl.
    rewrite Hvis. cbn [df_empty]. msimpl. rewrite wait_for_wolines_events.
    destruct (wait_for_wolines_spec R (MasterorderId order) (WOL_POLL_ATTEMPTS R) (S t))
      as (_ & k & Hk & _ & Hr & _).
    rewrite Hr, (Hlines k Hk). done.
Qed.

Lemma addOrderToBatch_nothing_to_assign_witness :
  let R := scripted_remote 1000 (Reply 201 None) (fun _ => Reply 200 None) in
  result_of (addOrderToBatch R "SO1" "B1" 1 0) = false
  /\ events_of (addOrderToBatch R "SO1" "B1" 1 0) = [EvAddOrderToBatch "SO1" "B1" 1].
Proof.
  intros R.
  apply (proj1 (addOrderToBatch_nothing_to_assign R "SO1" "B1" 1 0)).
  intros j Hj. cbn in Hj. do 3 (destruct j as [|j]; [reflexivity|]). lia.
Defined.


(** ** Accounting for the sales orders of a row *)

Lemma entries_setdefault_append d b s b' :
  entries (setdefault_append d b s) b'
  = entries d b' ++ (if decide (b' = b) then [s] else []).
Proof.
  unfold entries, setdefault_append. destruct (decide (b' = b)) as [->|Hne].
  - by rewrite lookup_insert_eq.
  - rewrite lookup_insert_ne by done. by rewrite app_nil_r.
Qed.

Lemma upsert_row_of (df : list shard_row) (row_out : shard_row) :
  rows_of (PPG_BatchName (shard_src row_out)) (upsert_row df row_out) = [row_out].
Proof. apply upsert_row_batch. Qed.

Lemma upsert_row_not_of (df : list shard_row) (row_out : shard_row) :
  rows_not_of (PPG_BatchName (shard_src row_out)) (upsert_row df row_out)
  = rows_not_of (PPG_BatchName (shard_src row_out)) df.
Proof.
  unfold rows_not_of, upsert_row. destruct df as [|r0 df0]; cbn [df_empty].
  - simpl. by rewrite String.eqb_refl.
  - generalize (r0 :: df0). intros l. rewrite List.filter_app.
    replace (List.filter _ [row_out]) with (@nil shard_row)
      by (simpl; by rewrite String.eqb_refl).
    rewrite app_nil_r.
    induction l as [|r l IH]; [done|]. cbn [List.filter].
    destruct (negb _) eqn:E; cbn [List.filter]; [by rewrite E, IH|done].
Qed.

(** The one bucket the [try] block puts its sales order in. *)
Lemma order_path_bucket bom ppg so sh loc evs r :
  order_path bom ppg so sh loc evs r ->
  let sh' := fst (except_clause so sh loc r) in
  let loc' := snd (except_clause so sh loc r) in
  exists a d c e : list string,
    a ++ d ++ c ++ e = [so]
    /\ allocated_arr loc' = allocated_arr loc ++ a
    /\ (forall b, entries (deferred_map sh') b
                  = entries (deferred_map sh) b
                    ++ (if decide (b = batch_name loc) then d else []))
    /\ (forall b, entries (deferred_create_map sh') b
                  = entries (deferred_create_map sh) b
                    ++ (if decide (b = batch_name loc) then c else []))
    /\ soNum <$> df_errors loc' = (soNum <$> df_errors loc) ++ e
    /\ (forall b, count_of sh' b
                  = count_of sh b + (if decide (b = batch_name loc) then length a else 0))
    /\ row loc' = row loc /\ df_ok loc' = df_ok loc /\ ok_files sh' = ok_files sh.
Proof.
  assert (Hnil : forall (d : gmap string (list string)) b,
             entries d b = entries d b ++ (if decide (b = batch_name loc) then [] else []))
    by (intros d b; destruct (decide _); by rewrite app_nil_r).
  assert (Hcnt : forall b, count_of sh b
                           = count_of sh b + (if decide (b = batch_name loc) then 0 else 0))
    by (intros b; destruct (decide _); lia).
  assert (Herr : forall rsn,
             soNum <$> (df_errors loc ++ [mk_error_row (row loc) so rsn])
             = (soNum <$> df_errors loc) ++ [so])
    by (intros rsn; by rewrite fmap_app).
  destruct 1 as [| |cleanup reply Hcl Hdef
                 |cleanup kev created aev Hcl Hcr Hdef Htr Hadd
                 |cleanup kev created aev Hcl Hcr Hdef Htr Hadd
                 |cleanup kev created Hcl Hcr Hdef Htr];
    cbn zeta; cbn [except_clause fst snd].
  - exists [], [], [], [so]. cbn [allocated_arr df_errors row df_ok].
    rewrite app_nil_r. by repeat split.
  - exists [], [], [], [so]. cbn [allocated_arr df_errors row df_ok].
    rewrite app_nil_r. by repeat split.
  - exists [], [], [so], []. rewrite !app_nil_r. split; [done|]. split; [done|].
    split; [done|]. split; [intros b; apply entries_setdefault_append|]. by repeat split.
  - exists [so], [], [], []. cbn [allocated_arr df_errors row df_ok].
    rewrite !app_nil_r. split; [done|]. split; [done|]. split; [done|]. split; [done|].
    split; [done|]. split; [|done].
    intros b. rewrite count_of_set_counts_insert.
    destruct (decide _) as [->|]; simpl; lia.
  - exists [], [so], [], []. rewrite !app_nil_r. split; [done|]. split; [done|].
    split; [intros b; apply entries_setdefault_append|]. by repeat split.
  - exists [], [], [], [so]. cbn [allocated_arr df_errors row df_ok].
    rewrite app_nil_r. by repeat split.
Qed.


Lemma persist_progress_shard thread_id rest (x : shared * local) :
  allocated_arr (snd (persist_progress thread_id rest x)) = allocated_arr (snd x)
  /\ df_ok (snd (persist_progress thread_id rest x))
     = upsert_row (df_ok (snd x)) (status_row (row (snd x)) (allocated_arr (snd x)))
  /\ ok_files (fst (persist_progress thread_id rest x))
     = <[thread_id := df_ok (snd (persist_progress thread_id rest x))]> (ok_files (fst x)).
Proof.
  destruct x as [sh loc]. cbn [persist_progress fst snd].
  by destruct (df_empty (df_errors loc)).
Qed.

Lemma one_bucket (so : string) (a d c e : list string) :
  a ++ d ++ c ++ e = [so] ->
  (a = [so] /\ d = [] /\ c = [] /\ e = [])
  \/ (a = [] /\ d = [so] /\ c = [] /\ e = [])
  \/ (a = [] /\ d = [] /\ c = [so] /\ e = [])
  \/ (a = [] /\ d = [] /\ c = [] /\ e = [so]).
Proof.
  destruct a as [|x a]; cbn [app].
  - destruct d as [|y d]; cbn [app].
    + destruct c as [|z c]; cbn [app].
      * intros ->. auto 10.
      * intros [= -> H]. apply app_eq_nil in H as [-> ->]. auto 10.
    + intros [= -> H]. apply app_eq_nil in H as [-> H].
      apply app_eq_nil in H as [-> ->]. auto 10.
  - intros [= -> H]. apply app_eq_nil in H as [-> H]. apply app_eq_nil in H as [-> H].
    apply app_eq_nil in H as [-> ->]. auto 10.
Qed.

Section RowAccounts.
Context (R : remote) (bom : list bom_row) (ppg : list order_row).

(** One iteration: the sales order lands in one bucket, and the status
    row of the batch is written to the thread's shard. *)
Lemma row_step_accounts thread_id so rest sh loc t :
  let x := row_step R bom ppg thread_id so rest sh loc t in
  let sh' := fst (result_of x) in
  let loc' := snd (result_of x) in
  exists a d c e : list string,
    a ++ d ++ c ++ e = [so]
    /\ allocated_arr loc' = allocated_arr loc ++ a
    /\ (forall b, entries (deferred_map sh') b
                  = entries (deferred_map sh) b
                    ++ (if decide (b = batch_name loc) then d else []))
    /\ (forall b, entries (deferred_create_map sh') b
                  = entries (deferred_create_map sh) b
                    ++ (if decide (b = batch_name loc) then c else []))
    /\ soNum <$> df_errors loc' = (soNum <$> df_errors loc) ++ e
    /\ (forall b, count_of sh' b
                  = count_of sh b + (if decide (b = batch_name loc) then length a else 0))
    /\ row loc' = row loc
    /\ df_ok loc' = upsert_row (df_ok loc) (status_row (row loc) (allocated_arr loc'))
    /\ ok_files sh' = <[thread_id := df_ok loc']> (ok_files sh).
Proof.
  cbn zeta. rewrite row_step_result.
  destruct (order_path_bucket _ _ _ _ _ _ _ (try_order_path R bom ppg so sh loc t))
    as (a & d & c & e & Hone & Ha & Hd & Hc & He & Hn & Hrow & Hok & Hfiles).
  set (y := except_clause so sh loc (result_of (try_order R bom ppg so sh loc t))) in *.
  destruct (persist_progress_keeps thread_id rest y) as (Hk1 & _ & Hk3 & _ & Hk5 & Hk6 & _).
  destruct (persist_progress_errors thread_id rest y) as (Hp1 & _).
  destruct (persist_progress_shard thread_id rest y) as (Hs1 & Hs2 & Hs3).
  exists a, d, c, e. split; [done|]. split; [by rewrite Hs1|].
  split; [intros b; by rewrite Hk5|]. split; [intros b; by rewrite Hk6|].
  split; [by rewrite Hp1|]. split; [intros b; by rewrite Hk1|].
  split; [by rewrite Hk3|]. split; [by rewrite Hs2, Hs1, Hok, Hrow|].
  by rewrite Hs3, Hfiles.
Qed.

(** The loop over a row's sales orders, run without interruption. *)
Lemma row_loop_accounts thread_id so_list :
  forall sh loc t,
    let x := row_loop R bom ppg thread_id so_list sh loc t in
    let sh' := fst (result_of x) in
    let loc' := snd (result_of x) in
    exists a d c e : list string,
      a ++ d ++ c ++ e ≡ₚ so_list
      /\ sublist a so_list
      /\ allocated_arr loc' = allocated_arr loc ++ a
      /\ (forall b, entries (deferred_map sh') b
                    = entries (deferred_map sh) b
                      ++ (if decide (b = batch_name loc) then d else []))
      /\ (forall b, entries (deferred_create_map sh') b
                    = entries (deferred_create_map sh) b
                      ++ (if decide (b = batch_name loc) then c else []))
      /\ soNum <$> df_errors loc' = (soNum <$> df_errors loc) ++ e
      /\ (forall b, count_of sh' b
                    = count_of sh b + (if decide (b = batch_name loc) then length a else 0))
      /\ row loc' = row loc
      /\ (so_list = [] -> sh' = sh /\ loc' = loc)
      /\ (so_list <> [] ->
          ok_files sh' = <[thread_id := df_ok loc']> (ok_files sh)
          /\ rows_of (batch_name loc) (df_ok loc')
             = [status_row (row loc) (allocated_arr loc')]
          /\ rows_not_of (batch_name loc) (df_ok loc')
             = rows_not_of (batch_name loc) (df_ok loc)).
Proof.
  induction so_list as [|so rest IH]; intros sh loc t; cbn zeta; cbn [row_loop].
  - exists [], [], [], []. cbn [result_of ret fst snd]. rewrite !app_nil_r.
    split; [done|]. split; [done|]. split; [done|].
    split; [intros b; destruct (decide _); by rewrite app_nil_r|].
    split; [intros b; destruct (decide _); by rewrite app_nil_r|].
    split; [done|]. split; [intros b; destruct (decide _); simpl; lia|].
    split; [done|]. split; [done|]. by intros [].
  - msimpl.
    destruct (row_step_accounts thread_id so rest sh loc t)
      as (a1 & d1 & c1 & e1 & Hone & Ha1 & Hd1 & Hc1 & He1 & Hn1 & Hrow1 & Hok1 & Hf1).
    set (x := row_step R bom ppg thread_id so rest sh loc t) in *.
    destruct (IH (fst (result_of x)) (snd (result_of x)) (clock_of x))
      as (a2 & d2 & c2 & e2 & Hperm & Hsub & Ha2 & Hd2 & Hc2 & He2 & Hn2 & Hrow2
          & Hnil & Hcons).
    set (y := row_loop R bom ppg thread_id rest (fst (result_of x)) (snd (result_of x))
                       (clock_of x)) in *.
    assert (Hname : batch_name (snd (result_of x)) = batch_name loc)
      by (unfold batch_name; by rewrite Hrow1).
    rewrite Hname in *.
    exists (a1 ++ a2), (d1 ++ d2), (c1 ++ c2), (e1 ++ e2).
    split; [|split; [|split; [|split; [|split; [|split; [|split; [|split; [|split]]]]]]]].
    + destruct (one_bucket _ _ _ _ _ Hone)
        as [(-> & -> & -> & ->)|[(-> & -> & -> & ->)|[(-> & -> & -> & ->)|(-> & -> & -> & ->)]]];
        cbn [app].
      * by constructor.
      * rewrite <- Permutation_middle. by constructor.
      * rewrite (app_assoc a2), <- Permutation_middle, <- app_assoc. by constructor.
      * rewrite (app_assoc d2), (app_assoc a2), <- Permutation_middle, <- !app_assoc.
        by constructor.
    + destruct (one_bucket _ _ _ _ _ Hone)
        as [(-> & _)|[(-> & _)|[(-> & _)|(-> & _)]]]; cbn [app];
        [by apply sublist_skip|by apply sublist_cons..].
    + by rewrite Ha2, Ha1, app_assoc.
    + intros b. rewrite Hd2, Hd1, <- app_assoc. f_equal.
      destruct (decide _); [done|by rewrite app_nil_r].
    + intros b. rewrite Hc2, Hc1, <- app_assoc. f_equal.
      destruct (decide _); [done|by rewrite app_nil_r].
    + by rewrite He2, He1, app_assoc.
    + intros b. rewrite Hn2, Hn1. destruct (decide _); [rewrite length_app|]; lia.
    + by rewrite Hrow2.
    + discriminate.
    + intros _. destruct rest as [|so2 rest2].
      * destruct (Hnil eq_refl) as [Hsh Hloc]. rewrite Hsh, Hloc.
        split; [done|]. rewrite Hok1. unfold batch_name.
        split; [exact (upsert_row_of (df_ok loc) (status_row (row loc) _))
               |exact (upsert_row_not_of (df_ok loc) (status_row (row loc) _))].
      * destruct Hcons as (Hf2 & Hr2 & Hnr2); [done|].
        split; [|split].
        -- rewrite Hf2, Hf1. apply insert_insert_eq.
        -- by rewrite Hr2, Hrow1.
        -- rewrite Hnr2, Hok1. unfold batch_name.
           exact (upsert_row_not_of (df_ok loc) (status_row (row loc) _)).
Qed.

End RowAccounts.


Lemma row_begin_shard thread_id r sh :
  ok_files (fst (row_begin thread_id r sh)) = ok_files sh
  /\ df_ok (snd (row_begin thread_id r sh)) = default [] (ok_files sh !! thread_id)
  /\ allocated_arr (snd (row_begin thread_id r sh)) = [].
Proof. unfold row_begin. by destruct (batch_order_counts sh !! PPG_BatchName r). Qed.

Section ProcessRow.
Context (R : remote) (bom : list bom_row) (ppg : list order_row).

Lemma row_loop_cache thread_id so_list :
  forall sh loc t,
    df_errors_by_thread (fst (result_of (row_loop R bom ppg thread_id so_list sh loc t)))
    = df_errors_by_thread sh.
Proof.
  induction so_list as [|so rest IH]; intros sh loc t; cbn [row_loop]; [done|].
  msimpl. rewrite IH.
  by destruct (row_step_error_effect R bom ppg thread_id so rest sh loc t) as (H & _).
Qed.

(** What [_process_single_batch_row] leaves behind, run without
    interruption. *)
Lemma process_row_accounts thread_id r sh t :
  let sh' := result_of (_process_single_batch_row R bom ppg thread_id r sh t) in
  let so_list := _safe_split_docnums (DocNums r) in
  exists a d c e : list string,
    a ++ d ++ c ++ e ≡ₚ so_list
    /\ sublist a so_list
    /\ (forall b, entries (deferred_map sh') b
                  = entries (deferred_map sh) b
                    ++ (if decide (b = PPG_BatchName r) then d else []))
    /\ (forall b, entries (deferred_create_map sh') b
                  = entries (deferred_create_map sh) b
                    ++ (if decide (b = PPG_BatchName r) then c else []))
    /\ soNum <$> default [] (df_errors_by_thread sh' !! thread_id)
       = (soNum <$> default [] (df_errors_by_thread sh !! thread_id)) ++ e
    /\ (forall b, count_of sh' b
                  = count_of sh b + (if decide (b = PPG_BatchName r) then length a else 0))
    /\ (so_list = [] -> ok_files sh' = ok_files sh)
    /\ (so_list <> [] ->
        exists df,
          ok_files sh' = <[thread_id := df]> (ok_files sh)
          /\ rows_of (PPG_BatchName r) df = [status_row r a]
          /\ rows_not_of (PPG_BatchName r) df
             = rows_not_of (PPG_BatchName r) (default [] (ok_files sh !! thread_id))).
Proof.
  cbn zeta. unfold _process_single_batch_row.
  destruct (row_begin_counts thread_id r sh) as (Hc0 & _ & Hrow0 & Htodo0).
  destruct (row_begin_maps thread_id r sh) as (Hdc0 & Hd0).
  destruct (row_begin_errors thread_id r sh) as (_ & Hcache0 & Herr0).
  destruct (row_begin_shard thread_id r sh) as (Hfiles0 & Hok0 & Hal0).
  destruct (row_begin thread_id r sh) as [sh0 loc0]. cbn [fst snd] in *.
  msimpl.
  destruct (row_loop_accounts R bom ppg thread_id (todo loc0) sh0 loc0 t)
    as (a & d & c & e & Hperm & Hsub & Ha & Hd & Hc & He & Hn & Hrow & Hnil & Hcons).
  pose proof (row_loop_cache thread_id (todo loc0) sh0 loc0 t) as Hcache.
  set (x := row_loop R bom ppg thread_id (todo loc0) sh0 loc0 t) in *.
  assert (Hname : batch_name loc0 = PPG_BatchName r) by (unfold batch_name; by rewrite Hrow0).
  rewrite Hname, Htodo0, ?Hal0 in *. cbn [app] in Ha.
  exists a, d, c, e. unfold row_end.
  cbn [deferred_map deferred_create_map set_df_errors_by_thread df_errors_by_thread ok_files].
  split; [done|]. split; [done|].
  split; [intros b; by rewrite Hd, Hd0|]. split; [intros b; by rewrite Hc, Hdc0|].
  split; [rewrite lookup_insert_eq; cbn [from_option id]; by rewrite He, Herr0|].
  split; [intros b; unfold count_of in *; cbn [batch_order_counts]; by rewrite Hn, Hc0|].
  split.
  - intros E. destruct (Hnil E) as [-> _]. done.
  - intros E. destruct (Hcons E) as (Hf & Hr & Hnr).
    exists (df_ok (snd (result_of x))). rewrite Hf, Hfiles0, Hr, Hnr, Hrow0, Ha, Hok0. done.
Qed.

End ProcessRow.

(** X11 — [_process_single_batch_row]: every sales order of the row is
    accounted for exactly once.  Run without interruption, the orders of
    the row are, up to their order, those added to the batch, those queued
    for the batch in the deferred-assign map, those queued in the
    deferred-create map and those recorded in the thread's error table;
    the orders added to the batch keep the order of the row, and the
    batch's counter advances by their number. *)
Theorem process_row_accounts_for_every_order
    (R : remote) (bom : list bom_row) (ppg : list order_row)
    (thread_id : nat) (r : batch_in) (sh : shared) (t : nat) :
  let sh' := result_of (_process_single_batch_row R bom ppg thread_id r sh t) in
  let so_list := _safe_split_docnums (DocNums r) in
  exists a d c e : list string,
    a ++ d ++ c ++ e ≡ₚ so_list
    /\ sublist a so_list
    /\ (forall b, count_of sh' b
                  = count_of sh b + (if decide (b = PPG_BatchName r) then length a else 0))
    /\ (forall b, entries (deferred_map sh') b
                  = entries (deferred_map sh) b
                    ++ (if decide (b = PPG_BatchName r) then d else []))
    /\ (forall b, entries (deferred_create_map sh') b
                  = entries (deferred_create_map sh) b
                    ++ (if decide (b = PPG_BatchName r) then c else []))
    /\ soNum <$> default [] (df_errors_by_thread sh' !! thread_id)
       = (soNum <$> default [] (df_errors_by_thread sh !! thread_id)) ++ e
    /\ (so_list <> [] ->
        exists df, ok_files sh' !! thread_id = Some df
                   /\ rows_of (PPG_BatchName r) df = [status_row r a]).
Proof.
  cbn zeta.
  destruct (process_row_accounts R bom ppg thread_id r sh t)
    as (a & d & c & e & Hperm & Hsub & Hd & Hc & He & Hn & _ & Hcons).
  exists a, d, c, e. split; [done|]. split; [done|]. split; [done|]. split; [done|].
  split; [done|]. split; [done|].
  intros E. destruct (Hcons E) as (df & Hf & Hr & _). exists df.
  split; [|done]. rewrite Hf. apply lookup_insert_eq.
Qed.

Lemma process_row_accounts_for_every_order_witness :
  let R := scripted_remote 0 (Reply 201 None)
             (fun t => if Nat.ltb t 12 then Reply 500 None else Reply 200 None) in
  let sh' := result_of (_process_single_batch_row R example_bom example_ppg 1 example_row
                                                  empty_shared 0) in
  entries (deferred_map sh') "B1" = ["SO1"]
  /\ exists df, ok_files sh' !! 1 = Some df /\ rows_of "B1" df = [status_row example_row ["SO2"]].
Proof.
  intros R sh'. split; [reflexivity|].
  destruct (process_row_accounts_for_every_order R example_bom example_ppg 1 example_row
              empty_shared 0) as (a & d & c & e & _ & _ & Hn & _ & _ & _ & Hdf).
  destruct Hdf as (df & Hdf & Hrows); [discriminate|].
  exists df. split; [exact Hdf|].
  fold sh' in Hdf. vm_compute in Hdf. injection Hdf as <-. reflexivity.
Defined.


Lemma Forall_of_sublist {A} (P : A -> Prop) (l1 l2 : list A) :
  sublist l1 l2 -> Forall P l2 -> Forall P l1.
Proof.
  induction 1 as [|x l1 l2 _ IH|x l1 l2 _ IH]; intros H; [done| |].
  - inversion H; subst. constructor; auto.
  - inversion H; subst. auto.
Qed.

Lemma status_row_items (r : batch_in) (a : list string) :
  Forall so_token a ->
  row_items (status_row r a) = a /\ soCount (status_row r a) = length (row_items (status_row r a)).
Proof.
  intros Ha. unfold row_items, status_row. cbn [ordersBatched soCount].
  by rewrite csv_items_join.
Qed.

(** X12 — [_process_single_batch_row]: the status row of a batch.  A row
    without sales orders writes nothing to the shards.  Otherwise the shard
    of the thread holds afterwards exactly one row for the batch: it
    carries the batch row, its [ordersBatched] lists sales orders of the
    row in the order of the row, and its [soCount] is the number of these
    entries; the rows of the other batches in that shard and all other
    shards are as before. *)
Theorem process_row_status_row
    (R : remote) (bom : list bom_row) (ppg : list order_row)
    (thread_id : nat) (r : batch_in) (sh : shared) (t : nat) :
  let sh' := result_of (_process_single_batch_row R bom ppg thread_id r sh t) in
  let so_list := _safe_split_docnums (DocNums r) in
  (so_list = [] -> ok_files sh' = ok_files sh)
  /\ (so_list <> [] ->
      exists df row_out,
        ok_files sh' = <[thread_id := df]> (ok_files sh)
        /\ rows_of (PPG_BatchName r) df = [row_out]
        /\ shard_src row_out = r
        /\ sublist (row_items row_out) so_list
        /\ soCount row_out = length (row_items row_out)
        /\ rows_not_of (PPG_BatchName r) df
           = rows_not_of (PPG_BatchName r) (default [] (ok_files sh !! thread_id))).
Proof.
  cbn zeta.
  destruct (process_row_accounts R bom ppg thread_id r sh t)
    as (a & d & c & e & _ & Hsub & _ & _ & _ & _ & Hnil & Hcons).
  split; [done|]. intros E. destruct (Hcons E) as (df & Hf & Hr & Hnr).
  assert (Ha : Forall so_token a).
  { eapply Forall_of_sublist; [exact Hsub|apply safe_split_docnums_tokens]. }
  destruct (status_row_items r a Ha) as [Hitems Hcount].
  exists df, (status_row r a). split; [done|]. split; [done|]. split; [done|].
  split; [by rewrite Hitems|]. by split.
Qed.

Lemma process_row_status_row_witness :
  let R := scripted_remote 0 (Reply 201 None) (fun _ => Reply 200 None) in
  let sh' := result_of (_process_single_batch_row R example_bom example_ppg 1 example_row
                                                  empty_shared 0) in
  exists df row_out,
    ok_files sh' = <[1 := df]> ∅
    /\ rows_of "B1" df = [row_out]
    /\ soCount row_out = length (row_items row_out).
Proof.
  intros R sh'.
  destruct (proj2 (process_row_status_row R example_bom example_ppg 1 example_row
                     empty_shared 0)) as (df & row_out & Hf & Hr & _ & _ & Hc & _).
  { discriminate. }
  exists df, row_out. split; [exact Hf|]. split; [exact Hr|exact Hc].
Defined.


(** ** The clean-up before the create *)

Lemma assign_event_not_cleanup (evs : list event) :
  Forall (fun ev => add_attempt ev = None /\ is_assign_event ev = true) evs ->
  Forall (fun ev => is_cleanup ev = false) evs.
Proof.
  intros H. eapply Forall_impl; [exact H|]. intros ev [_ Hev]. by destruct ev.
Qed.

Section CleanupFacts.
Context (R : remote) (bom : list bom_row) (ppg : list order_row).

Lemma cleanup_if_present_length so t :
  length (events_of (cleanup_if_present R ppg so t)) <= 122.
Proof.
  unfold cleanup_if_present. destruct (negb _); [|cbn; lia].
  msimpl. rewrite app_nil_r, length_app. unfold deAllocateOrder, deleteOrder.
  destruct (deAllocateOrder_loop_spec R 61 so t) as (k1 & Hk1 & Hl1 & _).
  destruct (deleteOrder_loop_spec R 61 so (clock_of (deAllocateOrder_loop R 61 so t)))
    as (k2 & Hk2 & Hl2 & _).
  lia.
Qed.

Lemma try_order_cleanup so sh loc t :
  exists cleanup rest,
    events_of (try_order R bom ppg so sh loc t) = cleanup ++ rest
    /\ (cleanup = [] \/ (bom <> [] /\ ppg <> []
                        /\ cleanup = events_of (cleanup_if_present R ppg so t)))
    /\ Forall (fun ev => is_cleanup ev = true) cleanup
    /\ Forall (fun ev => is_cleanup ev = false) rest.
Proof.
  unfold try_order.
  destruct bom as [|b0 bom'] eqn:Ebom.
  { exists [], []. split; [done|]. split; [by left|]. by split. }
  destruct ppg as [|p0 ppg'] eqn:Eppg.
  { exists [], []. split; [done|]. split; [by left|]. by split. }
  rewrite <- Ebom, <- Eppg. msimpl.
  exists (events_of (cleanup_if_present R ppg so t)). eexists. split; [reflexivity|].
  split; [right; rewrite Ebom, Eppg; by repeat split|].
  split; [apply cleanup_if_present_events|].
  set (t1 := clock_of (cleanup_if_present R ppg so t)).
  set (bom_so := List.filter _ bom).
  assert (Hk : Forall (fun ev => is_cleanup ev = false)
                      (events_of (createOrder R so bom_so t1))).
  { destruct (createOrder_facts R so bom_so t1) as [(-> & _)|(reply & -> & _)];
      by repeat constructor. }
  apply Forall_app. split; [done|].
  destruct (is_defer_create _); [by msimpl|].
  destruct (truthy _); [|by msimpl].
  msimpl.
  destruct (addOrderToBatch_facts R so (batch_name loc) (current_rank loc)
              (clock_of (createOrder R so bom_so t1))) as (aev & He & Hadd & _).
  rewrite He. apply Forall_app. split.
  - constructor; [done|]. by apply assign_event_not_cleanup.
  - by destruct (result_of (addOrderToBatch R so _ _ _)); msimpl.
Qed.

End CleanupFacts.

(** X13 — the clean-up of the main pass.  In one iteration of
    [_process_single_batch_row] all deallocation and delete requests come
    before the create and the assignment, and there are at most 122 of
    them; for a sales order that the preloaded snapshot of pick orders does
    not list, none is sent. *)
Theorem main_pass_cleanup_first
    (R : remote) (bom : list bom_row) (ppg : list order_row)
    (thread_id : nat) (so : string) (rest : list string)
    (sh : shared) (loc : local) (t : nat) :
  let x := row_step R bom ppg thread_id so rest sh loc t in
  (exists cleanup others,
     events_of x = cleanup ++ others
     /\ Forall (fun ev => is_cleanup ev = true) cleanup
     /\ Forall (fun ev => is_cleanup ev = false) others
     /\ length cleanup <= 122)
  /\ (List.filter (fun r => String.eqb (MasterorderName r) so) ppg = [] ->
      Forall (fun ev => is_cleanup ev = false) (events_of x)).
Proof.
  cbn zeta. rewrite row_step_events.
  destruct (try_order_cleanup R bom ppg so sh loc t)
    as (cleanup & others & He & Hcase & Hcl & Hot).
  split.
  - exists cleanup, others. split; [done|]. split; [done|]. split; [done|].
    destruct Hcase as [->|(_ & _ & ->)]; [cbn; lia|apply cleanup_if_present_length].
  - intros Hnot. rewrite He. apply Forall_app. split; [|done].
    destruct Hcase as [->|(_ & _ & ->)]; [done|].
    unfold cleanup_if_present. rewrite Hnot. by cbn.
Qed.

Lemma main_pass_cleanup_first_witness :
  let R := scripted_remote 0 (Reply 201 None) (fun _ => Reply 200 None) in
  Forall (fun ev => is_cleanup ev = false)
         (events_of (row_step R example_bom example_ppg 1 "SO1" ["SO2"]
                              example_shared example_local 0)).
Proof.
  intros R.
  apply (proj2 (main_pass_cleanup_first R example_bom example_ppg 1 "SO1" ["SO2"]
                  example_shared example_local 0)).
  reflexivity.
Defined.


(** ** Reconciliation leaves the other batches alone *)

(** X14 — [_apply_deferred_successes_to_parquets]: the shard files stay
    the same set of files with the same number of rows each; every row
    keeps its batch row, and a row whose batch name is no key of the map is
    not changed at all. *)
Theorem apply_deferred_successes_other_batches
    (deferred_success_map : list (string * list string))
    (files : gmap nat (list shard_row)) (i : nat) :
  let files' := _apply_deferred_successes_to_parquets files deferred_success_map in
  match files !! i with
  | None => files' !! i = None
  | Some df =>
      exists df',
        files' !! i = Some df'
        /\ length df' = length df
        /\ shard_src <$> df' = shard_src <$> df
        /\ forall j r, df !! j = Some r ->
             (forall it, it ∈ deferred_success_map -> fst it <> PPG_BatchName (shard_src r)) ->
             df' !! j = Some r
  end.
Proof.
  cbn zeta. unfold _apply_deferred_successes_to_parquets.
  destruct (df_empty deferred_success_map).
  - destruct (files !! i) as [df|]; [|done]. exists df. by repeat split.
  - rewrite lookup_fmap. destruct (files !! i) as [df|]; [|done]. cbn.
    exists (merge_frame deferred_success_map df). split; [done|].
    rewrite merge_frame_rows. split; [apply length_map|]. split.
    + change (List.map ?f ?l) with (f <$> l). rewrite <- list_fmap_compose.
      apply list_fmap_ext. intros j r _. apply merge_row_src.
    + intros j r Hj Hno. change (List.map ?f ?l) with (f <$> l).
      rewrite list_lookup_fmap, Hj. cbn. f_equal. by apply merge_row_unselected.
Qed.

Lemma apply_deferred_successes_other_batches_witness :
  let m := [("B1", ["SO2"])] in
  let row2 := mk_shard_row (mk_batch_in "B2" "SO3" None) "SO3" 1 in
  let files : gmap nat (list shard_row) :=
    {[ 1 := [mk_shard_row (mk_batch_in "B1" "SO1, SO2" None) "SO1" 1; row2] ]} in
  exists df', _apply_deferred_successes_to_parquets files m !! 1 = Some df'
              /\ df' !! 1 = Some row2.
Proof.
  intros m row2 files.
  pose proof (apply_deferred_successes_other_batches m files 1) as H.
  cbn zeta in H. change (files !! 1) with (Some [mk_shard_row (mk_batch_in "B1" "SO1, SO2" None)
                                                   "SO1" 1; row2]) in H at 1.
  destruct H as (df' & Hf & _ & _ & Hrow). exists df'. split; [exact Hf|].
  apply Hrow; [reflexivity|].
  intros it Hit. apply list_elem_of_singleton in Hit as ->. discriminate.
Defined.


(** ** The tail passes: what they visit and what they leave alone *)

Lemma attempted_app (l1 l2 : list event) : attempted (l1 ++ l2) = attempted l1 ++ attempted l2.
Proof. unfold attempted. by rewrite add_attempts_app, fmap_app. Qed.

Lemma attempted_call order batch rank (aev : list event) :
  Forall (fun ev => add_attempt ev = None /\ is_assign_event ev = true) aev ->
  attempted (EvAddOrderToBatch order batch rank :: aev) = [(order, batch)].
Proof.
  intros Hk. unfold attempted. rewrite add_attempts_call.
  by destruct (assign_projections _ Hk) as (_ & _ & ->).
Qed.

Lemma for_each_attempted_sublist {A B} (body : B -> A -> M B)
    (plan : A -> list (string * string)) (l : list A) :
  (forall acc x t, sublist (attempted (events_of (body acc x t))) (plan x)) ->
  forall acc t,
    sublist (attempted (events_of (for_each body l acc t))) (concat (plan <$> l)).
Proof.
  intros Hbody. induction l as [|x l IH]; intros acc t; simpl; [done|].
  msimpl. rewrite attempted_app. by apply sublist_app.
Qed.

Lemma concat_singletons {A B} (f : A -> B) (l : list A) :
  concat ((fun x => [f x]) <$> l) = f <$> l.
Proof. induction l as [|x l IH]; [done|]. csimpl. by rewrite IH. Qed.

Section TailPlan.
Context (R : remote) (bom : list bom_row).

Lemma tail_attempt_frame so batch sh (succ : list (string * list string)) t :
  let y := bind (addOrderToBatch R so batch (count_of sh batch + 1))
             (fun success : bool =>
                if success
                then ret (set_counts sh (<[batch := count_of sh batch + 1]>
                                           (batch_order_counts sh)),
                          dict_append succ batch so)
                else ret (sh, succ)) t in
  tail_frame (fst (result_of y)) = tail_frame sh
  /\ attempted (events_of y) = [(so, batch)].
Proof.
  cbn zeta. msimpl.
  destruct (addOrderToBatch_spec R so batch (count_of sh batch + 1) t)
    as (aev & He & Hk & _).
  rewrite He.
  destruct (result_of (addOrderToBatch R so batch _ t)); msimpl; rewrite app_nil_r;
    (split; [done|by apply attempted_call]).
Qed.

Lemma retry_deferred_one_plan batch acc so t :
  let x := retry_deferred_one R batch acc so t in
  tail_frame (fst (result_of x)) = tail_frame (fst acc)
  /\ sublist (attempted (events_of x)) [(so, batch)]
  /\ (run_getOpenPPGPickOrders_specific R t so = [] ->
      events_of x = [] /\ result_of x = acc)
  /\ (run_getOpenPPGPickOrders_specific R t so <> [] ->
      attempted (events_of x) = [(so, batch)]).
Proof.
  destruct acc as [sh succ]. cbn zeta. unfold retry_deferred_one. msimpl.
  destruct (run_getOpenPPGPickOrders_specific R t so) as [|o orders]; cbn [df_empty].
  - cbn. split; [done|]. split; [apply sublist_nil_l|]. by split.
  - destruct (tail_attempt_frame so batch sh succ (S t)) as (Hf & Ha).
    cbn [app]. rewrite Hf, Ha. split; [done|]. split; [done|]. by split.
Qed.

Lemma retry_create_one_plan batch acc so t :
  let x := retry_create_one R bom batch acc so t in
  tail_frame (fst (result_of x)) = tail_frame (fst acc)
  /\ sublist (attempted (events_of x)) [(so, batch)].
Proof.
  cbn zeta.
  destruct (retry_create_one_spec R bom batch acc so t)
    as (kev & aev & He & _ & Hkev & Haev & Hdc & Hd).
  split.
  - clear He Hkev Haev Hdc Hd. destruct acc as [sh succ]. unfold retry_create_one.
    rewrite bind_unfold. cbn [result_of events_of clock_of fst snd].
    set (w := _final_visibility_wait_for_order R so t).
    rewrite bind_unfold. cbn [result_of events_of clock_of fst snd].
    match goal with |- context [result_of (?c (clock_of w))] => set (cr := c (clock_of w)) end.
    destruct (result_of cr) as [[|]|]; try done.
    by destruct (tail_attempt_frame so batch sh succ (clock_of cr)) as (Hf & _).
  - rewrite He, attempted_app.
    assert (Hk0 : attempted kev = []).
    { destruct Hkev as [->|(reply & -> & _)]; done. }
    rewrite Hk0. cbn [app].
    destruct Haev as [->|(aev' & -> & Hk)]; [apply sublist_nil_l|].
    by rewrite attempted_call.
Qed.

End TailPlan.


(** X15 — [_retry_deferred_tail]: the calls of [addOrderToBatch] it makes
    follow the deferred-assign map in the order by batch name and then by
    queueing, each entry at most once; an entry whose order no snapshot
    shows is skipped without a call; no create request is sent; the
    deferred maps, the error files and the error tables are left as they
    were; with an empty map nothing is read or sent. *)
Theorem retry_deferred_tail_visits_plan (R : remote) (sh : shared) (t : nat) :
  let x := _retry_deferred_tail R sh t in
  sublist (attempted (events_of x)) (retry_plan (deferred_map sh))
  /\ (forall so, create_submissions so (events_of x) = 0)
  /\ tail_frame (result_of x) = tail_frame sh
  /\ (deferred_map sh = ∅ -> events_of x = [] /\ result_of x = sh /\ clock_of x = t)
  /\ (forall batch acc so t',
        run_getOpenPPGPickOrders_specific R t' so = [] ->
        events_of (retry_deferred_one R batch acc so t') = []
        /\ result_of (retry_deferred_one R batch acc so t') = acc).
Proof.
  cbn zeta. split; [|split; [|split; [|split]]].
  - unfold _retry_deferred_tail. destruct (decide (deferred_map sh = ∅)); [apply sublist_nil_l|].
    msimpl. rewrite app_nil_r. unfold retry_plan.
    apply (for_each_attempted_sublist _
             (fun batch => (fun so => (so, batch)) <$> entries (deferred_map sh) batch)).
    intros acc batch t'. rewrite <- concat_singletons.
    apply (for_each_attempted_sublist _ (fun so => [(so, batch)])).
    intros acc' so t''. apply retry_deferred_one_plan.
  - intros so. apply retry_deferred_tail_creates.
  - unfold _retry_deferred_tail. destruct (decide (deferred_map sh = ∅)); [done|].
    msimpl.
    change (tail_frame (set_ok_files ?s ?f)) with (tail_frame s).
    refine (for_each_keeps (fun acc => tail_frame (fst acc)) _ _ _ (sh, []) t).
    intros acc batch t'.
    apply (for_each_keeps (fun acc => tail_frame (fst acc))).
    intros acc' so t''. apply retry_deferred_one_plan.
  - intros E. unfold _retry_deferred_tail. by rewrite decide_True.
  - intros batch acc so t' Hmiss.
    by destruct (retry_deferred_one_plan R batch acc so t') as (_ & _ & H & _); apply H.
Qed.

Lemma retry_deferred_tail_visits_plan_witness :
  let R := scripted_remote 1000 (Reply 201 None) (fun _ => Reply 200 None) in
  events_of (retry_deferred_one R "B1" (empty_shared, []) "SO1" 0) = [].
Proof.
  intros R.
  refine (proj1 (proj2 (proj2 (proj2 (proj2 (retry_deferred_tail_visits_plan R empty_shared 0))))
                  "B1" (empty_shared, []) "SO1" 0 _)).
  reflexivity.
Defined.

(** X16 — [_retry_deferred_create_then_add_tail]: the calls of
    [addOrderToBatch] it makes follow the deferred-create map in the order
    by batch name and then by queueing, each entry at most once; the
    deferred maps, the error files and the error tables are left as they
    were; with an empty map nothing is read or sent. *)
Theorem retry_deferred_create_tail_visits_plan
    (R : remote) (bom : list bom_row) (sh : shared) (t : nat) :
  let x := _retry_deferred_create_then_add_tail R bom sh t in
  sublist (attempted (events_of x)) (retry_plan (deferred_create_map sh))
  /\ tail_frame (result_of x) = tail_frame sh
  /\ (deferred_create_map sh = ∅ -> events_of x = [] /\ result_of x = sh /\ clock_of x = t).
Proof.
  cbn zeta. split; [|split].
  - unfold _retry_deferred_create_then_add_tail.
    destruct (decide (deferred_create_map sh = ∅)); [apply sublist_nil_l|].
    msimpl. rewrite app_nil_r. unfold retry_plan.
    apply (for_each_attempted_sublist _
             (fun batch => (fun so => (so, batch)) <$> entries (deferred_create_map sh) batch)).
    intros acc batch t'. rewrite <- concat_singletons.
    apply (for_each_attempted_sublist _ (fun so => [(so, batch)])).
    intros acc' so t''. apply retry_create_one_plan.
  - unfold _retry_deferred_create_then_add_tail.
    destruct (decide (deferred_create_map sh = ∅)); [done|].
    msimpl.
    change (tail_frame (set_ok_files ?s ?f)) with (tail_frame s).
    refine (for_each_keeps (fun acc => tail_frame (fst acc)) _ _ _ (sh, []) t).
    intros acc batch t'.
    apply (for_each_keeps (fun acc => tail_frame (fst acc))).
    intros acc' so t''. apply retry_create_one_plan.
  - intros E. unfold _retry_deferred_create_then_add_tail. by rewrite decide_True.
Qed.

Lemma retry_deferred_create_tail_visits_plan_witness :
  let R := scripted_remote 0 (Reply 201 None) (fun _ => Reply 200 None) in
  events_of (_retry_deferred_create_then_add_tail R example_bom empty_shared 0) = [].
Proof.
  intros R.
  refine (proj1 (proj2 (proj2 (retry_deferred_create_tail_visits_plan R example_bom
                                 empty_shared 0)) _)).
  reflexivity.
Defined.


(** ** Create requests of the sequential driver *)

Section SequentialCreates.
Context (R : remote) (bom : list bom_row) (ppg : list order_row).

Lemma row_loop_creates so thread_id so_list :
  forall sh loc t,
    let x := row_loop R bom ppg thread_id so_list sh loc t in
    create_submissions so (events_of x) <= listed so so_list
    /\ deferred_creates so (deferred_create_map (fst (result_of x)))
       <= deferred_creates so (deferred_create_map sh) + create_submissions so (events_of x).
Proof.
  induction so_list as [|s rest IH]; intros sh loc t; cbn zeta; cbn [row_loop].
  - rewrite listed_nil. cbn. lia.
  - msimpl. rewrite create_submissions_app, listed_cons.
    destruct (row_step_create_effect R bom ppg so thread_id s rest sh loc t) as (H1 & H2).
    set (x := row_step R bom ppg thread_id s rest sh loc t) in *.
    destruct (IH (fst (result_of x)) (snd (result_of x)) (clock_of x)) as (H3 & H4).
    lia.
Qed.

Lemma process_row_creates so thread_id r sh t :
  let x := _process_single_batch_row R bom ppg thread_id r sh t in
  create_submissions so (events_of x) <= listed so (row_tasks r)
  /\ deferred_creates so (deferred_create_map (result_of x))
     <= deferred_creates so (deferred_create_map sh) + create_submissions so (events_of x).
Proof.
  cbn zeta. unfold _process_single_batch_row.
  destruct (row_begin_counts thread_id r sh) as (_ & _ & _ & Ht0).
  destruct (row_begin_maps thread_id r sh) as (Hdc0 & _).
  destruct (row_begin thread_id r sh) as [sh0 loc0]. cbn [fst snd] in *.
  msimpl. rewrite app_nil_r.
  destruct (row_loop_creates so thread_id (todo loc0) sh0 loc0 t) as (H1 & H2).
  rewrite Ht0, Hdc0 in *. by split.
Qed.

Lemma rows_creates so thread_id rows :
  forall sh t,
    let x := for_each (fun sh r => _process_single_batch_row R bom ppg thread_id r sh)
                      rows sh t in
    create_submissions so (events_of x) <= listed_in so rows
    /\ deferred_creates so (deferred_create_map (result_of x))
       <= deferred_creates so (deferred_create_map sh) + create_submissions so (events_of x).
Proof.
  induction rows as [|r rows IH]; intros sh t; cbn zeta; cbn [for_each].
  - cbn. lia.
  - msimpl. rewrite create_submissions_app. unfold listed_in. cbn [sum_list_with].
    destruct (process_row_creates so thread_id r sh t) as (H1 & H2).
    set (x := _process_single_batch_row R bom ppg thread_id r sh t) in *.
    destruct (IH (result_of x) (clock_of x)) as (H3 & H4).
    unfold listed_in in H3. lia.
Qed.

End SequentialCreates.

(** X17 — [batch_and_allocate_orders_optimized]: over the whole run of
    the single-thread wrapper the create request for a sales order is
    submitted at most twice per listing of the order in the table, hence at
    most twice for an order listed once and never for an order the table
    does not list. *)
Theorem sequential_driver_creates
    (R : remote) (bom : list bom_row) (ppg : list order_row)
    (df : list batch_in) (thread_id : nat) (t : nat) (so : string) :
  let x := batch_and_allocate_orders_optimized R bom ppg df thread_id t in
  create_submissions so (events_of x) <= 2 * listed_in so df
  /\ (listed_in so df = 1 -> create_submissions so (events_of x) <= 2)
  /\ (listed_in so df = 0 -> create_submissions so (events_of x) = 0).
Proof.
  cbn zeta.
  assert (H : create_submissions so
                (events_of (batch_and_allocate_orders_optimized R bom ppg df thread_id t))
              <= 2 * listed_in so df).
  { unfold batch_and_allocate_orders_optimized. msimpl. rewrite !create_submissions_app.
    destruct (rows_creates R bom ppg so thread_id df empty_shared t) as (H1 & H2).
    set (x := for_each _ df empty_shared t) in *.
    destruct (retry_deferred_tail_creates R so (result_of x) (clock_of x)) as (Hz & Hsame).
    set (y := _retry_deferred_tail R (result_of x) (clock_of x)) in *.
    pose proof (create_tail_creates R bom so (result_of y) (clock_of y)) as Ht.
    rewrite Hsame in Ht.
    assert (H0 : deferred_creates so (deferred_create_map empty_shared) = 0) by reflexivity.
    lia. }
  split; [exact H|]. split; intros E; rewrite E in H; lia.
Qed.

Lemma sequential_driver_creates_witness :
  let R := scripted_remote 1000 (Reply 500 None) (fun _ => Reply 200 None) in
  let x := batch_and_allocate_orders_optimized R example_bom example_ppg [example_row] 1 0 in
  create_submissions "SO1" (events_of x) = 2 /\ create_submissions "SO3" (events_of x) = 0.
Proof.
  intros R x. split; [reflexivity|].
  apply (proj2 (proj2 (sequential_driver_creates R example_bom example_ppg [example_row]
                         1 0 "SO3"))).
  reflexivity.
Defined.


(** ** Leaving the executor *)

Section PoolExit.
Context (R : remote) (bom : list bom_row) (ppg : list order_row).

Lemma worker_step_exit_ok i p t :
  pool_exit_ok p ->
  pool_exit_ok (result_of (worker_step R bom ppg i p t))
  /\ length (workers (result_of (worker_step R bom ppg i p t))) = length (workers p).
Proof.
  destruct p as [qu ws sh]. unfold pool_exit_ok, worker_step. cbn [q workers store].
  intros Hok.
  assert (Hkeep : forall w, w <> Exited ->
             (exists j, <[i := w]> ws !! j = Some Exited) -> qu = []).
  { intros w Hw (j & Hj). apply Hok. exists j.
    by apply list_lookup_insert_Some in Hj as [(_ & -> & _)|(_ & Hj)]. }
  destruct (ws !! i) as [[|loc|]|] eqn:Hi; [| |done|done].
  - destruct qu as [|r rest].
    + cbn. by rewrite length_insert.
    + destruct (row_begin (S i) r sh) as [sh0 loc0]. cbn. rewrite length_insert.
      split; [|done]. intros Hex.
      discriminate (Hkeep (Busy loc0) ltac:(done) Hex).
  - destruct (todo loc) as [|so rest].
    + cbn. rewrite length_insert. split; [|done].
      intros Hex. by apply (Hkeep Waiting).
    + msimpl. cbn [q workers store]. rewrite length_insert. split; [|done].
      intros Hex.
      by apply (Hkeep (Busy (snd (result_of (row_step R bom ppg (S i) so rest sh loc t))))).
Qed.

Lemma finish_worker_exit p i t :
  pool_exit_ok p -> i < length (workers p) ->
  let p' := result_of (finish_worker R bom ppg p i t) in
  workers p' = <[i := Exited]> (workers p) /\ q p' = [].
Proof.
  destruct p as [qu ws sh]. unfold pool_exit_ok, finish_worker. cbn [q workers store].
  intros Hok Hi. cbn zeta.
  destruct (lookup_lt_is_Some_2 ws i Hi) as [w Hw]. rewrite Hw.
  destruct w as [|loc|]; msimpl; cbn [q workers store]; [done|done|].
  split; [by rewrite list_insert_id|]. apply Hok. by exists i.
Qed.

Lemma join_exit (l : list nat) :
  forall p t,
    pool_exit_ok p -> (forall i, i ∈ l -> i < length (workers p)) ->
    let p' := result_of (for_each (finish_worker R bom ppg) l p t) in
    length (workers p') = length (workers p)
    /\ (forall j, j < length (workers p) ->
          j ∈ l \/ workers p !! j = Some Exited -> workers p' !! j = Some Exited)
    /\ (l <> [] -> q p' = []).
Proof.
  induction l as [|i l IH]; intros p t Hok Hl; cbn zeta; cbn [for_each].
  - cbn. split; [done|]. split; [|done]. intros j _ [Hj|Hj]; [by apply elem_of_nil in Hj|done].
  - msimpl.
    assert (Hi : i < length (workers p)) by (apply Hl, list_elem_of_here).
    destruct (finish_worker_exit p i t Hok Hi) as (Hw & Hq).
    set (p1 := result_of (finish_worker R bom ppg p i t)) in *.
    assert (Hlen1 : length (workers p1) = length (workers p))
      by (by rewrite Hw, length_insert).
    assert (Hok1 : pool_exit_ok p1) by (by intros _).
    destruct (IH p1 (clock_of (finish_worker R bom ppg p i t)) Hok1) as (Hlen & Hex & Hq').
    { intros j Hj. rewrite Hlen1. apply Hl. by apply list_elem_of_further. }
    split; [by rewrite Hlen|]. split.
    + intros j Hj Hcase. apply Hex; [by rewrite Hlen1|].
      destruct (decide (j = i)) as [->|Hne].
      * right. rewrite Hw. by apply list_lookup_insert_eq.
      * destruct Hcase as [Hin|Hold].
        -- left. apply elem_of_cons in Hin as [->|Hin]; [done|done].
        -- right. rewrite Hw. by rewrite list_lookup_insert_ne.
    + intros _. destruct l as [|i2 l2]; [exact Hq|]. by apply Hq'.
Qed.

Lemma run_schedule_exit_ok sched :
  forall p t,
    pool_exit_ok p ->
    pool_exit_ok (result_of (run_schedule R bom ppg sched p t))
    /\ length (workers (result_of (run_schedule R bom ppg sched p t)))
       = length (workers p).
Proof.
  induction sched as [|i sched IH]; intros p t Hok; [done|].
  rewrite run_schedule_cons. msimpl.
  destruct (worker_step_exit_ok i p t Hok) as (Hok1 & Hlen1).
  destruct (IH (result_of (worker_step R bom ppg i p t))
               (clock_of (worker_step R bom ppg i p t)) Hok1) as (Hok2 & Hlen2).
  split; [done|]. by rewrite Hlen2.
Qed.

End PoolExit.


Lemma initial_pool_exit_ok df_batches num_threads :
  pool_exit_ok (initial_pool df_batches num_threads)
  /\ length (workers (initial_pool df_batches num_threads))
     = Z.to_nat (n_workers num_threads (length (batch_rows df_batches))).
Proof.
  unfold pool_exit_ok, initial_pool, worker_ids. cbn [q workers]. split.
  - intros (i & Hi). change (List.map ?f ?l) with (f <$> l) in Hi.
    rewrite list_lookup_fmap in Hi. destruct (_ !! i); discriminate.
  - by rewrite !length_map, length_seq.
Qed.

(** X18 — the worker pool of [run_specificBatches_optimized]: when the
    executor block is left, under every interleaving of the workers, the
    queue is empty and every one of the [min(num_threads, total_batches)]
    workers has exited on an empty queue; no batch row is left
    unprocessed. *)
Theorem pool_drained
    (R : remote) (bom : list bom_row) (ppg : list order_row)
    (df_batches : batch_frame) (num_threads : Z) (schedule : list nat) (t : nat) :
  (0 < n_workers num_threads (length (batch_rows df_batches)))%Z ->
  let p' := result_of (bind (run_schedule R bom ppg schedule
                               (initial_pool df_batches num_threads))
                            (join_pool R bom ppg) t) in
  q p' = []
  /\ Forall (fun w => w = Exited) (workers p')
  /\ Z.of_nat (length (workers p')) = n_workers num_threads (length (batch_rows df_batches)).
Proof.
  intros Hn. cbn zeta. msimpl.
  destruct (initial_pool_exit_ok df_batches num_threads) as (Hok0 & Hlen0).
  destruct (run_schedule_exit_ok R bom ppg schedule (initial_pool df_batches num_threads) t Hok0)
    as (Hok1 & Hlen1).
  set (x := run_schedule R bom ppg schedule (initial_pool df_batches num_threads) t) in *.
  unfold join_pool.
  destruct (join_exit R bom ppg (seq 0 (length (workers (result_of x)))) (result_of x)
              (clock_of x) Hok1) as (Hlen & Hex & Hq).
  { intros i Hi. apply elem_of_seq in Hi. lia. }
  split; [|split].
  - apply Hq. rewrite Hlen1, Hlen0.
    destruct (Z.to_nat _) eqn:E; [lia|discriminate].
  - apply Forall_lookup. intros j w Hj.
    assert (Hlt : j < length (workers (result_of x))).
    { rewrite <- Hlen. by eapply lookup_lt_Some. }
    rewrite (Hex j Hlt) in Hj; [congruence|]. left. apply elem_of_seq. lia.
  - rewrite Hlen, Hlen1, Hlen0. lia.
Qed.

Lemma pool_drained_witness :
  let R := scripted_remote 0 (Reply 201 None) (fun _ => Reply 200 None) in
  q (result_of (bind (run_schedule R example_bom example_ppg [0; 1; 1]
                        (initial_pool example_frame 2))
                     (join_pool R example_bom example_ppg) 0)) = [].
Proof.
  intros R.
  refine (proj1 (pool_drained R example_bom example_ppg example_frame 2 [0; 1; 1] 0 _)).
  reflexivity.
Defined.


(** ** The count of the status rows over a run *)

Lemma upsert_row_counted (df : list shard_row) (row_out : shard_row) :
  Forall counted df -> counted row_out -> Forall counted (upsert_row df row_out).
Proof.
  intros Hdf Hrow. unfold upsert_row. destruct (df_empty df); [by repeat constructor|].
  apply Forall_app. split; [|by repeat constructor].
  apply Forall_forall. intros r Hr. apply list_elem_of_In, filter_In in Hr as [Hr _].
  rewrite Forall_forall in Hdf. by apply Hdf, list_elem_of_In.
Qed.

Lemma merge_frame_counted (m : list (string * list string)) (df : list shard_row) :
  Forall (fun it => Forall so_token (snd it)) m ->
  Forall counted df -> Forall counted (merge_frame m df).
Proof.
  intros Hm Hdf. rewrite merge_frame_rows. change (List.map ?f ?l) with (f <$> l).
  apply Forall_fmap. eapply Forall_impl; [exact Hdf|]. intros r Hr. cbn.
  by destruct (merge_row_spec m Hm r) as (H & _); apply H.
Qed.

Lemma apply_deferred_successes_counted (m : list (string * list string))
    (files : gmap nat (list shard_row)) :
  Forall (fun it => Forall so_token (snd it)) m ->
  (forall tid df, files !! tid = Some df -> Forall counted df) ->
  forall tid df, _apply_deferred_successes_to_parquets files m !! tid = Some df ->
                 Forall counted df.
Proof.
  intros Hm Hfiles tid df. unfold _apply_deferred_successes_to_parquets.
  destruct (df_empty m); [apply Hfiles|].
  rewrite lookup_fmap. destruct (files !! tid) as [df0|] eqn:E; [|discriminate].
  intros [= <-]. apply merge_frame_counted; [done|by apply (Hfiles tid)].
Qed.

Lemma dict_append_tokens (d : list (string * list string)) (k v : string) :
  Forall (fun it => Forall so_token (snd it)) d -> so_token v ->
  Forall (fun it => Forall so_token (snd it)) (dict_append d k v).
Proof.
  intros Hd Hv. induction Hd as [|[k' l] d Hl Hd IH]; cbn [dict_append].
  - constructor; [|constructor]. cbn. constructor; [exact Hv|constructor].
  - destruct (String.eqb k' k).
    + constructor; [|done]. cbn in *. apply Forall_app. split; [done|].
      constructor; [exact Hv|constructor].
    + by constructor.
Qed.

Lemma store_counted_set_counts sh c : store_counted sh -> store_counted (set_counts sh c).
Proof. by intros H. Qed.

Section CountedFacts.
Context (R : remote) (bom : list bom_row) (ppg : list order_row).

Lemma row_step_counted thread_id so rest sh loc t :
  store_counted sh ->
  so_token so -> Forall so_token (allocated_arr loc) -> Forall counted (df_ok loc) ->
  let x := row_step R bom ppg thread_id so rest sh loc t in
  store_counted (fst (result_of x))
  /\ Forall so_token (allocated_arr (snd (result_of x)))
  /\ Forall counted (df_ok (snd (result_of x)))
  /\ todo (snd (result_of x)) = rest.
Proof.
  intros (Hfiles & Hd & Hc) Hso Hal Hok. cbn zeta.
  destruct (row_step_accounts R bom ppg thread_id so rest sh loc t)
    as (a & d & c & e & Hone & Ha & Hd' & Hc' & _ & _ & _ & Hok' & Hfiles').
  destruct (row_step_rank_effect R bom ppg thread_id so rest sh loc t) as (_ & Htodo & _).
  set (x := row_step R bom ppg thread_id so rest sh loc t) in *.
  assert (Hparts : Forall so_token a /\ Forall so_token d /\ Forall so_token c).
  { destruct (one_bucket _ _ _ _ _ Hone)
      as [(-> & -> & -> & _)|[(-> & -> & -> & _)|[(-> & -> & -> & _)|(-> & -> & -> & _)]]];
      (split; [|split]); first [constructor; [exact Hso|constructor] | constructor]. }
  destruct Hparts as (Hta & Htd & Htc).
  assert (Hal' : Forall so_token (allocated_arr (snd (result_of x)))).
  { rewrite Ha. apply Forall_app. by split. }
  assert (Hdf : Forall counted (df_ok (snd (result_of x)))).
  { rewrite Hok'. apply upsert_row_counted; [done|].
    by destruct (status_row_items (row loc) _ Hal'). }
  split; [|by repeat split].
  split; [|split].
  - intros tid df. rewrite Hfiles'. intros Hl.
    apply lookup_insert_Some in Hl as [(_ & <-)|(_ & Hl)]; [done|by apply (Hfiles tid)].
  - intros b. rewrite Hd'. apply Forall_app. split; [done|]. by destruct (decide _).
  - intros b. rewrite Hc'. apply Forall_app. split; [done|]. by destruct (decide _).
Qed.

Lemma worker_step_counted i p t :
  pool_counted p -> pool_counted (result_of (worker_step R bom ppg i p t)).
Proof.
  destruct p as [qu ws sh]. unfold pool_counted, worker_step. cbn [q workers store].
  intros (Hst & Hw).
  destruct (ws !! i) as [[|loc|]|] eqn:Hi; [| |done|done].
  - destruct qu as [|r rest].
    + cbn. split; [done|]. intros j l Hj.
      apply list_lookup_insert_Some in Hj as [(_ & ? & _)|(_ & Hj)]; [done|by apply (Hw j)].
    + destruct (row_begin_counts (S i) r sh) as (_ & _ & _ & Ht0).
      destruct (row_begin_maps (S i) r sh) as (Hdc0 & Hd0).
      destruct (row_begin_shard (S i) r sh) as (Hf0 & Hok0 & Hal0).
      destruct (row_begin (S i) r sh) as [sh0 loc0]. cbn [fst snd] in *. cbn.
      destruct Hst as (Hfiles & Hd & Hc). split.
      * split; [by rewrite Hf0|]. split; [by rewrite Hd0|by rewrite Hdc0].
      * intros j l Hj.
        apply list_lookup_insert_Some in Hj as [(_ & E & _)|(_ & Hj)]; [|by apply (Hw j)].
        injection E as <-. rewrite Ht0, Hal0, Hok0.
        split; [apply safe_split_docnums_tokens|]. split; [constructor|].
        destruct (ok_files sh !! S i) as [df|] eqn:E; [by apply (Hfiles (S i))|constructor].
  - destruct (Hw i loc Hi) as (Htodo & Hal & Hok).
    destruct (todo loc) as [|so rest] eqn:Ht.
    + cbn. split; [done|]. intros j l Hj.
      apply list_lookup_insert_Some in Hj as [(_ & ? & _)|(_ & Hj)]; [done|by apply (Hw j)].
    + msimpl. cbn [q workers store]. inversion Htodo as [|? ? Hso Hrest]; subst.
      destruct (row_step_counted (S i) so rest sh loc t Hst Hso Hal Hok)
        as (Hst' & Hal' & Hok' & Htodo').
      split; [done|]. intros j l Hj.
      apply list_lookup_insert_Some in Hj as [(_ & E & _)|(_ & Hj)]; [|by apply (Hw j)].
      injection E as <-. rewrite Htodo'. by repeat split.
Qed.

Lemma initial_pool_counted df_batches num_threads :
  pool_counted (initial_pool df_batches num_threads).
Proof.
  unfold pool_counted, initial_pool. cbn [q workers store]. split.
  - split; [by intros tid df Hl; cbn in Hl; rewrite lookup_empty in Hl|].
    split; intros b; unfold entries; cbn; by rewrite lookup_empty.
  - intros i loc Hi. change (List.map ?f ?l) with (f <$> l) in Hi.
    rewrite list_lookup_fmap in Hi. destruct (_ !! i); discriminate.
Qed.

End CountedFacts.



Section CountedTails.
Context (R : remote) (bom : list bom_row) (ppg : list order_row).

Lemma retry_deferred_one_counted batch acc soNum t :
  so_token soNum -> tail_counted acc ->
  tail_counted (result_of (retry_deferred_one R batch acc soNum t)).
Proof.
  intros Hso Hacc. destruct acc as [sh succ]. unfold retry_deferred_one. msimpl.
  destruct (df_empty _); [done|]. msimpl.
  destruct (result_of (addOrderToBatch R soNum batch _ _)); [|done].
  destruct Hacc as (Hst & Hsucc). split; [done|]. by apply dict_append_tokens.
Qed.

Lemma retry_create_one_counted batch acc soNum t :
  so_token soNum -> tail_counted acc ->
  tail_counted (result_of (retry_create_one R bom batch acc soNum t)).
Proof.
  intros Hso Hacc. destruct acc as [sh succ]. unfold retry_create_one. msimpl.
  match goal with |- context [result_of (?c ?t0)] =>
    destruct (result_of (c t0)) as [[|]|]; msimpl; try done end.
  destruct (result_of (addOrderToBatch R soNum batch _ _)); [|done].
  destruct Hacc as (Hst & Hsucc). split; [done|]. by apply dict_append_tokens.
Qed.

Lemma tail_close_counted (x : shared * list (string * list string)) :
  tail_counted x ->
  store_counted (set_ok_files (fst x)
                   (_apply_deferred_successes_to_parquets (ok_files (fst x)) (snd x))).
Proof.
  intros ((Hfiles & Hd & Hc) & Hsucc). split; [|by split].
  cbn [ok_files set_ok_files]. by apply apply_deferred_successes_counted.
Qed.

Lemma retry_deferred_tail_counted sh t :
  store_counted sh -> store_counted (result_of (_retry_deferred_tail R sh t)).
Proof.
  intros Hst. unfold _retry_deferred_tail. destruct (decide (deferred_map sh = ∅)); [done|].
  msimpl. apply tail_close_counted.
  refine (for_each_invariant (fun _ acc => tail_counted acc) _ _ _ [] (sh, []) t _).
  - intros _ acc batch t' _ Hacc.
    refine (for_each_invariant (fun _ acc => tail_counted acc) _ _ _ [] acc t' Hacc).
    intros _ acc' soNum t'' Hin Hacc'. apply retry_deferred_one_counted; [|done].
    destruct Hst as (_ & Hd & _). specialize (Hd batch). rewrite Forall_forall in Hd.
    by apply Hd.
  - split; [done|constructor].
Qed.

Lemma retry_deferred_create_tail_counted sh t :
  store_counted sh ->
  store_counted (result_of (_retry_deferred_create_then_add_tail R bom sh t)).
Proof.
  intros Hst. unfold _retry_deferred_create_then_add_tail.
  destruct (decide (deferred_create_map sh = ∅)); [done|].
  msimpl. apply tail_close_counted.
  refine (for_each_invariant (fun _ acc => tail_counted acc) _ _ _ [] (sh, []) t _).
  - intros _ acc batch t' _ Hacc.
    refine (for_each_invariant (fun _ acc => tail_counted acc) _ _ _ [] acc t' Hacc).
    intros _ acc' soNum t'' Hin Hacc'. apply retry_create_one_counted; [|done].
    destruct Hst as (_ & _ & Hc). specialize (Hc batch). rewrite Forall_forall in Hc.
    by apply Hc.
  - split; [done|constructor].
Qed.

Lemma combine_parquet_files_counted sh :
  store_counted sh -> Forall counted (combine_parquet_files sh).
Proof.
  intros (Hfiles & _). unfold combine_parquet_files. apply concat_Forall.
  apply Forall_fmap, Forall_forall. intros [tid df] Hin. cbn.
  apply elem_of_map_to_list in Hin. by apply (Hfiles tid).
Qed.

End CountedTails.


(** X19 — In the status table a finished pool run leaves behind (the shards
    of all threads put together), every row's [soCount] is the number of
    entries of its [ordersBatched] list: the rows written during the main
    pass and the rows rewritten by the two tail passes alike, for every
    schedule of the workers and every behaviour of the remote. *)
Theorem run_status_rows_counted (R : remote) (bom : list bom_row) (ppg : list order_row)
    (df_batches : batch_frame) (num_threads : Z) (schedule : list nat) (t : nat)
    (sh : shared) :
  result_of (run_specificBatches_optimized R bom ppg df_batches num_threads schedule t)
  = Some sh ->
  Forall (fun r => soCount r = length (csv_items (ordersBatched r)))
         (combine_parquet_files sh).
Proof.
  unfold run_specificBatches_optimized.
  destruct (df_empty (batch_rows df_batches)); [discriminate|].
  destruct (n_workers num_threads _ <=? 0)%Z; [discriminate|].
  set (p0 := initial_pool df_batches num_threads).
  destruct (main_pass_as_schedule R bom ppg schedule p0 t) as (sched & E).
  rewrite <- (bind_assoc (run_schedule R bom ppg schedule p0) (join_pool R bom ppg)
                (fun p2 => bind (_retry_deferred_tail R (store p2))
                   (fun sh1 => bind (_retry_deferred_create_then_add_tail R bom sh1)
                      (fun sh2 => ret (Some sh2)))) t).
  rewrite (bind_cong_l _ _ _ _ E).
  msimpl. intros [= <-].
  apply (combine_parquet_files_counted).
  apply retry_deferred_create_tail_counted, retry_deferred_tail_counted.
  by pose proof (run_schedule_invariant R bom ppg (fun _ p => pool_counted p)
                   (fun i evs p t => worker_step_counted R bom ppg i p t) sched [] p0 t
                   (initial_pool_counted df_batches num_threads)) as (Hst & _).
Qed.

Lemma run_status_rows_counted_witness :
  let R := scripted_remote 0 (Reply 201 None)
             (fun t => if Nat.ltb t 12 then Reply 500 None else Reply 200 None) in
  let x := run_specificBatches_optimized R example_bom example_ppg example_frame 2
             [0; 1; 1; 0] 0 in
  exists sh, result_of x = Some sh
             /\ Forall (fun r => soCount r = length (csv_items (ordersBatched r)))
                       (combine_parquet_files sh).
Proof.
  intros R x. destruct (result_of x) as [sh|] eqn:E; [|vm_compute in E; discriminate].
  exists sh. split; [reflexivity|].
  exact (run_status_rows_counted R example_bom example_ppg example_frame 2%Z
           [0; 1; 1; 0] 0 sh E).
Defined.


(** ** The ledger over the tails and the pool *)

Section LedgerRun.
Context (R : remote) (bom : list bom_row) (ppg : list order_row).

Lemma retry_create_one_attempts batch acc soNum t :
  step_attempts_ok (fst acc) (events_of (retry_create_one R bom batch acc soNum t)).
Proof.
  destruct (retry_create_one_spec R bom batch acc soNum t)
    as (kev & aev & He & _ & Hkev & Haev & _).
  rewrite He.
  assert (Hk : add_attempts kev = [] /\ forall b, committed_ranks b kev = []).
  { by destruct Hkev as [->|(reply & -> & _)]. }
  destruct Hk as (Hk1 & Hk2).
  destruct Haev as [->|(aev' & -> & Hf)].
  - apply no_attempt_step. by rewrite app_nil_r.
  - destruct (assign_projections _ Hf) as (_ & _ & Ha). by apply one_attempt_step.
Qed.

Lemma retry_deferred_tail_ledger sh evs t :
  ledger_ok evs sh ->
  ledger_ok (evs ++ events_of (_retry_deferred_tail R sh t))
            (result_of (_retry_deferred_tail R sh t)).
Proof.
  intros Hl. unfold _retry_deferred_tail.
  destruct (decide (deferred_map sh = ∅)); [by rewrite app_nil_r|].
  msimpl. rewrite app_nil_r.
  apply (for_each_invariant (fun evs acc => ledger_ok evs (fst acc))); [|done].
  intros evs' acc batch t' _ Hacc.
  apply (for_each_invariant (fun evs acc => ledger_ok evs (fst acc))); [|done].
  intros evs'' acc' soNum t'' _ Hacc'.
  apply (ledger_step _ _ (fst acc')); [done| |apply retry_deferred_one_attempts].
  apply retry_deferred_one_dense, Hacc'.
Qed.

Lemma retry_deferred_create_tail_ledger sh evs t :
  ledger_ok evs sh ->
  ledger_ok (evs ++ events_of (_retry_deferred_create_then_add_tail R bom sh t))
            (result_of (_retry_deferred_create_then_add_tail R bom sh t)).
Proof.
  intros Hl. unfold _retry_deferred_create_then_add_tail.
  destruct (decide (deferred_create_map sh = ∅)); [by rewrite app_nil_r|].
  msimpl. rewrite app_nil_r.
  apply (for_each_invariant (fun evs acc => ledger_ok evs (fst acc))); [|done].
  intros evs' acc batch t' _ Hacc.
  apply (for_each_invariant (fun evs acc => ledger_ok evs (fst acc))); [|done].
  intros evs'' acc' soNum t'' _ Hacc'.
  apply (ledger_step _ _ (fst acc')); [done| |apply retry_create_one_attempts].
  apply retry_create_one_dense, Hacc'.
Qed.

Lemma sequential_driver_ledger df thread_id t :
  ledger_ok (events_of (batch_and_allocate_orders_optimized R bom ppg df thread_id t))
            (result_of (batch_and_allocate_orders_optimized R bom ppg df thread_id t)).
Proof.
  unfold batch_and_allocate_orders_optimized. msimpl. rewrite app_assoc.
  apply retry_deferred_create_tail_ledger, retry_deferred_tail_ledger.
  apply (for_each_invariant (fun evs sh => ledger_ok evs sh) _ df
           (fun evs sh r t' _ Hl =>
              process_single_batch_row_ledger R bom ppg thread_id r sh evs t' Hl)
           [] empty_shared t).
  split; [by intros b|]. intros pre so b rank post E. by destruct pre.
Qed.

Lemma worker_step_attempts i evs p t :
  pool_ranks_ok evs p ->
  step_attempts_ok (store p) (events_of (worker_step R bom ppg i p t)).
Proof.
  destruct p as [qu ws sh]. intros (_ & Hr & _). unfold worker_step. cbn [q workers store] in *.
  destruct (ws !! i) as [[|loc|]|] eqn:Hi; try by apply no_attempt_step.
  - destruct qu as [|r rest]; [by apply no_attempt_step|].
    destruct (row_begin (S i) r sh) as [sh0 loc0]. by apply no_attempt_step.
  - destruct (todo loc) as [|soNum rest]; [by apply no_attempt_step|].
    msimpl. rewrite app_nil_r. apply row_step_attempts. by apply (Hr i).
Qed.

Lemma pool_run_ledger df_batches num_threads schedule t sh :
  NoDup (PPG_BatchName <$> batch_rows df_batches) ->
  result_of (run_specificBatches_optimized R bom ppg df_batches num_threads schedule t)
  = Some sh ->
  ledger_ok (events_of (run_specificBatches_optimized R bom ppg df_batches num_threads
                                                      schedule t)) sh.
Proof.
  intros Hnd. unfold run_specificBatches_optimized.
  destruct (df_empty (batch_rows df_batches)); [discriminate|].
  destruct (n_workers num_threads _ <=? 0)%Z; [discriminate|].
  set (p0 := initial_pool df_batches num_threads).
  destruct (main_pass_as_schedule R bom ppg schedule p0 t) as (sched & E).
  rewrite <- (bind_assoc (run_schedule R bom ppg schedule p0) (join_pool R bom ppg)
                (fun p2 => bind (_retry_deferred_tail R (store p2))
                   (fun sh1 => bind (_retry_deferred_create_then_add_tail R bom sh1)
                      (fun sh2 => ret (Some sh2)))) t).
  rewrite (bind_cong_l _ _ _ _ E).
  msimpl. intros [= <-]. rewrite app_nil_r, app_assoc.
  apply retry_deferred_create_tail_ledger, retry_deferred_tail_ledger.
  pose proof (run_schedule_invariant R bom ppg
                (fun evs p => pool_ranks_ok evs p /\ attempts_next evs)) as Hinv.
  destruct (Hinv) with (sched := sched) (evs := @nil event) (p := p0) (t := t)
    as ((Hd & _) & Hn).
  - intros i evs p t' (Hok & Hn). split; [by apply worker_step_ranks|].
    apply (attempts_next_step _ _ (store p)); [apply Hok|done|].
    by apply (worker_step_attempts i evs).
  - split; [by apply initial_pool_ranks|].
    intros pre so b rank post E'. by destruct pre.
  - by split.
Qed.

End LedgerRun.


(** ** C1 *)

(** C1 as stated fails.  Two rows of the batch table carry the name B and
    two workers take them at the same time: both read rank 1 before either
    commits.  SO1 is assigned at rank 1 and the counter becomes 1; the
    second worker still holds rank 1 and SO2 is assigned at rank 1 too.
    With two successful assignments the committed ranks are 1 and 1, not 1
    and 2, and the second attempt did not use the counter plus one. *)
Lemma same_name_rows_taken_together :
  let R := scripted_remote 0 (Reply 201 None) (fun _ => Reply 200 None) in
  let x := run_specificBatches_optimized R example_bom example_ppg example_frame_same_name 2
             [0; 1; 0; 1] 0 in
  committed_ranks "B" (events_of x) = [1; 1]
  /\ (fun sh => count_of sh "B") <$> result_of x = Some 2
  /\ add_attempts (events_of x) = [("SO1", "B", 1); ("SO2", "B", 1)]
  /\ committed_ranks "B" (events_of x) <> seq 1 2
  /\ ~ NoDup (committed_ranks "B" (events_of x)).
Proof.
  vm_compute. repeat split; try reflexivity; try discriminate.
  intros H. apply NoDup_cons in H as [H _]. apply H. apply list_elem_of_here.
Qed.

(** C1, amended — rank density.  For the sequential driver
    [batch_and_allocate_orders_optimized] on every batch table, and for the
    worker pool of [run_specificBatches_optimized] under every interleaving
    of the workers when no two rows of the batch table share a batch name:
    the ranks committed for every batch over the whole run — main pass and
    both tail passes together, whatever failed, was deferred or was retried
    on the way — are 1, 2, ..., K in this order, where K is the batch's
    counter at the end of the run, the number of successful assignments;
    and every call of [addOrderToBatch] carries the rank one above the
    number of ranks committed for its batch before the call, the value of
    the counter at that moment.  At every point of the pool's main pass
    the counter of a batch is the number of ranks committed for it so far,
    and a worker inside a row holds, for its next attempt, the rank one
    above its batch's counter. *)
Theorem rank_density (R : remote) (bom : list bom_row) (ppg : list order_row) :
  (forall df thread_id t,
     let x := batch_and_allocate_orders_optimized R bom ppg df thread_id t in
     (forall b, committed_ranks b (events_of x) = seq 1 (count_of (result_of x) b))
     /\ (forall pre so b rank post,
           events_of x = pre ++ EvAddOrderToBatch so b rank :: post ->
           rank = length (committed_ranks b pre) + 1))
  /\ (forall df_batches num_threads schedule t sh,
        let x := run_specificBatches_optimized R bom ppg df_batches num_threads schedule t in
        NoDup (PPG_BatchName <$> batch_rows df_batches) ->
        result_of x = Some sh ->
        (forall b, committed_ranks b (events_of x) = seq 1 (count_of sh b))
        /\ (forall pre so b rank post,
              events_of x = pre ++ EvAddOrderToBatch so b rank :: post ->
              rank = length (committed_ranks b pre) + 1))
  /\ (forall df_batches num_threads schedule t,
        let y := run_schedule R bom ppg schedule (initial_pool df_batches num_threads) t in
        NoDup (PPG_BatchName <$> batch_rows df_batches) ->
        (forall b, count_of (store (result_of y)) b = length (committed_ranks b (events_of y)))
        /\ (forall i loc, workers (result_of y) !! i = Some (Busy loc) ->
              current_rank loc = count_of (store (result_of y)) (batch_name loc) + 1)).
Proof.
  split; [|split].
  - intros df thread_id t x. apply sequential_driver_ledger.
  - intros df_batches num_threads schedule t sh x Hnd Hx.
    by apply (pool_run_ledger R bom ppg df_batches num_threads schedule t sh).
  - intros df_batches num_threads schedule t y Hnd.
    pose proof (run_schedule_invariant R bom ppg pool_ranks_ok
                  (fun i evs p t => worker_step_ranks R bom ppg i evs p t) schedule []
                  (initial_pool df_batches num_threads) t
                  (initial_pool_ranks df_batches num_threads Hnd)) as (Hd & Hr & _).
    cbn [app] in Hd. split; [|exact Hr].
    intros b. fold y in Hd. by rewrite Hd, length_seq.
Qed.

Lemma rank_density_witness :
  let R := scripted_remote 0 (Reply 201 None)
             (fun t => if Nat.ltb t 12 then Reply 500 None else Reply 200 None) in
  let x := run_specificBatches_optimized R example_bom example_ppg example_frame 2
             [0; 1; 1; 0] 0 in
  exists sh, result_of x = Some sh
             /\ add_attempts (events_of x)
                = [("SO1", "B1", 1); ("SO3", "B2", 1); ("SO2", "B1", 1); ("SO1", "B1", 2)]
             /\ (forall b, committed_ranks b (events_of x) = seq 1 (count_of sh b))
             /\ (forall pre so b rank post,
                   events_of x = pre ++ EvAddOrderToBatch so b rank :: post ->
                   rank = length (committed_ranks b pre) + 1).
Proof.
  intros R x. destruct (result_of x) as [sh|] eqn:E; [|vm_compute in E; discriminate].
  exists sh. split; [reflexivity|]. split; [vm_compute; reflexivity|].
  apply (proj1 (proj2 (rank_density R example_bom example_ppg))
           example_frame 2%Z [0; 1; 1; 0] 0 sh); [|exact E].
  cbn. apply NoDup_cons. split; [|apply NoDup_singleton].
  intros H. apply list_elem_of_singleton in H. discriminate.
Defined.
